(** * Learno backend: the teaching state machine and its session store

    A shallow embedding of [app/services/dynamic_lesson_service.py],
    [app/services/session_service.py] and the lookup functions of
    [app/models/lesson_content.py], with the image cache of
    [app/services/image_service.py], the transcript validator of
    [app/routes/dynamic_routes.py] and the table of exception handlers
    of [app/main.py].

    Conventions.
    - A Python [str] is represented by its UTF-8 byte sequence (Rocq's
      [string]).  [str.lower], [str.strip] and the regular expression
      class [\d] are modelled on the ASCII range; bytes above 127 (the
      pieces of a non-ASCII code point such as an emoji) are left
      untouched and are neither blank nor digits.
    - Python dictionaries are finite maps ([gmap]).
    - Counters and cursors are [nat]: the code starts them at 0 and only
      ever adds 1 or resets them to 0.
    - A Python exception does not roll back what was mutated before it
      was raised: a computation returns the (possibly modified) world
      together with either a value or the exception.
    - Instants and durations are integers (seconds), and the calls of
      [datetime.now()] made while one request is served all return the
      instant at which the request arrived. *)

From stdpp Require Import gmap strings list fin_maps.
From Stdlib Require Import ZArith Ascii Lia.

Local Open Scope Z_scope.
Local Open Scope nat_scope.

(** ** Python string primitives *)

Module PyStr.

Definition ord (c : ascii) : nat := nat_of_ascii c.

Definition between (lo hi : nat) (c : ascii) : bool :=
  (lo <=? ord c) && (ord c <=? hi).

(** [c.isupper()] on the ASCII range. *)
Definition isupper (c : ascii) : bool := between 65 90 c.

(** [\d] on the ASCII range. *)
Definition isdigit (c : ascii) : bool := between 48 57 c.

(** [c.isspace()] on the ASCII range: TAB, LF, VT, FF, CR, the four
    separators FS, GS, RS, US, and the space. *)
Definition isspace (c : ascii) : bool :=
  between 9 13 c || between 28 32 c.

Definition lower_char (c : ascii) : ascii :=
  if isupper c then ascii_of_nat (ord c + 32) else c.

(** [s.lower()] *)
Fixpoint lower (s : string) : string :=
  match s with
  | EmptyString => EmptyString
  | String c s' => String (lower_char c) (lower s')
  end.

Fixpoint lstrip (s : string) : string :=
  match s with
  | EmptyString => EmptyString
  | String c s' => if isspace c then lstrip s' else s
  end.

Definition is_empty (s : string) : bool :=
  match s with EmptyString => true | _ => false end.

Fixpoint rstrip (s : string) : string :=
  match s with
  | EmptyString => EmptyString
  | String c s' =>
      let r := rstrip s' in
      if isspace c && is_empty r then EmptyString else String c r
  end.

(** [s.strip()] *)
Definition strip (s : string) : string := rstrip (lstrip s).

(** [needle in hay] *)
Fixpoint contains (needle hay : string) : bool :=
  String.prefix needle hay ||
  match hay with
  | EmptyString => false
  | String _ hay' => contains needle hay'
  end.

Definition starts_with_digit (s : string) : bool :=
  match s with
  | EmptyString => false
  | String c _ => isdigit c
  end.

(** [re.findall(r'\d+', s)]: the maximal runs of digits of [s], from
    left to right. *)
Fixpoint findall_digits (s : string) : list string :=
  match s with
  | EmptyString => []
  | String c s' =>
      let rest := findall_digits s' in
      if isdigit c then
        if starts_with_digit s' then
          match rest with
          | r :: rs => String c r :: rs
          | [] => [String c EmptyString]
          end
        else String c EmptyString :: rest
      else rest
  end.

(** [x in xs] for a list of strings *)
Definition mem (x : string) (xs : list string) : bool :=
  existsb (String.eqb x) xs.

(** Truth value of an [Optional[str]]: [None] and the empty string are
    false. *)
Definition truthy (o : option string) : bool :=
  match o with
  | Some s => negb (is_empty s)
  | None => false
  end.

(** *** Vocabulary for stating what the primitives compute *)

(** [needle] occurs somewhere inside [hay]. *)
Definition substring (needle hay : string) : Prop :=
  exists pre post, hay = pre +:+ needle +:+ post.




End PyStr.

(** ** Enumerations of [lesson_content.py] *)

Module ConceptPhase.
Inductive t :=
| INTRODUCTION
| EXPLANATION
| VISUAL_EXAMPLE
| GUIDED_PRACTICE
| INDEPENDENT_PRACTICE
| CONCEPT_CHECK
| COMPLETED.

Definition value (p : t) : string :=
  match p with
  | INTRODUCTION => "introduction"
  | EXPLANATION => "explanation"
  | VISUAL_EXAMPLE => "visual_example"
  | GUIDED_PRACTICE => "guided_practice"
  | INDEPENDENT_PRACTICE => "independent_practice"
  | CONCEPT_CHECK => "concept_check"
  | COMPLETED => "completed"
  end.

#[global] Instance eq_dec : EqDecision t.
Proof. solve_decision. Defined.
End ConceptPhase.

Module LessonPhase.
Inductive t :=
| WELCOME
| TEACHING
| CHAPTER_REVIEW
| CELEBRATION
| COMPLETED.

Definition value (p : t) : string :=
  match p with
  | WELCOME => "welcome"
  | TEACHING => "teaching"
  | CHAPTER_REVIEW => "chapter_review"
  | CELEBRATION => "celebration"
  | COMPLETED => "completed"
  end.

#[global] Instance eq_dec : EqDecision t.
Proof. solve_decision. Defined.
End LessonPhase.

(** ** Lesson content (the fields the service reads) *)

Record PracticeQuestion := {
  question_text : string;
  expected_answer : string;
  acceptable_answers : list string;
  hint_text : string;
  image_prompt : option string
}.

Record ConceptContent := {
  concept_id : string;
  concept_name : string;
  visual_description : string;
  guided_questions : list PracticeQuestion;
  independent_questions : list PracticeQuestion;
  mastery_check_question : string;
  mastery_answer : string;
  mastery_acceptable : list string;
  encouragement_phrases : list string
}.

Record ChapterContent := {
  chapter_id : string;
  chapter_title : string;
  concepts : list ConceptContent;
  review_questions : list PracticeQuestion
}.

Definition total_concepts (chapter : ChapterContent) : nat :=
  length (concepts chapter).

(** ** [TeachingState] *)

Record TeachingState := {
  lesson_phase : LessonPhase.t;
  current_concept_index : nat;
  concept_phase : ConceptPhase.t;
  guided_question_index : nat;
  independent_question_index : nat;
  review_question_index : nat;
  current_attempts : nat;
  total_correct : nat;
  total_wrong : nat;
  consecutive_wrong : nat;
  needs_extra_help : bool;
  current_expected_answer : option string;
  current_acceptable_answers : list string;
  current_hint : string
}.

(** [TeachingState()] with the dataclass defaults. *)
Definition TeachingState_new : TeachingState := {|
  lesson_phase := LessonPhase.WELCOME;
  current_concept_index := 0;
  concept_phase := ConceptPhase.INTRODUCTION;
  guided_question_index := 0;
  independent_question_index := 0;
  review_question_index := 0;
  current_attempts := 0;
  total_correct := 0;
  total_wrong := 0;
  consecutive_wrong := 0;
  needs_extra_help := false;
  current_expected_answer := None;
  current_acceptable_answers := [];
  current_hint := ""
|}.

(** ** [_evaluate_answer] *)

Definition _evaluate_answer (transcript : string) (state : TeachingState) : bool :=
  match current_expected_answer state with
  | None => true
  | Some expected =>
      if PyStr.is_empty expected then true
      else
        let normalized := PyStr.strip (PyStr.lower transcript) in
        if String.eqb normalized (PyStr.lower expected) then true
        else if existsb
                  (fun acceptable =>
                     PyStr.contains (PyStr.lower acceptable) normalized
                     || PyStr.contains normalized (PyStr.lower acceptable))
                  (current_acceptable_answers state)
        then true
        else
          let numbers := PyStr.findall_digits transcript in
          if negb (match numbers with [] => true | _ => false end)
             && PyStr.mem expected numbers
          then true
          else false
  end.

(** Functional counterparts of the attribute assignments on a
    [TeachingState] object. *)
Section Setters.
Context (state : TeachingState).

Definition set_lesson_phase (v : LessonPhase.t) : TeachingState :=
  Build_TeachingState v (current_concept_index state) (concept_phase state)
    (guided_question_index state) (independent_question_index state)
    (review_question_index state) (current_attempts state)
    (total_correct state) (total_wrong state) (consecutive_wrong state)
    (needs_extra_help state) (current_expected_answer state)
    (current_acceptable_answers state) (current_hint state).

Definition set_current_concept_index (v : nat) : TeachingState :=
  Build_TeachingState (lesson_phase state) v (concept_phase state)
    (guided_question_index state) (independent_question_index state)
    (review_question_index state) (current_attempts state)
    (total_correct state) (total_wrong state) (consecutive_wrong state)
    (needs_extra_help state) (current_expected_answer state)
    (current_acceptable_answers state) (current_hint state).

Definition set_concept_phase (v : ConceptPhase.t) : TeachingState :=
  Build_TeachingState (lesson_phase state) (current_concept_index state) v
    (guided_question_index state) (independent_question_index state)
    (review_question_index state) (current_attempts state)
    (total_correct state) (total_wrong state) (consecutive_wrong state)
    (needs_extra_help state) (current_expected_answer state)
    (current_acceptable_answers state) (current_hint state).

Definition set_guided_question_index (v : nat) : TeachingState :=
  Build_TeachingState (lesson_phase state) (current_concept_index state)
    (concept_phase state) v (independent_question_index state)
    (review_question_index state) (current_attempts state)
    (total_correct state) (total_wrong state) (consecutive_wrong state)
    (needs_extra_help state) (current_expected_answer state)
    (current_acceptable_answers state) (current_hint state).

Definition set_independent_question_index (v : nat) : TeachingState :=
  Build_TeachingState (lesson_phase state) (current_concept_index state)
    (concept_phase state) (guided_question_index state) v
    (review_question_index state) (current_attempts state)
    (total_correct state) (total_wrong state) (consecutive_wrong state)
    (needs_extra_help state) (current_expected_answer state)
    (current_acceptable_answers state) (current_hint state).

Definition set_review_question_index (v : nat) : TeachingState :=
  Build_TeachingState (lesson_phase state) (current_concept_index state)
    (concept_phase state) (guided_question_index state)
    (independent_question_index state) v (current_attempts state)
    (total_correct state) (total_wrong state) (consecutive_wrong state)
    (needs_extra_help state) (current_expected_answer state)
    (current_acceptable_answers state) (current_hint state).

Definition set_current_attempts (v : nat) : TeachingState :=
  Build_TeachingState (lesson_phase state) (current_concept_index state)
    (concept_phase state) (guided_question_index state)
    (independent_question_index state) (review_question_index state) v
    (total_correct state) (total_wrong state) (consecutive_wrong state)
    (needs_extra_help state) (current_expected_answer state)
    (current_acceptable_answers state) (current_hint state).

Definition set_total_correct (v : nat) : TeachingState :=
  Build_TeachingState (lesson_phase state) (current_concept_index state)
    (concept_phase state) (guided_question_index state)
    (independent_question_index state) (review_question_index state)
    (current_attempts state) v (total_wrong state) (consecutive_wrong state)
    (needs_extra_help state) (current_expected_answer state)
    (current_acceptable_answers state) (current_hint state).

Definition set_total_wrong (v : nat) : TeachingState :=
  Build_TeachingState (lesson_phase state) (current_concept_index state)
    (concept_phase state) (guided_question_index state)
    (independent_question_index state) (review_question_index state)
    (current_attempts state) (total_correct state) v (consecutive_wrong state)
    (needs_extra_help state) (current_expected_answer state)
    (current_acceptable_answers state) (current_hint state).

Definition set_consecutive_wrong (v : nat) : TeachingState :=
  Build_TeachingState (lesson_phase state) (current_concept_index state)
    (concept_phase state) (guided_question_index state)
    (independent_question_index state) (review_question_index state)
    (current_attempts state) (total_correct state) (total_wrong state) v
    (needs_extra_help state) (current_expected_answer state)
    (current_acceptable_answers state) (current_hint state).

Definition set_needs_extra_help (v : bool) : TeachingState :=
  Build_TeachingState (lesson_phase state) (current_concept_index state)
    (concept_phase state) (guided_question_index state)
    (independent_question_index state) (review_question_index state)
    (current_attempts state) (total_correct state) (total_wrong state)
    (consecutive_wrong state) v (current_expected_answer state)
    (current_acceptable_answers state) (current_hint state).

(** The three assignments that stash a question's expectation. *)
Definition set_expectation (expected : string) (acceptable : list string)
    (hint : string) : TeachingState :=
  Build_TeachingState (lesson_phase state) (current_concept_index state)
    (concept_phase state) (guided_question_index state)
    (independent_question_index state) (review_question_index state)
    (current_attempts state) (total_correct state) (total_wrong state)
    (consecutive_wrong state) (needs_extra_help state) (Some expected)
    acceptable hint.
End Setters.

(** [TeachingState.reset_attempts] *)
Definition reset_attempts (state : TeachingState) : TeachingState :=
  set_consecutive_wrong (set_current_attempts state 0) 0.

(** [TeachingState.record_correct] *)
Definition record_correct (state : TeachingState) : TeachingState :=
  let s1 := set_total_correct state (total_correct state + 1) in
  let s2 := set_consecutive_wrong s1 0 in
  set_needs_extra_help s2 false.

(** [TeachingState.record_wrong] *)
Definition record_wrong (state : TeachingState) : TeachingState :=
  let s1 := set_total_wrong state (total_wrong state + 1) in
  let s2 := set_current_attempts s1 (current_attempts s1 + 1) in
  let s3 := set_consecutive_wrong s2 (consecutive_wrong s2 + 1) in
  if 3 <=? consecutive_wrong s3 then set_needs_extra_help s3 true else s3.

(** ** Exceptions and the state-and-exception monad *)

(** The exception classes of [utils/exceptions.py] that the service can
    raise; [IndexError] is Python's own exception for a list index out of
    range, [AttributeError] the one for reading a field of [None], and
    [RecursionError] the one for a call stack that outgrows its budget. *)
Inductive Exn :=
| SessionNotFoundError
| SessionExpiredError
| LessonNotAvailableError
| AIServiceError
| IndexError
| AttributeError
| RecursionError.

Inductive Result (A : Type) :=
| Ok (a : A)
| Raise (e : Exn).
Arguments Ok {A} a.
Arguments Raise {A} e.

(** A computation over a mutable store [S]: it returns the store as the
    code left it, also when it raises. *)
Definition SE (S A : Type) : Type := S -> S * Result A.

Definition ret {S A} (a : A) : SE S A := fun s => (s, Ok a).

Definition raise {S A} (e : Exn) : SE S A := fun s => (s, Raise e).

Definition bind {S A B} (m : SE S A) (k : A -> SE S B) : SE S B :=
  fun s =>
    match m s with
    | (s', Ok a) => k a s'
    | (s', Raise e) => (s', Raise e)
    end.

Definition get {S} : SE S S := fun s => (s, Ok s).

Definition modify {S} (f : S -> S) : SE S unit := fun s => (f s, Ok tt).

Declare Scope se_scope.
Delimit Scope se_scope with se.
Notation "x <- m ;; k" := (bind m (fun x => k))
  (at level 100, m at next level, right associativity) : se_scope.
Notation "m ;;; k" := (bind m (fun _ => k))
  (at level 100, right associativity) : se_scope.
Local Open Scope se_scope.

(** ** Session store ([session_service.py]) *)

Record Session := {
  session_id : string;
  grade : Z;
  subject : string;
  lesson : string;
  created_at : Z;
  last_activity : Z;
  total_steps : nat;
  is_complete : bool
}.

(** The two process-wide dictionaries: [SessionService._sessions] and
    [DynamicLessonService._teaching_states]. *)
Record World := {
  _sessions : gmap string Session;
  _teaching_states : gmap string TeachingState
}.

Definition set_sessions (f : gmap string Session -> gmap string Session)
    (w : World) : World :=
  {| _sessions := f (_sessions w); _teaching_states := _teaching_states w |}.

Definition set_teaching_states
    (f : gmap string TeachingState -> gmap string TeachingState)
    (w : World) : World :=
  {| _sessions := _sessions w; _teaching_states := f (_teaching_states w) |}.

(** [session.update_activity()] *)
Definition update_activity (now : Z) (s : Session) : Session :=
  {| session_id := session_id s; grade := grade s; subject := subject s;
     lesson := lesson s; created_at := created_at s; last_activity := now;
     total_steps := total_steps s; is_complete := is_complete s |}.

Definition set_total_steps (n : nat) (s : Session) : Session :=
  {| session_id := session_id s; grade := grade s; subject := subject s;
     lesson := lesson s; created_at := created_at s;
     last_activity := last_activity s;
     total_steps := n; is_complete := is_complete s |}.

(** [session.is_expired()], with the clock reading [now] and the
    configured [SESSION_TIMEOUT_SECONDS]. *)
Definition is_expired (timeout now : Z) (s : Session) : bool :=
  (timeout <? now - last_activity s)%Z.

(** [Session(grade, subject, lesson)] with a freshly drawn identifier. *)
Definition Session_new (uuid : string) (now : Z) (g : Z) (subj les : string)
    : Session :=
  {| session_id := uuid; grade := g; subject := subj; lesson := les;
     created_at := now; last_activity := now; total_steps := 0;
     is_complete := false |}.

(** ** Catalog lookups ([lesson_content.py]) *)

Definition counting_aliases : list string :=
  ["counting"; "counting fun"; "counting fun adventure";
   "numbers"; "count"; "math basics"].

Definition valid_topics : list string :=
  ["counting"; "comparing and ordering"; "skip counting and number patterns";
   "names of numbers"; "even and odd"; "mixed operations: one digit";
   "mixed operations one digit"].

Definition is_chapter_available (g : Z) (subj les : string) : bool :=
  let subject_lower := PyStr.strip (PyStr.lower subj) in
  let lesson_lower := PyStr.strip (PyStr.lower les) in
  (g =? 2)%Z && String.eqb subject_lower "math"
  && PyStr.mem lesson_lower valid_topics.

(** ** What the phrasing collaborator is asked to render

    [dynamic_prompt_builder.py] turns its arguments into a list of chat
    messages; a [Prompt] records which builder is called and with which
    arguments taken from the teaching state and the catalog. *)
Inductive Prompt :=
| build_welcome_prompt (chapter_title : string)
| build_concept_introduction_prompt (concept_name : string)
| build_explanation_prompt (concept_name : string)
| build_visual_explanation_prompt (concept_name visual_description : string)
| build_guided_practice_prompt (question : PracticeQuestion)
    (concept_name : string) (is_first : bool)
| build_independent_practice_prompt (question : PracticeQuestion)
    (concept_name : string) (question_number total_questions : nat)
| build_mastery_check_prompt (concept_name question : string)
| build_chapter_review_prompt (question : PracticeQuestion)
    (question_number total_questions : nat)
| build_celebration_prompt (total_correct total_questions : nat)
| build_encouragement_prompt (is_correct : bool)
    (encouragement_phrases : list string)
| build_hint_prompt (child_answer expected_answer hint_text : string)
    (attempt_count : nat) (needs_extra_help is_silence : bool).

(** What the outside world contributes to one request: the clock, the
    identifier [uuid.uuid4()] draws, the answer of the language model to
    each prompt ([None] when [generate_response] raises [AIServiceError])
    and the pair [(url, error)] that [generate_image_sync] returns for a
    description.  One request never sends the same prompt twice, so a
    function of the prompt describes every possible behaviour of the
    model during that request. *)
Record Env := {
  now : Z;
  uuid4 : string;
  generate_response : Prompt -> option string;
  generate_image_sync : string -> option string * option string
}.

Record ProgressInfo := {
  pi_lesson_phase : string;
  pi_current_concept : nat;
  pi_total_concepts : nat;
  pi_concept_phase : string;
  pi_total_correct : nat;
  pi_total_wrong : nat
}.

Record LearnoResponse := {
  text : string;
  response_type : string;
  image_url : option string;
  is_lesson_complete : bool;
  progress_info : option ProgressInfo
}.

Record Summary := {
  concepts_completed : nat;
  sum_total_correct : nat;
  sum_total_wrong : nat;
  sum_is_complete : bool
}.

(** ** The request validators of [routes/dynamic_routes.py] *)

(** [re.sub(r'[<>]', '', s)] *)
Fixpoint remove_angle_brackets (s : string) : string :=
  match s with
  | EmptyString => EmptyString
  | String c s' =>
      if Ascii.eqb c "<" || Ascii.eqb c ">" then remove_angle_brackets s'
      else String c (remove_angle_brackets s')
  end.

(** [ChildResponseRequest.validate_transcript]: [None] stands for the
    [ValueError] that rejects the request.  The cap [cleaned[:500]]
    counts bytes here and code points in Python; the two agree on ASCII
    text. *)
Definition validate_transcript (v : string) : option string :=
  if PyStr.is_empty v || PyStr.is_empty (PyStr.strip v) then None
  else Some (String.substring 0 500 (remove_angle_brackets (PyStr.strip v))).

(** ** The grading rule, as the specification words it *)

Module AnswerSpec.
Import PyStr.





End AnswerSpec.

(** A teaching state that waits for [expected], with the given variants. *)
Definition expecting (expected : string) (acceptable : list string)
    : TeachingState :=
  set_expectation TeachingState_new expected acceptable "".

(** ** The counting chapter

    The questions, answers and hints of [get_counting_chapter()]; the
    narrative scripts, which only feed the prompts, are not part of the
    records above. *)

Definition concept_numbers_1_to_5 : ConceptContent := {|
  concept_id := "numbers_1_to_5";
  concept_name := "Meeting Numbers 1-5";
  visual_description := "Numbers 1, 2, 3, 4, 5 displayed large and colorful in a row, each with cute cartoon objects below showing the quantity (1 apple, 2 stars, 3 hearts, 4 balls, 5 flowers), child-friendly cartoon style, white background";
  guided_questions := [
      {| question_text := "I'll show you a number. Can you tell me what it is? Look: 2 - What number is this? 🤔";
         expected_answer := "2";
         acceptable_answers := ["2"; "two"; "to"; "too"];
         hint_text := "This number has a curvy top, like a swan swimming! 🦢";
         image_prompt := Some "Large colorful number 2 with two cute ducks below it, cartoon style" |};
      {| question_text := "Great! Now this one: 4 - What number do you see? 🔢";
         expected_answer := "4";
         acceptable_answers := ["4"; "four"; "for"];
         hint_text := "This number looks like a chair you can sit on! 🪑";
         image_prompt := Some "Large colorful number 4 with four teddy bears below it, cartoon style" |} ];
  independent_questions := [
      {| question_text := "Your turn! What number is this: 3 🌟";
         expected_answer := "3";
         acceptable_answers := ["3"; "three"; "tree"; "free"];
         hint_text := "Count the bumps on the side... one bump, two bumps!";
         image_prompt := Some "Large number 3 with three ice cream cones, cartoon style" |};
      {| question_text := "Excellent! And this one: 5 ✨";
         expected_answer := "5";
         acceptable_answers := ["5"; "five"; "fife"];
         hint_text := "This number has a flat top like a hat, and a round belly!";
         image_prompt := Some "Large number 5 with five colorful butterflies, cartoon style" |};
      {| question_text := "Last one! What number: 1 😊";
         expected_answer := "1";
         acceptable_answers := ["1"; "one"; "won"];
         hint_text := "The simplest number! Just one straight line!";
         image_prompt := Some "Large number 1 with one big red apple, cartoon style" |} ];
  mastery_check_question := "Before we move on - if I show you 4, what number is that? 🎯";
  mastery_answer := "4";
  mastery_acceptable := ["4"; "four"; "for"];
  encouragement_phrases := ["You're learning so fast! 🌟"; "Numbers are becoming your friends! 😊"; "Great job recognizing that number! 👏"]
|}.

Definition concept_numbers_6_to_10 : ConceptContent := {|
  concept_id := "numbers_6_to_10";
  concept_name := "Meeting Numbers 6-10";
  visual_description := "Numbers 6, 7, 8, 9, 10 displayed large and colorful, each with objects below (6 oranges, 7 stars, 8 balloons, 9 flowers, 10 dots arranged in two rows of 5), cartoon style";
  guided_questions := [
      {| question_text := "Let's practice! What number is this: 6 🤔";
         expected_answer := "6";
         acceptable_answers := ["6"; "six"; "siz"];
         hint_text := "It's curly like a snail! 🐌";
         image_prompt := Some "Large number 6 with six cute snails, cartoon style" |};
      {| question_text := "Wonderful! Now this one: 9 🔢";
         expected_answer := "9";
         acceptable_answers := ["9"; "nine"; "nein"];
         hint_text := "It's like 6 but upside down! Circle on top!";
         image_prompt := Some "Large number 9 with nine colorful balloons, cartoon style" |} ];
  independent_questions := [
      {| question_text := "Your turn! What number: 7 ✨";
         expected_answer := "7";
         acceptable_answers := ["7"; "seven"; "saven"];
         hint_text := "It has a flat line on top, like a shelf!";
         image_prompt := Some "Large number 7 with seven birds, cartoon style" |};
      {| question_text := "Great! What about: 8 🌟";
         expected_answer := "8";
         acceptable_answers := ["8"; "eight"; "ate"];
         hint_text := "Two circles on top of each other - like a snowman! ⛄";
         image_prompt := Some "Large number 8 with eight fish, cartoon style" |};
      {| question_text := "And this special one: 10 🎉";
         expected_answer := "10";
         acceptable_answers := ["10"; "ten"];
         hint_text := "Two digits together! A 1 and a 0!";
         image_prompt := Some "Large number 10 with ten fingers (two hands), cartoon style" |} ];
  mastery_check_question := "Quick check! What number is 8? 🎯";
  mastery_answer := "8";
  mastery_acceptable := ["8"; "eight"; "ate"];
  encouragement_phrases := ["You know all numbers 1-10 now! 🎉"; "That's amazing progress! 🌟"; "You're a number expert! 👏"]
|}.

Definition concept_counting_objects : ConceptContent := {|
  concept_id := "counting_objects";
  concept_name := "Counting Things Around Us";
  visual_description := "A row of 5 red apples with a cartoon hand pointing to each one, numbers 1-2-3-4-5 appearing above each apple as if counting, cartoon style, child-friendly";
  guided_questions := [
      {| question_text := "Let's count together! How many apples? 🍎🍎🍎 Count with me: one... two... 🤔";
         expected_answer := "3";
         acceptable_answers := ["3"; "three"; "tree"; "free"];
         hint_text := "Point to each apple: one, two, three! What's the last number?";
         image_prompt := Some "Three red apples in a row, cartoon style, numbered 1-2-3 faintly" |};
      {| question_text := "Great! Now count these stars! ⭐⭐⭐⭐⭐ How many? 🌟";
         expected_answer := "5";
         acceptable_answers := ["5"; "five"; "fife"];
         hint_text := "One, two, three, four... one more! What number comes after 4?";
         image_prompt := Some "Five yellow stars in a row, cartoon style, child-friendly" |} ];
  independent_questions := [
      {| question_text := "Your turn! How many bananas? 🍌🍌🍌🍌 😊";
         expected_answer := "4";
         acceptable_answers := ["4"; "four"; "for"];
         hint_text := "Count each banana: one, two, three...";
         image_prompt := Some "Four yellow bananas arranged in a row, cartoon style" |};
      {| question_text := "How many hearts? ❤️❤️❤️❤️❤️❤️ 🔢";
         expected_answer := "6";
         acceptable_answers := ["6"; "six"; "siz"];
         hint_text := "This is more than 5! Count carefully: one, two, three, four, five...";
         image_prompt := Some "Six red hearts arranged in a row, cartoon style" |};
      {| question_text := "Count the flowers! 🌸🌸🌸🌸🌸🌸🌸 How many? 🌟";
         expected_answer := "7";
         acceptable_answers := ["7"; "seven"; "saven"];
         hint_text := "After 6 comes 7! Count slowly and carefully!";
         image_prompt := Some "Seven colorful flowers in a row, cartoon style" |} ];
  mastery_check_question := "Quick count! How many dots: ● ● ● ● ● (5 dots)? 🎯";
  mastery_answer := "5";
  mastery_acceptable := ["5"; "five"; "fife"];
  encouragement_phrases := ["You're counting like a pro! 🌟"; "Great counting! 👏"; "You didn't skip any! Perfect! ✨"]
|}.

Definition concept_comparing_numbers : ConceptContent := {|
  concept_id := "comparing_numbers";
  concept_name := "More or Less?";
  visual_description := "Split image: Left side shows 3 red apples with number 3, Right side shows 5 yellow bananas with number 5, an arrow pointing to bananas with text 'MORE!', cartoon style, child-friendly";
  guided_questions := [
      {| question_text := "Look! 🍎🍎 apples and 🍎🍎🍎🍎 apples. Which group has MORE? Say 'first' or 'second'! 🤔";
         expected_answer := "second";
         acceptable_answers := ["second"; "2"; "two"; "the second"; "right"; "4"; "four"];
         hint_text := "Count both! First group has 2. Second group has 4. Which number is bigger?";
         image_prompt := Some "Left side: 2 apples labeled 'First'. Right side: 4 apples labeled 'Second', cartoon style" |} ];
  independent_questions := [
      {| question_text := "Which has MORE: ⭐⭐⭐⭐⭐⭐ stars or ❤️❤️❤️ hearts? Say 'stars' or 'hearts'! 🔢";
         expected_answer := "stars";
         acceptable_answers := ["stars"; "star"; "6"; "six"; "the stars"];
         hint_text := "Count stars: 6. Count hearts: 3. Which number is bigger?";
         image_prompt := Some "6 stars on left, 3 hearts on right, cartoon style" |};
      {| question_text := "Which has LESS: 🔵🔵🔵🔵🔵🔵🔵 balls or 🟢🟢🟢 balls? Say 'blue' or 'green'! 📉";
         expected_answer := "green";
         acceptable_answers := ["green"; "3"; "three"; "the green"];
         hint_text := "Blue: 7. Green: 3. Which number is SMALLER?";
         image_prompt := Some "7 blue balls on left, 3 green balls on right, cartoon style" |};
      {| question_text := "🍊🍊🍊🍊 oranges vs 🍋🍋🍋🍋 lemons. Which has more? Or are they EQUAL? 🤔";
         expected_answer := "equal";
         acceptable_answers := ["equal"; "same"; "both"; "4"; "neither"; "they're the same"];
         hint_text := "Count both... oranges: 4, lemons: 4. What if they're the SAME number?";
         image_prompt := Some "4 oranges on left, 4 lemons on right, equals sign between them, cartoon style" |} ];
  mastery_check_question := "Last check! 🎈🎈🎈🎈🎈 vs 🎈🎈 - Which has MORE? Say 'first' or 'second'! 🎯";
  mastery_answer := "first";
  mastery_acceptable := ["first"; "1"; "one"; "5"; "five"; "left"];
  encouragement_phrases := ["Great comparing! 🌟"; "You know more AND less now! 👏"; "Your brain is getting so smart! 🧠✨"]
|}.

Definition concept_addition_intro : ConceptContent := {|
  concept_id := "addition_intro";
  concept_name := "Adding Numbers Together";
  visual_description := "Visual addition: 2 red apples on left, plus sign, 1 red apple in middle, equals sign, 3 red apples on right. Below shows '2 + 1 = 3' in large colorful numbers, cartoon style";
  guided_questions := [
      {| question_text := "Let's add together! 🍎🍎 + 🍎 = ? Two apples plus one apple. Count them all! How many? 🤔";
         expected_answer := "3";
         acceptable_answers := ["3"; "three"; "tree"; "free"];
         hint_text := "Put them together: 🍎🍎🍎 - now count: one, two, three!";
         image_prompt := Some "2 apples, plus sign, 1 apple, equals sign, question mark, cartoon style" |};
      {| question_text := "Now try: 1 + 2 = ? One ball plus two balls! ⚽ + ⚽⚽ = ? 🔢";
         expected_answer := "3";
         acceptable_answers := ["3"; "three"; "tree"; "free"];
         hint_text := "Together: ⚽⚽⚽ - count all the balls!";
         image_prompt := Some "1 ball, plus sign, 2 balls, equals sign, question mark, cartoon style" |} ];
  independent_questions := [
      {| question_text := "Your turn! 2 + 2 = ? ✨";
         expected_answer := "4";
         acceptable_answers := ["4"; "four"; "for"];
         hint_text := "Two plus two! Hold up 2 fingers, then 2 more. Count all fingers!";
         image_prompt := Some "2 stars plus 2 stars equals question mark, cartoon style" |};
      {| question_text := "Try this: 3 + 1 = ? 🌟";
         expected_answer := "4";
         acceptable_answers := ["4"; "four"; "for"];
         hint_text := "Three apples, and one more! Count: 1, 2, 3... plus one more!";
         image_prompt := Some "3 apples plus 1 apple equals question mark, cartoon style" |};
      {| question_text := "One more: 3 + 2 = ? 🔢";
         expected_answer := "5";
         acceptable_answers := ["5"; "five"; "fife"];
         hint_text := "Three plus two! You can use your fingers: hold up 3, then add 2 more!";
         image_prompt := Some "3 bananas plus 2 bananas equals question mark, cartoon style" |};
      {| question_text := "Last one! 4 + 1 = ? 🎉";
         expected_answer := "5";
         acceptable_answers := ["5"; "five"; "fife"];
         hint_text := "Four things, add one more! What number comes after 4?";
         image_prompt := Some "4 hearts plus 1 heart equals question mark, cartoon style" |} ];
  mastery_check_question := "Final addition check! 2 + 3 = ? 🎯";
  mastery_answer := "5";
  mastery_acceptable := ["5"; "five"; "fife"];
  encouragement_phrases := ["You're ADDING like a mathematician! 🧮"; "Amazing addition! 🎉"; "Your brain is super strong! 💪🧠"]
|}.

Definition get_counting_chapter : ChapterContent := {|
  chapter_id := "counting_chapter";
  chapter_title := "Counting Fun Adventure";
  concepts := [concept_numbers_1_to_5; concept_numbers_6_to_10; concept_counting_objects; concept_comparing_numbers; concept_addition_intro];
  review_questions := [
      {| question_text := "Review time! What number is this: 7 🔢";
         expected_answer := "7";
         acceptable_answers := ["7"; "seven"; "saven"];
         hint_text := "It has a flat top and goes down!";
         image_prompt := None |};
      {| question_text := "Count these: ⭐⭐⭐⭐⭐⭐ How many stars? 🌟";
         expected_answer := "6";
         acceptable_answers := ["6"; "six"; "siz"];
         hint_text := "One more than 5!";
         image_prompt := None |};
      {| question_text := "Which is more: 4 or 9? 🤔";
         expected_answer := "9";
         acceptable_answers := ["9"; "nine"; "nein"];
         hint_text := "Which number is bigger?";
         image_prompt := None |};
      {| question_text := "Final question: 3 + 3 = ? ➕";
         expected_answer := "6";
         acceptable_answers := ["6"; "six"; "siz"];
         hint_text := "Three plus three! Count all together!";
         image_prompt := None |} ]
|}.


(** ** Running requests *)

(** The requests a client can send, each with what the outside world
    contributes while it is served. *)
Inductive Request :=
| StartLesson (g : Z) (subj les : string)
| ContinueTeaching (sid : string)
| SubmitAnswer (sid transcript : string)
| NotifySilence (sid : string)
| EndLesson (sid : string).

#[global] Instance Request_eq_dec : EqDecision Request.
Proof. solve_decision. Defined.

(** A world in which nothing ever fails: the model answers every prompt,
    no image is produced, and the clock stands still. *)
Definition calm (uuid : string) : Env :=
  {| now := 0; uuid4 := uuid;
     generate_response := fun _ => Some "ok";
     generate_image_sync := fun _ => (None, Some "no image") |}.

(** A world in which the language model is unreachable. *)
Definition offline (uuid : string) : Env :=
  {| now := 0; uuid4 := uuid;
     generate_response := fun _ => None;
     generate_image_sync := fun _ => (None, Some "no image") |}.

(** A world in which nothing fails, an hour later. *)
Definition later (uuid : string) : Env :=
  {| now := 3600; uuid4 := uuid;
     generate_response := fun _ => Some "ok";
     generate_image_sync := fun _ => (None, Some "no image") |}.

Definition empty_world : World := {| _sessions := ∅; _teaching_states := ∅ |}.

(** *** Sample circumstances and traces *)

(** Renderings that carry no image marker: nothing to extract, nothing
    to remove. *)
Definition no_marker (ai_text : string) : option string := None.
Definition keep_text (ai_text : string) : string := ai_text.

(** A client that continues and answers in the session "s1" while
    nothing fails. *)
Definition go : Env * Request := (calm "s1", ContinueTeaching "s1").
Definition say (transcript : string) : Env * Request :=
  (calm "s1", SubmitAnswer "s1" transcript).

(** One concept from its introduction to its mastery check, answering
    every question correctly. *)
Definition concept_walk (guided independent : list string) (mastery : string)
    : list (Env * Request) :=
  [go; go; go; go] ++ map say guided ++ map say independent ++ [say mastery].

(** The whole counting lesson, every answer correct, up to and including
    the celebration. *)
Definition whole_lesson : list (Env * Request) :=
  [(calm "s1", StartLesson 2 "Math" "counting")]
  ++ concept_walk ["2"; "4"] ["3"; "5"; "1"] "4"
  ++ concept_walk ["6"; "9"] ["7"; "8"; "10"] "8"
  ++ concept_walk ["3"; "5"] ["4"; "6"; "7"] "5"
  ++ concept_walk ["second"] ["stars"; "green"; "equal"] "first"
  ++ concept_walk ["3"; "3"] ["4"; "4"; "5"; "5"] "5"
  ++ [go; say "7"; say "6"; say "9"; say "6"].

(** A teaching state in the guided practice of the first concept, with
    its first question asked. *)
Definition guided_state : TeachingState :=
  {| lesson_phase := LessonPhase.TEACHING;
     current_concept_index := 0;
     concept_phase := ConceptPhase.GUIDED_PRACTICE;
     guided_question_index := 0;
     independent_question_index := 0;
     review_question_index := 0;
     current_attempts := 0;
     total_correct := 0;
     total_wrong := 0;
     consecutive_wrong := 0;
     needs_extra_help := false;
     current_expected_answer := Some "2";
     current_acceptable_answers := ["2"; "two"; "to"; "too"];
     current_hint := "This number has a curvy top, like a swan swimming! 🦢" |}.

Definition guided_world : World :=
  {| _sessions := {[ "s1" := Session_new "s1" 0 2 "Math" "counting" ]};
     _teaching_states := {[ "s1" := guided_state ]} |}.

(** The same session with both guided questions of the first concept
    answered, and with every concept and every review question done. *)
Definition practised_world : World :=
  {| _sessions := {[ "s1" := Session_new "s1" 0 2 "Math" "counting" ]};
     _teaching_states := {[ "s1" := set_guided_question_index guided_state 2 ]} |}.

Definition reviewed_world : World :=
  {| _sessions := {[ "s1" := Session_new "s1" 0 2 "Math" "counting" ]};
     _teaching_states :=
       {[ "s1" :=
            set_review_question_index
              (set_lesson_phase (set_current_concept_index guided_state 5)
                 LessonPhase.CHAPTER_REVIEW) 4 ]} |}.

(** ** The image cache ([image_service.py]) *)

Module ImageService.

(** [ImageGenerationService.MAX_CACHE_SIZE] *)
Definition MAX_CACHE_SIZE : nat := 100.

(** [self._cache]: a dictionary from cache keys to what
    [response.data[0].url] held, in the order of insertion. *)
Definition Cache : Type := list (string * option string).

(** What [openai.images.generate] does when it is called: it raises
    (with the text of the exception), or it returns a response with this
    url. *)
Inductive Outcome :=
| raised (message : string)
| returned (url : option string).

Section Cache.

(** [hashlib.md5(...).hexdigest()] *)
Variable md5 : string -> string.

Definition _get_cache_key (description : string) : string :=
  md5 (PyStr.lower description).

(** [cache.get(key)]: [None] when [key not in cache]. *)
Fixpoint cache_get (key : string) (cache : Cache) : option (option string) :=
  match cache with
  | [] => None
  | (k, url) :: rest => if String.eqb k key then Some url else cache_get key rest
  end.

(** [generate_image_sync]: the cache it leaves and the pair
    [(image_url, error)] it returns.  [outcome] is what the call of the
    image model does if the method gets that far. *)
Definition generate_image_sync (description : string) (outcome : Outcome)
    (cache : Cache) : Cache * (option string * option string) :=
  let cache_key := _get_cache_key description in
  match cache_get cache_key cache with
  | Some url => (cache, (url, None))
  | None =>
      match outcome with
      | raised message =>
          (cache, (None, Some ("Image generation failed: " +:+ message)))
      | returned image_url =>
          if MAX_CACHE_SIZE <=? length cache then
            match cache with
            | [] =>
                (* [next(iter(self._cache))] raises [StopIteration],
                   which the handler catches *)
                (cache, (None, Some "Image generation failed: "))
            | _ :: rest => (rest ++ [(cache_key, image_url)], (image_url, None))
            end
          else (cache ++ [(cache_key, image_url)], (image_url, None))
      end
  end.

(** The cache after a sequence of calls, each with what the image model
    would do. *)
Fixpoint generate_images (calls : list (string * Outcome)) (cache : Cache)
    : Cache :=
  match calls with
  | [] => cache
  | (description, outcome) :: calls' =>
      generate_images calls' (fst (generate_image_sync description outcome cache))
  end.

(** A cache as a dictionary can be: no key twice; and within its
    bound. *)
Definition well_kept (cache : Cache) : Prop :=
  NoDup (map fst cache) /\ length cache <= MAX_CACHE_SIZE.

End Cache.
End ImageService.

(** ** The lesson service ([dynamic_lesson_service.py]) *)

Definition newline : string := String (ascii_of_nat 10) EmptyString.

Section Service.

(** [settings.SESSION_TIMEOUT_SECONDS], read from the environment. *)
Variable SESSION_TIMEOUT_SECONDS : Z.

(** The value [get_counting_chapter()] builds. *)
Variable counting_chapter : ChapterContent.

(** The two regular-expression helpers of [image_service.py]
    ([\[GENERATE_IMAGE: ...\]] markers); nothing below depends on what
    they compute. *)
Variable extract_image_request : string -> option string.
Variable remove_image_marker : string -> string.

Definition AVAILABLE_CHAPTERS : gmap string ChapterContent :=
  {[ "counting" := counting_chapter ]}.

Definition get_chapter (chapter_id : string) : option ChapterContent :=
  let chapter_id_lower := PyStr.strip (PyStr.lower chapter_id) in
  if PyStr.mem chapter_id_lower counting_aliases then Some counting_chapter
  else
    match AVAILABLE_CHAPTERS !! chapter_id_lower with
    | Some factory => Some factory
    | None => None
    end.

(** [get_chapter(lesson) or get_chapter("counting")]; were both [None],
    the first attribute access on the result would raise. *)
Definition get_chapter_or_counting {S} (les : string) : SE S ChapterContent :=
  match get_chapter les with
  | Some chapter => ret chapter
  | None =>
      match get_chapter "counting" with
      | Some chapter => ret chapter
      | None => raise AttributeError
      end
  end.

(** *** Session store operations *)

Definition create_session (env : Env) (g : Z) (subj les : string)
    : SE World Session :=
  let session := Session_new (uuid4 env) (now env) g subj les in
  modify (set_sessions <[session_id session := session]>) ;;;
  ret session.

Definition get_session (env : Env) (sid : string) : SE World Session :=
  w <- get ;;
  match _sessions w !! sid with
  | None => raise SessionNotFoundError
  | Some session =>
      if is_expired SESSION_TIMEOUT_SECONDS (now env) session then
        modify (set_sessions (delete sid)) ;;;
        raise SessionExpiredError
      else
        let session := update_activity (now env) session in
        modify (set_sessions <[sid := session]>) ;;;
        ret session
  end.

Definition update_session (env : Env) (session : Session) : SE World Session :=
  let session := update_activity (now env) session in
  modify (set_sessions <[session_id session := session]>) ;;;
  ret session.

Definition delete_session (sid : string) : SE World unit :=
  w <- get ;;
  match _sessions w !! sid with
  | Some _ => modify (set_sessions (delete sid))
  | None => ret tt
  end.

(** *** Teaching states *)

Definition _get_state (sid : string) : SE World TeachingState :=
  w <- get ;;
  match _teaching_states w !! sid with
  | Some state => ret state
  | None =>
      modify (set_teaching_states <[sid := TeachingState_new]>) ;;;
      ret TeachingState_new
  end.

(** The [state] the methods pass around is the object stored under the
    session id, so every assignment to one of its fields is visible in
    the dictionary at once.  [on_state sid m] runs [m] on that object;
    it is only used after [_get_state sid] has made sure the entry
    exists. *)
Definition on_state {A} (sid : string) (m : SE TeachingState A) : SE World A :=
  fun w =>
    let state := default TeachingState_new (_teaching_states w !! sid) in
    let '(state', r) := m state in
    (set_teaching_states <[sid := state']> w, r).

Definition _get_progress_info (state : TeachingState) (chapter : ChapterContent)
    : ProgressInfo :=
  {| pi_lesson_phase := LessonPhase.value (lesson_phase state);
     pi_current_concept := current_concept_index state + 1;
     pi_total_concepts := total_concepts chapter;
     pi_concept_phase := ConceptPhase.value (concept_phase state);
     pi_total_correct := total_correct state;
     pi_total_wrong := total_wrong state |}.

(** [self.ai_client.generate_response(messages)] *)
Definition ai {S} (env : Env) (messages : Prompt) : SE S string :=
  match generate_response env messages with
  | Some content => ret content
  | None => raise AIServiceError
  end.

(** [_process_response]: image generation never raises. *)
Definition _process_response (env : Env) (ai_text : string)
    (force_image_prompt : option string) : string * option string :=
  let image_desc := extract_image_request ai_text in
  if PyStr.truthy image_desc then
    let img_url := fst (generate_image_sync env (default "" image_desc)) in
    (remove_image_marker ai_text,
     if PyStr.truthy img_url then img_url else None)
  else if PyStr.truthy force_image_prompt then
    let img_url := fst (generate_image_sync env (default "" force_image_prompt)) in
    (ai_text, if PyStr.truthy img_url then img_url else None)
  else (ai_text, None).

(** [LearnoResponse(text=..., response_type=..., image_url=...,
    is_lesson_complete=..., progress_info=self._get_progress_info(state,
    chapter))] *)
Definition respond (state : TeachingState) (chapter : ChapterContent)
    (txt rtype : string) (img : option string) (complete : bool)
    : LearnoResponse :=
  {| text := txt; response_type := rtype; image_url := img;
     is_lesson_complete := complete;
     progress_info := Some (_get_progress_info state chapter) |}.

Definition _do_introduction (env : Env) (concept : ConceptContent)
    (chapter : ChapterContent) : SE TeachingState LearnoResponse :=
  ai_text <- ai env (build_concept_introduction_prompt (concept_name concept)) ;;
  let '(clean_text, image_url) := _process_response env ai_text None in
  modify (fun state => set_concept_phase state ConceptPhase.EXPLANATION) ;;;
  state <- get ;;
  ret (respond state chapter clean_text "concept_introduction" image_url false).

Definition _do_explanation (env : Env) (concept : ConceptContent)
    (chapter : ChapterContent) : SE TeachingState LearnoResponse :=
  ai_text <- ai env (build_explanation_prompt (concept_name concept)) ;;
  let '(clean_text, image_url) := _process_response env ai_text None in
  modify (fun state => set_concept_phase state ConceptPhase.VISUAL_EXAMPLE) ;;;
  state <- get ;;
  ret (respond state chapter clean_text "explanation" image_url false).

Definition _do_visual_example (env : Env) (concept : ConceptContent)
    (chapter : ChapterContent) : SE TeachingState LearnoResponse :=
  ai_text <- ai env (build_visual_explanation_prompt (concept_name concept)
                       (visual_description concept)) ;;
  let clean_text := remove_image_marker ai_text in
  let image_url := fst (generate_image_sync env (visual_description concept)) in
  modify (fun state =>
            set_guided_question_index
              (set_concept_phase state ConceptPhase.GUIDED_PRACTICE) 0) ;;;
  state <- get ;;
  ret (respond state chapter clean_text "visual_example" image_url false).

Definition _do_mastery_check (env : Env) (concept : ConceptContent)
    (chapter : ChapterContent) : SE TeachingState LearnoResponse :=
  ai_text <- ai env (build_mastery_check_prompt (concept_name concept)
                       (mastery_check_question concept)) ;;
  let '(clean_text, image_url) := _process_response env ai_text None in
  modify (fun state =>
            set_expectation state (mastery_answer concept)
              (mastery_acceptable concept)
              "Think about what we just learned!") ;;;
  state <- get ;;
  ret (respond state chapter clean_text "mastery_check" image_url false).

Definition _do_independent_practice (env : Env) (concept : ConceptContent)
    (chapter : ChapterContent) : SE TeachingState LearnoResponse :=
  state <- get ;;
  if length (independent_questions concept) <=? independent_question_index state
  then
    modify (fun state => set_concept_phase state ConceptPhase.CONCEPT_CHECK) ;;;
    _do_mastery_check env concept chapter
  else
    match independent_questions concept !! independent_question_index state with
    | None => raise IndexError
    | Some question =>
        ai_text <- ai env (build_independent_practice_prompt question
                             (concept_name concept)
                             (independent_question_index state + 1)
                             (length (independent_questions concept))) ;;
        let '(clean_text, image_url) :=
          _process_response env ai_text (image_prompt question) in
        modify (fun state =>
                  set_expectation state (expected_answer question)
                    (acceptable_answers question) (hint_text question)) ;;;
        state <- get ;;
        ret (respond state chapter clean_text "independent_practice" image_url false)
    end.

Definition _do_guided_practice (env : Env) (concept : ConceptContent)
    (chapter : ChapterContent) : SE TeachingState LearnoResponse :=
  state <- get ;;
  if length (guided_questions concept) <=? guided_question_index state
  then
    modify (fun state =>
              set_independent_question_index
                (set_concept_phase state ConceptPhase.INDEPENDENT_PRACTICE) 0) ;;;
    _do_independent_practice env concept chapter
  else
    match guided_questions concept !! guided_question_index state with
    | None => raise IndexError
    | Some question =>
        ai_text <- ai env (build_guided_practice_prompt question
                             (concept_name concept)
                             (guided_question_index state =? 0)) ;;
        let '(clean_text, image_url) :=
          _process_response env ai_text (image_prompt question) in
        modify (fun state =>
                  set_expectation state (expected_answer question)
                    (acceptable_answers question) (hint_text question)) ;;;
        state <- get ;;
        ret (respond state chapter clean_text "guided_practice" image_url false)
    end.

Definition _do_celebration (env : Env) (chapter : ChapterContent)
    : SE TeachingState LearnoResponse :=
  state <- get ;;
  ai_text <- ai env (build_celebration_prompt (total_correct state)
                       (total_correct state + total_wrong state)) ;;
  let '(clean_text, image_url) := _process_response env ai_text None in
  let image_url :=
    if PyStr.truthy image_url then image_url
    else
      let img_url :=
        fst (generate_image_sync env
               "Celebration scene with confetti, stars, trophy, cartoon style") in
      if PyStr.truthy img_url then img_url else image_url in
  modify (fun state => set_lesson_phase state LessonPhase.COMPLETED) ;;;
  state <- get ;;
  ret (respond state chapter clean_text "celebration" image_url true).

Definition _do_chapter_review (env : Env) (chapter : ChapterContent)
    : SE TeachingState LearnoResponse :=
  state <- get ;;
  if length (review_questions chapter) <=? review_question_index state
  then
    modify (fun state => set_lesson_phase state LessonPhase.CELEBRATION) ;;;
    _do_celebration env chapter
  else
    match review_questions chapter !! review_question_index state with
    | None => raise IndexError
    | Some question =>
        ai_text <- ai env (build_chapter_review_prompt question
                             (review_question_index state + 1)
                             (length (review_questions chapter))) ;;
        let '(clean_text, image_url) := _process_response env ai_text None in
        modify (fun state =>
                  set_expectation state (expected_answer question)
                    (acceptable_answers question) (hint_text question)) ;;;
        state <- get ;;
        ret (respond state chapter clean_text "chapter_review" image_url false)
    end.

(** The body of [continue_teaching]; [self] stands for the method itself
    in the call [self.continue_teaching(session_id)] that follows the
    closing of a concept. *)
Definition continue_teaching_body (self : Env -> string -> SE World LearnoResponse)
    (env : Env) (sid : string) : SE World LearnoResponse :=
  session <- get_session env sid ;;
  state <- _get_state sid ;;
  chapter <- get_chapter_or_counting (lesson session) ;;
  if total_concepts chapter <=? current_concept_index state then
    on_state sid
      ((if decide (lesson_phase state = LessonPhase.CHAPTER_REVIEW)
        then ret tt
        else modify (fun state =>
                       set_review_question_index
                         (set_lesson_phase state LessonPhase.CHAPTER_REVIEW) 0)) ;;;
       _do_chapter_review env chapter)
  else
    match concepts chapter !! current_concept_index state with
    | None => raise IndexError
    | Some concept =>
        match concept_phase state with
        | ConceptPhase.INTRODUCTION =>
            on_state sid (_do_introduction env concept chapter)
        | ConceptPhase.EXPLANATION =>
            on_state sid (_do_explanation env concept chapter)
        | ConceptPhase.VISUAL_EXAMPLE =>
            on_state sid (_do_visual_example env concept chapter)
        | ConceptPhase.GUIDED_PRACTICE =>
            on_state sid (_do_guided_practice env concept chapter)
        | ConceptPhase.INDEPENDENT_PRACTICE =>
            on_state sid (_do_independent_practice env concept chapter)
        | ConceptPhase.CONCEPT_CHECK =>
            on_state sid (_do_mastery_check env concept chapter)
        | ConceptPhase.COMPLETED =>
            on_state sid
              (modify (fun state =>
                         reset_attempts
                           (set_concept_phase
                              (set_current_concept_index state
                                 (current_concept_index state + 1))
                              ConceptPhase.INTRODUCTION))) ;;;
            self env sid
        end
    end.

(** [continue_teaching] with a call stack that has room for [depth]
    nested calls of it; the call that finds no room raises
    [RecursionError]. *)
Fixpoint continue_teaching_rec (depth : nat) (env : Env) (sid : string)
    : SE World LearnoResponse :=
  match depth with
  | 0 => raise RecursionError
  | S depth' => continue_teaching_body (continue_teaching_rec depth') env sid
  end.

(** One outer call and one nested call are all the recursion ever
    takes (see [continue_teaching_two]). *)
Definition continue_teaching (env : Env) (sid : string)
    : SE World LearnoResponse :=
  continue_teaching_rec 2 env sid.

Definition _advance_after_correct (state : TeachingState) : TeachingState :=
  let state := reset_attempts state in
  match concept_phase state with
  | ConceptPhase.GUIDED_PRACTICE =>
      set_guided_question_index state (guided_question_index state + 1)
  | ConceptPhase.INDEPENDENT_PRACTICE =>
      set_independent_question_index state (independent_question_index state + 1)
  | ConceptPhase.CONCEPT_CHECK =>
      set_concept_phase state ConceptPhase.COMPLETED
  | _ =>
      if decide (lesson_phase state = LessonPhase.CHAPTER_REVIEW)
      then set_review_question_index state (review_question_index state + 1)
      else state
  end.

Definition _handle_correct_answer (env : Env) (sid : string)
    (chapter : ChapterContent) : SE World LearnoResponse :=
  praise_text <-
    on_state sid
      (state <- get ;;
       let concept :=
         if current_concept_index state <? total_concepts chapter
         then concepts chapter !! current_concept_index state
         else None in
       let phrases :=
         match concept with
         | Some concept => encouragement_phrases concept
         | None => ["Great job! 🎉"]
         end in
       ai_text <- ai env (build_encouragement_prompt true phrases) ;;
       ret (fst (_process_response env ai_text None))) ;;
  on_state sid (modify _advance_after_correct) ;;;
  next_response <- continue_teaching env sid ;;
  ret {| text := praise_text +:+ newline +:+ newline +:+ text next_response;
         response_type := response_type next_response;
         image_url := image_url next_response;
         is_lesson_complete := is_lesson_complete next_response;
         progress_info := progress_info next_response |}.

Definition _handle_wrong_answer (env : Env) (chapter : ChapterContent)
    (transcript : string) : SE TeachingState LearnoResponse :=
  state <- get ;;
  ai_text <- ai env (build_hint_prompt transcript
                       (default "" (current_expected_answer state))
                       (current_hint state) (current_attempts state)
                       (needs_extra_help state) false) ;;
  let '(clean_text, image_url) := _process_response env ai_text None in
  ret (respond state chapter clean_text "hint" image_url false).

Definition process_response (env : Env) (sid transcript : string)
    : SE World LearnoResponse :=
  session <- get_session env sid ;;
  state <- _get_state sid ;;
  chapter <- get_chapter_or_counting (lesson session) ;;
  let is_correct := _evaluate_answer transcript state in
  if is_correct then
    on_state sid (modify record_correct) ;;;
    _handle_correct_answer env sid chapter
  else
    on_state sid (modify record_wrong) ;;;
    on_state sid (_handle_wrong_answer env chapter transcript).

(** [handle_silence]; its [duration] argument is not used by the code
    and is left out. *)
Definition handle_silence (env : Env) (sid : string)
    : SE World LearnoResponse :=
  session <- get_session env sid ;;
  state <- _get_state sid ;;
  chapter <- get_chapter_or_counting (lesson session) ;;
  on_state sid
    (state <- get ;;
     let hint_text :=
       if PyStr.is_empty (current_hint state)
       then "Take your time! You can do it! 😊"
       else current_hint state in
     ai_text <- ai env (build_hint_prompt ""
                          (default "" (current_expected_answer state))
                          hint_text 0 false true) ;;
     let '(clean_text, image_url) := _process_response env ai_text None in
     ret (respond state chapter clean_text "silence_hint" image_url false)).

Definition start_lesson (env : Env) (g : Z) (subj les : string)
    : SE World (Session * LearnoResponse) :=
  if negb (is_chapter_available g subj les)
  then raise LessonNotAvailableError
  else
    session <- create_session env g subj les ;;
    chapter <- get_chapter_or_counting les ;;
    let sid := session_id session in
    _get_state sid ;;;
    on_state sid (modify (fun state => set_lesson_phase state LessonPhase.WELCOME)) ;;;
    ai_text <- ai env (build_welcome_prompt (chapter_title chapter)) ;;
    let '(clean_text, image_url) := _process_response env ai_text None in
    on_state sid
      (modify (fun state =>
                 set_concept_phase
                   (set_current_concept_index
                      (set_lesson_phase state LessonPhase.TEACHING) 0)
                   ConceptPhase.INTRODUCTION)) ;;;
    session <- update_session env
                 (set_total_steps (total_concepts chapter * 6) session) ;;
    state <- _get_state sid ;;
    ret (session, respond state chapter clean_text "welcome" image_url false).

Definition end_lesson (sid : string) : SE World (Summary * string) :=
  state <- _get_state sid ;;
  let summary :=
    {| concepts_completed := current_concept_index state;
       sum_total_correct := total_correct state;
       sum_total_wrong := total_wrong state;
       sum_is_complete :=
         bool_decide (lesson_phase state = LessonPhase.COMPLETED) |} in
  let message :=
    if negb (sum_is_complete summary)
    then "Great effort today! 🌟"
    else "You completed the whole lesson! 🎉" in
  w <- get ;;
  match _teaching_states w !! sid with
  | Some _ => modify (set_teaching_states (delete sid))
  | None => ret tt
  end ;;;
  delete_session sid ;;;
  ret (summary, message).


(** *** Serving requests *)

(** The world after serving one request (the response is dropped). *)
Definition serve (env : Env) (r : Request) (w : World) : World :=
  match r with
  | StartLesson g subj les => fst (start_lesson env g subj les w)
  | ContinueTeaching sid => fst (continue_teaching env sid w)
  | SubmitAnswer sid transcript => fst (process_response env sid transcript w)
  | NotifySilence sid => fst (handle_silence env sid w)
  | EndLesson sid => fst (end_lesson sid w)
  end.

Fixpoint serve_all (trace : list (Env * Request)) (w : World) : World :=
  match trace with
  | [] => w
  | (env, r) :: trace' => serve_all trace' (serve env r w)
  end.

(** *** Vocabulary for the properties of the service *)

(** What an observer [view] sees of the teaching state stored for a
    session; a session without an entry shows what [_get_state] would
    create for it. *)
Definition view_at {X} (view : TeachingState -> X) (w : World) (sid : string) : X :=
  view (default TeachingState_new (_teaching_states w !! sid)).

(** A computation that no observer [view] can notice, whatever it
    returns or raises. *)
Definition stable {X A} (view : TeachingState -> X) (m : SE World A) : Prop :=
  forall w sid, view_at view (fst (m w)) sid = view_at view w sid.

Definition stableT {X A} (view : TeachingState -> X) (m : SE TeachingState A) : Prop :=
  forall state, view (fst (m state)) = view state.

(** The two totals of a teaching state. *)
Definition totals (state : TeachingState) : nat * nat :=
  (total_correct state, total_wrong state).

(** The number of answers a teaching state has counted. *)
Definition graded (state : TeachingState) : nat :=
  total_correct state + total_wrong state.

Definition answered (w : World) (sid : string) : nat := view_at graded w sid.

(** A request is a [SubmitAnswer] for [sid] that gets past the session
    lookup, so that its transcript is evaluated. *)
Definition reaches_evaluation (env : Env) (r : Request) (sid : string)
    (w : World) : bool :=
  match r with
  | SubmitAnswer sid' _ =>
      bool_decide (sid' = sid) &&
      match snd (get_session env sid w) with
      | Ok _ => true
      | Raise _ => false
      end
  | _ => false
  end.

(** How many requests of a trace reach an evaluation for [sid]. *)
Fixpoint evaluated (trace : list (Env * Request)) (sid : string) (w : World)
    : nat :=
  match trace with
  | [] => 0
  | (env, r) :: trace' =>
      (if reaches_evaluation env r sid w then 1 else 0)
      + evaluated trace' sid (serve env r w)
  end.

(** The requests that keep the session [sid] alive. *)
Definition keeps_session (sid : string) (r : Request) : Prop :=
  r <> EndLesson sid.

(** A computation that never raises [e]. *)
Definition never {S A} (e : Exn) (m : SE S A) : Prop :=
  forall s, snd (m s) <> Raise e.

(** The largest number of practice questions a concept of the chapter has. *)
Definition questions_per_concept (chapter : ChapterContent) : nat :=
  foldr Nat.max 0
    (map (fun concept =>
            length (guided_questions concept)
            + length (independent_questions concept))
       (concepts chapter)).

(** The bound the specification gives for the self-calls of
    [continue_teaching]. *)
Definition self_call_bound (chapter : ChapterContent) : nat :=
  total_concepts chapter + questions_per_concept chapter.

(** The state [continue_teaching] finds for [sid] does not send it into
    the branch that calls [continue_teaching] again. *)
Definition settles (sid : string) (w : World) : Prop :=
  let state := default TeachingState_new (_teaching_states w !! sid) in
  total_concepts counting_chapter <= current_concept_index state \/
  concept_phase state <> ConceptPhase.COMPLETED.

(** The summary [end_lesson] builds from a teaching state. *)
Definition summary_of (state : TeachingState) : Summary :=
  {| concepts_completed := current_concept_index state;
     sum_total_correct := total_correct state;
     sum_total_wrong := total_wrong state;
     sum_is_complete := bool_decide (lesson_phase state = LessonPhase.COMPLETED) |}.

Definition farewell (summary : Summary) : string :=
  if negb (sum_is_complete summary)
  then "Great effort today! 🌟"
  else "You completed the whole lesson! 🎉".

(** The world without any trace of the session [sid]. *)
Definition forget (sid : string) (w : World) : World :=
  {| _sessions := delete sid (_sessions w);
     _teaching_states := delete sid (_teaching_states w) |}.

(** What the progress snapshot of a response shows. *)
Definition shown_lesson_phase (r : LearnoResponse) : option string :=
  pi_lesson_phase <$> progress_info r.

Definition shown_concept_phase (r : LearnoResponse) : option string :=
  pi_concept_phase <$> progress_info r.

Definition shown_concept (r : LearnoResponse) : option nat :=
  pi_current_concept <$> progress_info r.

(** The step [continue_teaching] takes for a concept in a given phase,
    when the phase is not the closing one. *)
Definition concept_step (env : Env) (concept : ConceptContent)
    (phase : ConceptPhase.t) : SE TeachingState LearnoResponse :=
  match phase with
  | ConceptPhase.INTRODUCTION => _do_introduction env concept counting_chapter
  | ConceptPhase.EXPLANATION => _do_explanation env concept counting_chapter
  | ConceptPhase.VISUAL_EXAMPLE => _do_visual_example env concept counting_chapter
  | ConceptPhase.GUIDED_PRACTICE => _do_guided_practice env concept counting_chapter
  | ConceptPhase.INDEPENDENT_PRACTICE =>
      _do_independent_practice env concept counting_chapter
  | ConceptPhase.CONCEPT_CHECK => _do_mastery_check env concept counting_chapter
  | ConceptPhase.COMPLETED => raise IndexError
  end.

(** The session [sid] is known and has not timed out when [env] reads
    the clock. *)
Definition live (env : Env) (sid : string) (w : World) : Prop :=
  exists session,
    _sessions w !! sid = Some session /\
    is_expired SESSION_TIMEOUT_SECONDS (now env) session = false.

(** The world once [get_session] has refreshed the session [sid]. *)
Definition touched (env : Env) (sid : string) (w : World) : World :=
  set_sessions (alter (update_activity (now env)) sid) w.



(** The teaching state waits for the answer to [question]. *)
Definition expects (state : TeachingState) (question : PracticeQuestion) : Prop :=
  current_expected_answer state = Some (expected_answer question) /\
  current_acceptable_answers state = acceptable_answers question /\
  current_hint state = hint_text question.


(** A computation that writes no teaching state but the one of [sid]. *)
Definition confined {A} (sid : string) (m : SE World A) : Prop :=
  forall w k,
    k <> sid -> _teaching_states (fst (m w)) !! k = _teaching_states w !! k.

(** The teaching state is at a step that [continue_teaching] renders at
    once: inside a concept, in a phase that is not the closing one and
    whose question cursor, if it has one, points at a question; or in the
    chapter review with a review question left. *)
Definition renders_directly (state : TeachingState) : Prop :=
  if decide (total_concepts counting_chapter <= current_concept_index state)
  then
    lesson_phase state = LessonPhase.CHAPTER_REVIEW /\
    review_question_index state < length (review_questions counting_chapter)
  else
    match concepts counting_chapter !! current_concept_index state with
    | None => False
    | Some concept =>
        match concept_phase state with
        | ConceptPhase.GUIDED_PRACTICE =>
            guided_question_index state < length (guided_questions concept)
        | ConceptPhase.INDEPENDENT_PRACTICE =>
            independent_question_index state
            < length (independent_questions concept)
        | ConceptPhase.COMPLETED => False
        | _ => True
        end
    end.

(** *** Vocabulary for the further properties *)

(** The teaching state a request would find for [sid]: the stored one,
    or the one [_get_state] would create. *)
Definition state_at (w : World) (sid : string) : TeachingState :=
  default TeachingState_new (_teaching_states w !! sid).

(** The session a request is about; [StartLesson] is about the session
    it opens. *)
Definition target (env : Env) (r : Request) : string :=
  match r with
  | StartLesson _ _ _ => uuid4 env
  | ContinueTeaching sid => sid
  | SubmitAnswer sid _ => sid
  | NotifySilence sid => sid
  | EndLesson sid => sid
  end.

Definition result_value {A} (r : Result A) : option A :=
  match r with
  | Ok a => Some a
  | Raise _ => None
  end.

(** The rendered step a request returns, if it returns one. *)
Definition reply (env : Env) (r : Request) (w : World) : option LearnoResponse :=
  match r with
  | StartLesson g subj les =>
      snd <$> result_value (snd (start_lesson env g subj les w))
  | ContinueTeaching sid => result_value (snd (continue_teaching env sid w))
  | SubmitAnswer sid transcript =>
      result_value (snd (process_response env sid transcript w))
  | NotifySilence sid => result_value (snd (handle_silence env sid w))
  | EndLesson _ => None
  end.

(** The exception a request ends with, if it raises. *)
Definition failure (env : Env) (r : Request) (w : World) : option Exn :=
  let error {A} (x : Result A) :=
    match x with Ok _ => None | Raise e => Some e end in
  match r with
  | StartLesson g subj les => error (snd (start_lesson env g subj les w))
  | ContinueTeaching sid => error (snd (continue_teaching env sid w))
  | SubmitAnswer sid transcript =>
      error (snd (process_response env sid transcript w))
  | NotifySilence sid => error (snd (handle_silence env sid w))
  | EndLesson sid => error (snd (end_lesson sid w))
  end.

(** The three requests that look their session up first. *)
Definition looks_up (r : Request) : bool :=
  match r with
  | ContinueTeaching _ | SubmitAnswer _ _ | NotifySilence _ => true
  | StartLesson _ _ _ | EndLesson _ => false
  end.

(** A computation that writes no session entry but the one of [sid]. *)
Definition sconfined {A} (sid : string) (m : SE World A) : Prop :=
  forall w k, k <> sid -> _sessions (fst (m w)) !! k = _sessions w !! k.

(** The assignments of [continue_teaching] when it closes a concept. *)
Definition next_concept (state : TeachingState) : TeachingState :=
  reset_attempts
    (set_concept_phase
       (set_current_concept_index state (current_concept_index state + 1))
       ConceptPhase.INTRODUCTION).

(** The assignments of [continue_teaching] when it enters the review. *)
Definition enter_review (state : TeachingState) : TeachingState :=
  set_review_question_index
    (set_lesson_phase state LessonPhase.CHAPTER_REVIEW) 0.

(** The session [sid] is stored with its activity stamp at the reading
    of the clock in [env]. *)
Definition refreshed (env : Env) (sid : string) (w : World) : Prop :=
  exists session,
    _sessions w !! sid = Some session /\ last_activity session = now env.

(** A computation that leaves the session store alone once the session
    [sid] has been refreshed. *)
Definition settled {A} (env : Env) (sid : string) (m : SE World A) : Prop :=
  forall w, refreshed env sid w -> _sessions (fst (m w)) = _sessions w.




(** A computation whose result, when it returns one, is related by [Q]
    to the teaching state it leaves for [sid]. *)
Definition ensures {A} (sid : string) (Q : TeachingState -> A -> Prop)
    (m : SE World A) : Prop :=
  forall w w' a, m w = (w', Ok a) -> Q (state_at w' sid) a.

Definition ensuresT {A} (Q : TeachingState -> A -> Prop)
    (m : SE TeachingState A) : Prop :=
  forall state state' a, m state = (state', Ok a) -> Q state' a.

(** The response carries the progress snapshot of [state], and flags
    the lesson as complete only if [state] is in lesson phase COMPLETED
    and the response is the celebration. *)
Definition current_snapshot (state : TeachingState) (r : LearnoResponse) : Prop :=
  progress_info r = Some (_get_progress_info state counting_chapter) /\
  (is_lesson_complete r = true ->
   lesson_phase state = LessonPhase.COMPLETED /\
   response_type r = "celebration").

(** Where a teaching state stands in the lesson and what it waits for:
    everything but the counters and the extra-help flag. *)
Definition position (state : TeachingState) :=
  (lesson_phase state, current_concept_index state, concept_phase state,
   guided_question_index state, independent_question_index state,
   review_question_index state,
   current_expected_answer state, current_acceptable_answers state,
   current_hint state).

(** Requests that reach the service no more than the timeout apart, the
    first of them no more than the timeout after [clock]. *)
Fixpoint paced (clock : Z) (trace : list (Env * Request)) : Prop :=
  match trace with
  | [] => True
  | (env, _) :: trace' =>
      (now env - clock <= SESSION_TIMEOUT_SECONDS)%Z /\ paced (now env) trace'
  end.

(** The request is an answer for [sid] that [state] grades as wrong. *)
Definition wrong_answer (sid : string) (state : TeachingState)
    (er : Env * Request) : Prop :=
  exists transcript,
    er.2 = SubmitAnswer sid transcript /\
    _evaluate_answer transcript state = false.

(** The step [continue_teaching] takes once every concept is done. *)
Definition review_step (env : Env) (state : TeachingState)
    : SE TeachingState LearnoResponse :=
  (if decide (lesson_phase state = LessonPhase.CHAPTER_REVIEW) then ret tt
   else modify enter_review) ;;;
  _do_chapter_review env counting_chapter.

(** The step [continue_teaching] takes for the teaching state it
    finds, unless that state is at the close of a concept. *)
Definition teaching_step (env : Env) (state : TeachingState)
    : SE TeachingState LearnoResponse :=
  if total_concepts counting_chapter <=? current_concept_index state
  then review_step env state
  else
    match concepts counting_chapter !! current_concept_index state with
    | Some concept => concept_step env concept (concept_phase state)
    | None => raise IndexError
    end.

(** The teaching state is at the close of a concept: [continue_teaching]
    moves on to the next concept and calls itself. *)
Definition closing (state : TeachingState) : bool :=
  (current_concept_index state <? total_concepts counting_chapter)
  && bool_decide (concept_phase state = ConceptPhase.COMPLETED).

Definition after_closing (state : TeachingState) : TeachingState :=
  if closing state then next_concept state else state.

(** The phrases [_handle_correct_answer] offers for the praise. *)
Definition praise_phrases (state : TeachingState) : list string :=
  match (if current_concept_index state <? total_concepts counting_chapter
         then concepts counting_chapter !! current_concept_index state
         else None) with
  | Some concept => encouragement_phrases concept
  | None => ["Great job! 🎉"]
  end.

(** The response [_handle_correct_answer] builds: the next step with
    the praise in front of its text. *)
Definition praised (praise_text : string) (next_response : LearnoResponse)
    : LearnoResponse :=
  {| text := praise_text +:+ newline +:+ newline +:+ text next_response;
     response_type := response_type next_response;
     image_url := image_url next_response;
     is_lesson_complete := is_lesson_complete next_response;
     progress_info := progress_info next_response |}.

(** The place of a phase in the order in which [ConceptPhase] lists
    its members. *)
Definition ordinal (p : ConceptPhase.t) : nat :=
  match p with
  | ConceptPhase.INTRODUCTION => 0
  | ConceptPhase.EXPLANATION => 1
  | ConceptPhase.VISUAL_EXAMPLE => 2
  | ConceptPhase.GUIDED_PRACTICE => 3
  | ConceptPhase.INDEPENDENT_PRACTICE => 4
  | ConceptPhase.CONCEPT_CHECK => 5
  | ConceptPhase.COMPLETED => 6
  end.

(** [state'] is at least as far into the lesson as [state]: in a later
    concept, or in the same concept and no earlier phase. *)
Definition not_behind (state state' : TeachingState) : Prop :=
  current_concept_index state < current_concept_index state' \/
  (current_concept_index state = current_concept_index state' /\
   ordinal (concept_phase state) <= ordinal (concept_phase state')).

(** A relation that holds across every change the service makes to the
    teaching state of a session it has looked up. *)
Definition respected (R : relation TeachingState) : Prop :=
  (forall state, R state (after_closing state)) /\
  (forall env state,
     closing state = false -> R state (fst (teaching_step env state state))) /\
  (forall state, R state (record_correct state)) /\
  (forall state, R state (record_wrong state)) /\
  (forall state, R state (_advance_after_correct state)).

(** A request that neither opens nor ends the session [sid]. *)
Definition continues (sid : string) (er : Env * Request) : Prop :=
  looks_up er.2 = true \/ target er.1 er.2 <> sid.

(** The counters that follow the wrong answers are in step:
    the consecutive wrong answers are among the attempts at the
    question, and these among all the wrong answers. *)
Definition attempts_in_step (state : TeachingState) : Prop :=
  consecutive_wrong state <= current_attempts state /\
  current_attempts state <= total_wrong state.

(** The teaching state of a session once [start_lesson] has welcomed
    the learner. *)
Definition opened (state : TeachingState) : TeachingState :=
  set_concept_phase
    (set_current_concept_index
       (set_lesson_phase (set_lesson_phase state LessonPhase.WELCOME)
          LessonPhase.TEACHING) 0)
    ConceptPhase.INTRODUCTION.

(** The concept cursor never points beyond the end of the chapter. *)
Definition cursor_in_range (state : TeachingState) : Prop :=
  current_concept_index state <= total_concepts counting_chapter.

(** * Properties *)

(** ** Strings *)

Section StringFacts.
Import PyStr.


Lemma append_cons (c : ascii) (s t : string) :
  String c s +:+ t = String c (s +:+ t).
Proof. reflexivity. Qed.









Lemma prefix_spec (p s : string) :
  String.prefix p s = true <-> exists post, s = p +:+ post.
Proof.
  revert s; induction p as [|a p IH]; intros s.
  - destruct s; simpl; split; eauto.
  - destruct s as [|b s]; simpl.
    + split; [done | intros [post E]; by rewrite append_cons in E].
    + destruct (ascii_dec a b) as [->|Hne].
      * rewrite IH. split; intros [post E]; exists post;
          rewrite append_cons in *; congruence.
      * split; [done | intros [post E]; rewrite append_cons in E; congruence].
Qed.

(** [contains] decides the substring relation. *)
Lemma contains_spec (needle hay : string) :
  contains needle hay = true <-> substring needle hay.
Proof.
  unfold substring. induction hay as [|c hay IH].
  - cbn [contains]. rewrite orb_false_r, prefix_spec. split.
    + intros [post E]. by exists "", post.
    + intros [[|x pre] [post E]]; [by exists post | by rewrite append_cons in E].
  - cbn [contains]. rewrite orb_true_iff, IH, prefix_spec. split.
    + intros [[post E] | (pre & post & E)].
      * by exists "", post.
      * exists (String c pre), post. rewrite append_cons. by rewrite E.
    + intros ([|x pre] & post & E).
      * left. by exists post.
      * right. rewrite append_cons in E. exists pre, post. congruence.
Qed.

(** *** Digit runs *)










Lemma contains_empty (hay : string) : contains "" hay = true.
Proof. apply contains_spec. by exists "", hay. Qed.


End StringFacts.

(** ** Answer evaluation *)

Section Evaluation.
Import PyStr.





(** The graded examples of the specification. *)
Example evaluate_exact :
  _evaluate_answer "3" (expecting "3" ["3"; "three"; "tree"; "free"]) = true.
Proof. reflexivity. Qed.

Example evaluate_variant_inside :
  _evaluate_answer "I think free" (expecting "3" ["3"; "three"; "tree"; "free"])
  = true.
Proof. reflexivity. Qed.

Example evaluate_digits_only :
  _evaluate_answer "it is 12, no, 7!" (expecting "7" []) = true /\
  _evaluate_answer "it is 17" (expecting "7" []) = false.
Proof. split; reflexivity. Qed.

Example findall_digits_runs :
  findall_digits "it's not 3, it's 13" = ["3"; "13"].
Proof. reflexivity. Qed.

Example strip_blanks : strip "  Hello World  " = "Hello World".
Proof. reflexivity. Qed.

(** A blank transcript is contained in every acceptable variant. *)
Lemma evaluate_blank_accepted (state : TeachingState) :
  current_acceptable_answers state <> [] ->
  _evaluate_answer "" state = true.
Proof.
  intros Hacc. unfold _evaluate_answer.
  destruct (current_expected_answer state) as [expected|]; [| done].
  destruct (is_empty expected); [done |].
  destruct (String.eqb _ _); [done |].
  destruct (current_acceptable_answers state) as [|v vs]; [done |].
  cbn [existsb]. change (strip (lower "")) with "".
  by rewrite contains_empty, orb_true_r.
Qed.

(** The boundary layer lets a transcript made of an angle bracket
    through, and hands the empty string to the core. *)
Lemma validate_transcript_bracket : validate_transcript "<" = Some "".
Proof. reflexivity. Qed.

(** C1.  What [_evaluate_answer] returns on the two inputs of the
    claim: "seven" against expected "3" with variants 3 and three is
    graded incorrect, as claimed; the empty transcript against expected
    "3" with variants 3, three, tree, free is graded correct, where the
    claim says incorrect. *)
Theorem evaluate_empty_transcript :
  _evaluate_answer "seven" (expecting "3" ["3"; "three"]) = false /\
  _evaluate_answer "" (expecting "3" ["3"; "three"; "tree"; "free"]) = true.
Proof. split; reflexivity. Qed.

End Evaluation.


(** ** Running the monad *)

Lemma bind_ok {S A B} (m : SE S A) (k : A -> SE S B) (s s' : S) (a : A) :
  m s = (s', Ok a) -> bind m k s = k a s'.
Proof. unfold bind. by intros ->. Qed.

Lemma get_chapter_some (les : string) (chapter : ChapterContent) :
  get_chapter les = Some chapter -> chapter = counting_chapter.
Proof.
  unfold get_chapter, AVAILABLE_CHAPTERS.
  destruct (PyStr.mem _ _); [congruence |].
  destruct (_ !! _) as [factory|] eqn:E; [| done].
  apply lookup_singleton_Some in E as [_ <-]. congruence.
Qed.

(** Whatever lesson a session names, its chapter is the counting chapter. *)
Lemma get_chapter_or_counting_run {S} (les : string) (s : S) :
  get_chapter_or_counting les s = (s, Ok counting_chapter).
Proof.
  unfold get_chapter_or_counting.
  destruct (get_chapter les) as [chapter|] eqn:E.
  - by rewrite (get_chapter_some _ _ E).
  - reflexivity.
Qed.

Lemma get_session_run (env : Env) (sid : string) (w : World) :
  get_session env sid w =
  match _sessions w !! sid with
  | None => (w, Raise SessionNotFoundError)
  | Some session =>
      if is_expired SESSION_TIMEOUT_SECONDS (now env) session
      then (set_sessions (delete sid) w, Raise SessionExpiredError)
      else (set_sessions <[sid := update_activity (now env) session]> w,
            Ok (update_activity (now env) session))
  end.
Proof.
  unfold get_session, bind, get. simpl.
  destruct (_sessions w !! sid) as [session|]; [| done].
  by destruct (is_expired _ _ _).
Qed.

Lemma get_state_run (sid : string) (w : World) :
  _get_state sid w =
  match _teaching_states w !! sid with
  | Some state => (w, Ok state)
  | None =>
      (set_teaching_states <[sid := TeachingState_new]> w, Ok TeachingState_new)
  end.
Proof.
  unfold _get_state, bind, get. simpl.
  by destruct (_teaching_states w !! sid).
Qed.

Lemma on_state_run {A} (sid : string) (m : SE TeachingState A) (w : World) :
  on_state sid m w =
  (set_teaching_states
     <[sid := fst (m (default TeachingState_new (_teaching_states w !! sid)))]> w,
   snd (m (default TeachingState_new (_teaching_states w !! sid)))).
Proof. unfold on_state. by destruct (m _). Qed.

Lemma bind_on_state_modify {B} (sid : string)
    (f : TeachingState -> TeachingState) (k : unit -> SE World B) (w : World) :
  bind (on_state sid (modify f)) k w = k tt (fst (on_state sid (modify f) w)).
Proof. reflexivity. Qed.

(** A request for an unknown or expired session leaves every teaching
    state alone. *)
Lemma get_session_teaching_states env sid (w : World) :
  _teaching_states (fst (get_session env sid w)) = _teaching_states w.
Proof.
  rewrite get_session_run. destruct (_sessions w !! sid); [| done].
  by destruct (is_expired _ _ _).
Qed.

(** ** Computations no observer notices *)

Section Views.
Context {X : Type} (view : TeachingState -> X).

Lemma stable_ret {A} (a : A) : stable view (ret a).
Proof. by intros w sid. Qed.

Lemma stable_raise {A} (e : Exn) : stable view (@raise World A e).
Proof. by intros w sid. Qed.

Lemma stable_bind {A B} (m : SE World A) (k : A -> SE World B) :
  stable view m -> (forall a, stable view (k a)) -> stable view (bind m k).
Proof.
  intros Hm Hk w sid. unfold bind. specialize (Hm w sid).
  destruct (m w) as [w' [a|e]]; simpl in *; [| done].
  by rewrite Hk.
Qed.

Lemma stable_sessions (f : gmap string Session -> gmap string Session) :
  stable view (modify (set_sessions f)).
Proof. by intros w sid. Qed.

Lemma stable_get_session (env : Env) (sid : string) :
  stable view (get_session env sid).
Proof.
  intros w k. rewrite get_session_run.
  destruct (_sessions w !! sid); [| done]. by destruct (is_expired _ _ _).
Qed.

Lemma stable_get_state (sid : string) : stable view (_get_state sid).
Proof.
  intros w k. rewrite get_state_run.
  destruct (_teaching_states w !! sid) eqn:E; [done |].
  unfold view_at. simpl. destruct (decide (sid = k)) as [<-|Hne].
  - by rewrite lookup_insert_eq, E.
  - by rewrite lookup_insert_ne.
Qed.

Lemma stable_get_chapter (les : string) :
  stable view (@get_chapter_or_counting World les).
Proof. intros w k. by rewrite get_chapter_or_counting_run. Qed.

Lemma stable_ai (env : Env) (messages : Prompt) :
  stable view (@ai World env messages).
Proof. intros w k. unfold ai. by destruct (generate_response _ _). Qed.

Lemma stable_on_state {A} (sid : string) (m : SE TeachingState A) :
  stableT view m -> stable view (on_state sid m).
Proof.
  intros Hm w k. rewrite on_state_run. unfold view_at. simpl.
  destruct (decide (sid = k)) as [<-|Hne].
  - rewrite lookup_insert_eq. simpl. apply Hm.
  - by rewrite lookup_insert_ne.
Qed.

End Views.

(** ** The counters only move when an answer is evaluated *)

Ltac unfold_steps :=
  unfold _do_chapter_review, _do_celebration, _do_guided_practice,
    _do_independent_practice, _do_mastery_check, _do_visual_example,
    _do_explanation, _do_introduction, _handle_wrong_answer,
    bind, ai, modify, get, ret, raise.

Ltac run_steps := unfold_steps; repeat case_match; simplify_eq; simpl in *; try done.

Section Counters.
(** Any observer that sees no more of a teaching state than its two
    totals. *)
Context {X : Type} (view : TeachingState -> X).
Hypothesis view_totals :
  forall state state',
    total_correct state = total_correct state' ->
    total_wrong state = total_wrong state' ->
    view state = view state'.

Ltac same_totals := intros ?; run_steps; by apply view_totals.

Lemma counters_do_introduction env concept chapter :
  stableT view (_do_introduction env concept chapter).
Proof. same_totals. Qed.

Lemma counters_do_explanation env concept chapter :
  stableT view (_do_explanation env concept chapter).
Proof. same_totals. Qed.

Lemma counters_do_visual_example env concept chapter :
  stableT view (_do_visual_example env concept chapter).
Proof. same_totals. Qed.

Lemma counters_do_mastery_check env concept chapter :
  stableT view (_do_mastery_check env concept chapter).
Proof. same_totals. Qed.

Lemma counters_do_independent_practice env concept chapter :
  stableT view (_do_independent_practice env concept chapter).
Proof. same_totals. Qed.

Lemma counters_do_guided_practice env concept chapter :
  stableT view (_do_guided_practice env concept chapter).
Proof. same_totals. Qed.

Lemma counters_do_chapter_review env chapter (enter : SE TeachingState unit) :
  stableT view enter ->
  stableT view (bind enter (fun _ => _do_chapter_review env chapter)).
Proof.
  intros Henter state. specialize (Henter state). unfold bind at 1.
  destruct (enter state) as [state' [[]|e]]; simpl in *; [| done].
  rewrite <- Henter. clear Henter state. revert state'. same_totals.
Qed.

Lemma counters_handle_wrong_answer env chapter transcript :
  stableT view (_handle_wrong_answer env chapter transcript).
Proof. same_totals. Qed.

Lemma counters_advance_after_correct :
  stableT view (modify _advance_after_correct).
Proof.
  intros state. unfold modify, _advance_after_correct. simpl.
  repeat case_match; by apply view_totals.
Qed.

Lemma counters_continue_teaching_rec depth env sid :
  stable view (continue_teaching_rec depth env sid).
Proof.
  induction depth as [|depth IH]; [apply stable_raise |].
  cbn [continue_teaching_rec]. unfold continue_teaching_body.
  apply stable_bind; [apply stable_get_session | intros session].
  apply stable_bind; [apply stable_get_state | intros state].
  apply stable_bind; [apply stable_get_chapter | intros chapter].
  destruct (_ <=? _).
  { apply stable_on_state, counters_do_chapter_review.
    intros st. destruct (decide _); [done |]. by apply view_totals. }
  destruct (_ !! _) as [concept|]; [| apply stable_raise].
  destruct (concept_phase state).
  - apply stable_on_state, counters_do_introduction.
  - apply stable_on_state, counters_do_explanation.
  - apply stable_on_state, counters_do_visual_example.
  - apply stable_on_state, counters_do_guided_practice.
  - apply stable_on_state, counters_do_independent_practice.
  - apply stable_on_state, counters_do_mastery_check.
  - apply stable_bind; [| done]. apply stable_on_state.
    intros st. by apply view_totals.
Qed.

Lemma counters_handle_silence env sid : stable view (handle_silence env sid).
Proof.
  unfold handle_silence.
  apply stable_bind; [apply stable_get_session | intros session].
  apply stable_bind; [apply stable_get_state | intros state].
  apply stable_bind; [apply stable_get_chapter | intros chapter].
  apply stable_on_state. same_totals.
Qed.

Lemma counters_start_lesson env g subj les :
  stable view (start_lesson env g subj les).
Proof.
  unfold start_lesson. destruct (negb _); [apply stable_raise |].
  apply stable_bind; [| intros session].
  { unfold create_session. apply stable_bind; [apply stable_sessions | intros _].
    apply stable_ret. }
  apply stable_bind; [apply stable_get_chapter | intros chapter].
  apply stable_bind; [apply stable_get_state | intros _].
  apply stable_bind; [| intros _].
  { apply stable_on_state. intros st. by apply view_totals. }
  apply stable_bind; [apply stable_ai | intros ai_text].
  destruct (_process_response _ _ _) as [clean_text image_url].
  apply stable_bind; [| intros _].
  { apply stable_on_state. intros st. by apply view_totals. }
  apply stable_bind; [| intros session'].
  { unfold update_session. apply stable_bind; [apply stable_sessions | intros _].
    apply stable_ret. }
  apply stable_bind; [apply stable_get_state | intros state].
  apply stable_ret.
Qed.

Lemma counters_handle_correct_answer env sid chapter :
  stable view (_handle_correct_answer env sid chapter).
Proof.
  unfold _handle_correct_answer.
  apply stable_bind; [| intros praise_text].
  { apply stable_on_state. same_totals. }
  apply stable_bind;
    [apply stable_on_state, counters_advance_after_correct | intros _].
  apply stable_bind; [apply counters_continue_teaching_rec | intros next].
  apply stable_ret.
Qed.

Lemma counters_end_lesson sid k (w : World) :
  sid <> k -> view_at view (fst (end_lesson sid w)) k = view_at view w k.
Proof.
  intros Hne. unfold end_lesson, delete_session, bind, get, modify, ret.
  rewrite get_state_run. unfold view_at.
  repeat case_match; simplify_eq; simpl;
    rewrite ?lookup_delete_ne, ?lookup_insert_ne by done; done.
Qed.

(** Every request but [SubmitAnswer], and but the [EndLesson] of the
    session observed, leaves the totals of the session alone. *)
Lemma counters_serve_other env r sid (w : World) :
  keeps_session sid r ->
  (forall sid' transcript, r <> SubmitAnswer sid' transcript) ->
  view_at view (serve env r w) sid = view_at view w sid.
Proof.
  intros Hkeep Hother.
  destruct r as [g subj les|sid'|sid' transcript|sid'|sid']; simpl.
  - apply counters_start_lesson.
  - apply counters_continue_teaching_rec.
  - by destruct (Hother sid' transcript).
  - apply counters_handle_silence.
  - apply counters_end_lesson. intros ->. by apply Hkeep.
Qed.

(** Once the session is found, [process_response] grades the transcript
    against the state it finds: what an observer of another session sees
    does not change, and an observer of this one sees the state with the
    answer recorded. *)
Lemma counters_grade env sid transcript les k (w : World) :
  view_at view
    (fst (bind (_get_state sid) (fun state =>
          bind (get_chapter_or_counting les)
            (fun chapter =>
               if _evaluate_answer transcript state
               then bind (on_state sid (modify record_correct))
                      (fun _ => _handle_correct_answer env sid chapter)
               else bind (on_state sid (modify record_wrong))
                      (fun _ => on_state sid
                                  (_handle_wrong_answer env chapter transcript))))
          w)) k =
  if decide (sid = k) then
    let state := default TeachingState_new (_teaching_states w !! sid) in
    view (if _evaluate_answer transcript state
          then record_correct state else record_wrong state)
  else view_at view w k.
Proof.
  unfold bind at 1. rewrite get_state_run.
  assert (Hrecord : forall (f : TeachingState -> TeachingState) (w' : World),
    view_at view (fst (on_state sid (modify f) w')) k =
    if decide (sid = k)
    then view (f (default TeachingState_new (_teaching_states w' !! sid)))
    else view_at view w' k).
  { intros f w'. rewrite on_state_run. unfold view_at. simpl.
    destruct (decide (sid = k)) as [<-|Hne].
    - by rewrite lookup_insert_eq.
    - by rewrite lookup_insert_ne. }
  assert (Hgrade : forall (w' : World) (state : TeachingState),
    default TeachingState_new (_teaching_states w' !! sid) = state ->
    view_at view
      (fst (bind (get_chapter_or_counting les)
              (fun chapter =>
                 if _evaluate_answer transcript state
                 then bind (on_state sid (modify record_correct))
                        (fun _ => _handle_correct_answer env sid chapter)
                 else bind (on_state sid (modify record_wrong))
                        (fun _ => on_state sid
                                    (_handle_wrong_answer env chapter transcript)))
              w')) k =
    if decide (sid = k)
    then view (if _evaluate_answer transcript state
               then record_correct state else record_wrong state)
    else view_at view w' k).
  { intros w' state Hstate. unfold bind at 1.
    rewrite get_chapter_or_counting_run.
    destruct (_evaluate_answer transcript state); rewrite bind_on_state_modify.
    - rewrite counters_handle_correct_answer, Hrecord. by rewrite Hstate.
    - rewrite (stable_on_state view sid _
                 (counters_handle_wrong_answer env counting_chapter transcript)).
      rewrite Hrecord. by rewrite Hstate. }
  destruct (_teaching_states w !! sid) as [state|] eqn:Hstate.
  - rewrite (Hgrade w state) by (by rewrite Hstate). done.
  - rewrite (Hgrade _ TeachingState_new)
      by (simpl; by rewrite lookup_insert_eq).
    simpl. destruct (decide (sid = k)) as [<-|Hne]; [done |].
    unfold view_at. simpl. by rewrite lookup_insert_ne.
Qed.

Lemma counters_process_response env sid transcript k (w : World) :
  view_at view (fst (process_response env sid transcript w)) k =
  if reaches_evaluation env (SubmitAnswer sid transcript) k w then
    let state := default TeachingState_new (_teaching_states w !! sid) in
    view (if _evaluate_answer transcript state
          then record_correct state else record_wrong state)
  else view_at view w k.
Proof.
  unfold process_response, reaches_evaluation.
  unfold bind at 1.
  pose proof (stable_get_session view env sid w k) as Hk.
  pose proof (get_session_teaching_states env sid w) as Hsame.
  destruct (decide (sid = k)) as [<-|Hne].
  - rewrite bool_decide_eq_true_2 by done. simpl.
    destruct (get_session env sid w) as [w' [session|e]] eqn:E; simpl in *;
      [| done].
    rewrite (counters_grade env sid transcript (lesson session) sid w').
    rewrite decide_True by done. by rewrite Hsame.
  - rewrite bool_decide_eq_false_2 by done. simpl.
    destruct (get_session env sid w) as [w' [session|e]] eqn:E; simpl in *;
      [| done].
    rewrite (counters_grade env sid transcript (lesson session) k w').
    by rewrite decide_False.
Qed.

End Counters.

Lemma totals_view (state state' : TeachingState) :
  total_correct state = total_correct state' ->
  total_wrong state = total_wrong state' ->
  totals state = totals state'.
Proof. unfold totals. by intros -> ->. Qed.

Lemma graded_view (state state' : TeachingState) :
  total_correct state = total_correct state' ->
  total_wrong state = total_wrong state' ->
  graded state = graded state'.
Proof. unfold graded. by intros -> ->. Qed.

(** What serving one request does to the two totals of a session that
    the request does not end: a [SubmitAnswer] for it that reaches the
    evaluation adds one to exactly one of them, and every other request
    leaves both as they are. *)
Lemma totals_serve env r sid (w : World) :
  keeps_session sid r ->
  let before := view_at totals w sid in
  let after := view_at totals (serve env r w) sid in
  if reaches_evaluation env r sid w
  then after = (fst before + 1, snd before) \/ after = (fst before, snd before + 1)
  else after = before.
Proof.
  intros Hkeep before after. subst before after.
  destruct r as [g subj les|sid'|sid' transcript|sid'|sid'];
    try (cbn [reaches_evaluation];
         by apply (counters_serve_other totals totals_view)).
  cbn [serve]. rewrite (counters_process_response totals totals_view).
  destruct (reaches_evaluation _ _ _ _) eqn:Hreach; [| done].
  apply andb_true_iff in Hreach as [Hsid _].
  apply bool_decide_eq_true in Hsid as ->.
  unfold view_at.
  set (state := default TeachingState_new (_teaching_states w !! sid)).
  destruct (_evaluate_answer transcript state).
  - left. reflexivity.
  - right. unfold totals, record_wrong. simpl. by case_match.
Qed.

Lemma graded_serve env r sid (w : World) :
  keeps_session sid r ->
  answered (serve env r w) sid =
  answered w sid + (if reaches_evaluation env r sid w then 1 else 0).
Proof.
  intros Hkeep. pose proof (totals_serve env r sid w Hkeep) as Htotals.
  unfold answered, view_at, graded, totals in *. simpl in Htotals.
  destruct (reaches_evaluation env r sid w).
  - destruct Htotals as [[= -> ->] | [= -> ->]]; lia.
  - injection Htotals as -> ->. lia.
Qed.

Lemma graded_process_response env sid transcript k (w : World) :
  answered (fst (process_response env sid transcript w)) k =
  answered w k +
  (if reaches_evaluation env (SubmitAnswer sid transcript) k w then 1 else 0).
Proof.
  unfold answered. rewrite (counters_process_response graded graded_view).
  destruct (reaches_evaluation _ _ _ _) eqn:Hreach; [| lia].
  apply andb_true_iff in Hreach as [Hsid _].
  apply bool_decide_eq_true in Hsid as ->. unfold view_at.
  set (state := default TeachingState_new (_teaching_states w !! k)).
  destruct (_evaluate_answer transcript state).
  - unfold graded, record_correct. simpl. lia.
  - unfold graded, record_wrong. simpl. case_match; simpl; lia.
Qed.

(** Within a session, the counters grow by exactly the number of
    evaluated answers. *)
Lemma graded_serve_all trace sid (w : World) :
  Forall (fun er => keeps_session sid er.2) trace ->
  answered (serve_all trace w) sid = answered w sid + evaluated trace sid w.
Proof.
  intros Hkeep. revert w.
  induction Hkeep as [|[env r] trace Hr _ IH]; intros w; simpl.
  - lia.
  - rewrite IH, graded_serve by done. lia.
Qed.

(** C5.  Take the session that [StartLesson] opens under a fresh
    identifier, and any sequence of requests that does not end that
    session (requests for this or any other session, served with any
    behaviour of the clock and of the collaborators).  After it, the sum
    [total_correct + total_wrong] of the session's teaching state is the
    number of [SubmitAnswer] requests for it that got past the session
    lookup; and whatever request comes next, it adds one to exactly one
    of the two totals if it is such a [SubmitAnswer], and leaves both
    totals untouched otherwise. *)
Theorem counters_count_evaluations env0 g subj les (w0 : World)
    (trace : list (Env * Request)) :
  _teaching_states w0 !! uuid4 env0 = None ->
  Forall (fun er => keeps_session (uuid4 env0) er.2) trace ->
  let sid := uuid4 env0 in
  let w := serve_all trace (serve env0 (StartLesson g subj les) w0) in
  answered w sid = evaluated trace sid (serve env0 (StartLesson g subj les) w0) /\
  forall env r,
    keeps_session sid r ->
    let before := view_at totals w sid in
    let after := view_at totals (serve env r w) sid in
    if reaches_evaluation env r sid w
    then after = (fst before + 1, snd before) \/
         after = (fst before, snd before + 1)
    else after = before.
Proof.
  intros Hfresh Hkeep sid w. split.
  - subst w. rewrite graded_serve_all by done.
    assert (Hzero : answered (serve env0 (StartLesson g subj les) w0) sid = 0).
    { unfold answered. cbn [serve].
      rewrite (counters_start_lesson graded graded_view env0 g subj les w0 sid).
      unfold view_at, sid. by rewrite Hfresh. }
    by rewrite Hzero.
  - intros env r Hr. by apply totals_serve.
Qed.

(** ** The recursion of [continue_teaching] *)

Lemma never_on_state {A} (e : Exn) (sid : string) (m : SE TeachingState A) :
  never e m -> never e (on_state sid m).
Proof. intros Hm w. rewrite on_state_run. apply Hm. Qed.

Lemma never_recursion_steps env chapter :
  (forall concept, never RecursionError (_do_introduction env concept chapter)) /\
  (forall concept, never RecursionError (_do_explanation env concept chapter)) /\
  (forall concept, never RecursionError (_do_visual_example env concept chapter)) /\
  (forall concept, never RecursionError (_do_guided_practice env concept chapter)) /\
  (forall concept, never RecursionError (_do_independent_practice env concept chapter)) /\
  (forall concept, never RecursionError (_do_mastery_check env concept chapter)) /\
  (forall enter : SE TeachingState unit,
      never RecursionError enter ->
      never RecursionError (bind enter (fun _ => _do_chapter_review env chapter))).
Proof.
  repeat split; [intros concept state; run_steps .. |].
  intros enter Henter state. unfold bind at 1. specialize (Henter state).
  destruct (enter state) as [state' [[]|e]]; simpl in *;
    [| by intros [= ->]].
  clear. run_steps.
Qed.

Lemma continue_teaching_settled self self' env sid (w : World) :
  (forall session, _sessions w !! sid = Some session -> settles sid w) ->
  continue_teaching_body self env sid w = continue_teaching_body self' env sid w /\
  snd (continue_teaching_body self env sid w) <> Raise RecursionError.
Proof.
  intros Hsettles. unfold continue_teaching_body, bind.
  rewrite get_session_run.
  destruct (_sessions w !! sid) as [session|] eqn:Hsession; [| done].
  specialize (Hsettles _ eq_refl). unfold settles in Hsettles.
  destruct (is_expired _ _ _); [done |].
  rewrite get_state_run. simpl _teaching_states.
  destruct (never_recursion_steps env counting_chapter)
    as (Hi & He & Hv & Hg & Hp & Hm & Hr).
  set (w1 := set_sessions _ w). clearbody w1.
  assert (Hstate : exists (w2 : World) (state : TeachingState),
             match _teaching_states w !! sid with
             | Some state => (w1, Ok state)
             | None =>
                 (set_teaching_states <[sid := TeachingState_new]> w1,
                  Ok TeachingState_new)
             end = (w2, Ok state) /\
             (total_concepts counting_chapter <= current_concept_index state \/
              concept_phase state <> ConceptPhase.COMPLETED)).
  { destruct (_teaching_states w !! sid) as [state|]; eauto. }
  destruct Hstate as (w2 & state & -> & Hstate).
  rewrite get_chapter_or_counting_run.
  destruct (_ <=? _) eqn:Hle.
  { split; [done |]. apply never_on_state.
    apply (Hr (if decide (lesson_phase state = LessonPhase.CHAPTER_REVIEW)
               then ret tt else modify _)).
    intros st. by destruct (decide _). }
  apply Nat.leb_gt in Hle.
  destruct (concepts counting_chapter !! current_concept_index state)
    as [concept|]; [| done].
  destruct (concept_phase state); try (split; [done |]).
  - apply never_on_state, Hi.
  - apply never_on_state, He.
  - apply never_on_state, Hv.
  - apply never_on_state, Hg.
  - apply never_on_state, Hp.
  - apply never_on_state, Hm.
  - destruct Hstate; [lia | done].
Qed.

(** At most one nested call: room for two calls is always enough. *)
Lemma continue_teaching_two depth env sid (w : World) :
  continue_teaching_rec (S (S depth)) env sid w = continue_teaching env sid w /\
  snd (continue_teaching env sid w) <> Raise RecursionError.
Proof.
  unfold continue_teaching.
  assert (Hagain : forall (w' : World) self,
    let w'' :=
      fst (on_state sid
             (modify (fun state =>
                        reset_attempts
                          (set_concept_phase
                             (set_current_concept_index state
                                (current_concept_index state + 1))
                             ConceptPhase.INTRODUCTION))) w') in
    continue_teaching_body self env sid w''
    = continue_teaching_rec 1 env sid w'' /\
    snd (continue_teaching_rec 1 env sid w'') <> Raise RecursionError).
  { intros w' self w''. cbn [continue_teaching_rec].
    assert (Hsettles : forall session,
               _sessions w'' !! sid = Some session -> settles sid w'').
    { intros _ _. unfold settles, w''. rewrite on_state_run. simpl.
      rewrite lookup_insert_eq. simpl. by right. }
    split.
    - by apply continue_teaching_settled.
    - by apply (continue_teaching_settled _ (continue_teaching_rec 0)). }
  change (continue_teaching_rec (S (S depth)) env sid w)
    with (continue_teaching_body (continue_teaching_rec (S depth)) env sid w).
  change (continue_teaching_rec 2 env sid w)
    with (continue_teaching_body (continue_teaching_rec 1) env sid w).
  unfold continue_teaching_body at 1 2 3. unfold bind.
  rewrite get_session_run.
  destruct (_sessions w !! sid) as [session0|]; [| done].
  destruct (is_expired _ _ _); [done |].
  set (session := update_activity _ _). clearbody session.
  set (w1 := set_sessions _ w). clearbody w1.
  rewrite get_state_run.
  assert (Hstate : exists (w2 : World) (state : TeachingState),
             match _teaching_states w1 !! sid with
             | Some state => (w1, Ok state)
             | None =>
                 (set_teaching_states <[sid := TeachingState_new]> w1,
                  Ok TeachingState_new)
             end = (w2, Ok state)).
  { destruct (_teaching_states w1 !! sid) as [state|]; eauto. }
  destruct Hstate as (w2 & state & ->).
  rewrite get_chapter_or_counting_run.
  destruct (never_recursion_steps env counting_chapter)
    as (Hi & He & Hv & Hg & Hp & Hm & Hr).
  destruct (_ <=? _).
  { split; [done |]. apply never_on_state.
    apply (Hr (if decide (lesson_phase state = LessonPhase.CHAPTER_REVIEW)
               then ret tt else modify _)).
    intros st. by destruct (decide _). }
  destruct (concepts counting_chapter !! current_concept_index state)
    as [concept|]; [| done].
  destruct (concept_phase state); try (split; [done |]).
  - apply never_on_state, Hi.
  - apply never_on_state, He.
  - apply never_on_state, Hv.
  - apply never_on_state, Hg.
  - apply never_on_state, Hp.
  - apply never_on_state, Hm.
  - destruct (Hagain w2 (continue_teaching_rec depth)) as [Hsame Hnever].
    set (w3 := on_state sid (modify _) w2) in *.
    assert (Hw3 : w3 = (fst w3, Ok tt)) by reflexivity.
    rewrite Hw3. cbv iota beta.
    change (continue_teaching_rec (S depth) env sid (fst w3))
      with (continue_teaching_body (continue_teaching_rec depth) env sid (fst w3)).
    by rewrite Hsame.
Qed.

(** C8.  [continue_teaching] terminates: give the call stack room for one
    call plus [total concepts + questions per concept] nested self-calls
    and [RecursionError] is never raised (a call needs more room than it
    is given exactly when it raises that exception, so this bounds the
    number of self-calls); the result is the one [continue_teaching]
    computes with room for a single self-call. *)
Theorem continue_teaching_terminates depth env sid (w : World) :
  self_call_bound counting_chapter < depth ->
  snd (continue_teaching_rec depth env sid w) <> Raise RecursionError /\
  continue_teaching_rec depth env sid w = continue_teaching env sid w.
Proof.
  intros Hdepth.
  destruct depth as [|[|depth]]; [lia | |].
  - assert (Hnone : total_concepts counting_chapter = 0).
    { unfold self_call_bound in Hdepth. lia. }
    assert (Hsettles : forall session,
               _sessions w !! sid = Some session -> settles sid w).
    { intros _ _. left. lia. }
    destruct (continue_teaching_settled (continue_teaching_rec 0)
                (continue_teaching_rec 1) env sid w Hsettles) as [E Hnever].
    unfold continue_teaching. cbn [continue_teaching_rec] in *. by rewrite <- E.
  - destruct (continue_teaching_two depth env sid w) as [E Hnever].
    by rewrite E.
Qed.

(** ** Starting and ending a lesson *)

(** C9.  For a (grade, subject, lesson) triple that the availability
    check rejects, [start_lesson] raises [LessonNotAvailableError] and
    leaves the world as it was: no session and no teaching state is
    created. *)
Theorem start_lesson_unavailable env g subj les (w : World) :
  is_chapter_available g subj les = false ->
  start_lesson env g subj les w = (w, Raise LessonNotAvailableError).
Proof. intros Hunavailable. unfold start_lesson. by rewrite Hunavailable. Qed.

Lemma science_is_unavailable : is_chapter_available 2 "Science" "counting" = false.
Proof. reflexivity. Qed.

(** C10.  [end_lesson] never looks the session up and never raises: for
    every identifier it returns a summary and removes the identifier
    from both dictionaries.  For an identifier without a teaching state
    the summary is the one of a fresh state, (0, 0, 0, false).  Calling
    it again finds nothing left and returns that same fresh summary. *)
Theorem end_lesson_always_succeeds sid (w : World) :
  let state := default TeachingState_new (_teaching_states w !! sid) in
  end_lesson sid w
  = (forget sid w, Ok (summary_of state, farewell (summary_of state))) /\
  summary_of TeachingState_new =
    {| concepts_completed := 0; sum_total_correct := 0;
       sum_total_wrong := 0; sum_is_complete := false |} /\
  end_lesson sid (forget sid w)
  = (forget sid w,
     Ok (summary_of TeachingState_new, "Great effort today! 🌟")).
Proof.
  assert (Hend : forall w : World,
    end_lesson sid w
    = (forget sid w,
       Ok (summary_of (default TeachingState_new (_teaching_states w !! sid)),
           farewell (summary_of
                       (default TeachingState_new (_teaching_states w !! sid)))))).
  { clear w. intros [sessions states].
    unfold end_lesson, delete_session, bind. rewrite get_state_run.
    unfold forget, get, modify, ret. simpl.
    destruct (states !! sid) as [state|] eqn:Hstate; simpl.
    - rewrite Hstate. simpl.
      destruct (sessions !! sid) eqn:Hsession; simpl; [done |].
      by rewrite (delete_id sessions).
    - rewrite lookup_insert_eq. simpl.
      destruct (sessions !! sid) eqn:Hsession; unfold set_teaching_states;
        simpl; rewrite delete_insert_eq; [done |].
      by rewrite (delete_id sessions). }
  split; [apply Hend |]. split; [done |].
  rewrite Hend. unfold forget at 2 3. simpl. rewrite lookup_delete_eq. simpl.
  f_equal. unfold forget. simpl. by rewrite !delete_delete_eq.
Qed.

(** ** Single steps of [continue_teaching] *)

Lemma get_session_live env sid (w : World) :
  live env sid w ->
  exists session, get_session env sid w = (touched env sid w, Ok session).
Proof.
  intros (session & Hsession & Hfresh). rewrite get_session_run, Hsession, Hfresh.
  exists (update_activity (now env) session). f_equal.
  unfold touched, set_sessions. f_equal.
  apply map_eq. intros k. destruct (decide (sid = k)) as [<-|Hne].
  - by rewrite lookup_insert_eq, lookup_alter_eq, Hsession.
  - by rewrite lookup_insert_ne, lookup_alter_ne.
Qed.

(** A teaching step in the middle of a concept. *)
Lemma continue_teaching_concept env sid (w : World) state concept :
  live env sid w ->
  _teaching_states w !! sid = Some state ->
  concepts counting_chapter !! current_concept_index state = Some concept ->
  concept_phase state <> ConceptPhase.COMPLETED ->
  continue_teaching env sid w
  = on_state sid (concept_step env concept (concept_phase state))
      (touched env sid w).
Proof.
  intros Hlive Hstate Hconcept Hphase.
  destruct (get_session_live _ _ _ Hlive) as [session Hsession].
  unfold continue_teaching. cbn [continue_teaching_rec].
  unfold continue_teaching_body.
  rewrite (bind_ok _ _ _ _ _ Hsession).
  erewrite bind_ok; [| by rewrite get_state_run; simpl; rewrite Hstate].
  erewrite bind_ok; [| apply get_chapter_or_counting_run].
  apply lookup_lt_Some in Hconcept as Hlt.
  unfold total_concepts. rewrite (proj2 (Nat.leb_gt _ _) Hlt), Hconcept.
  by destruct (concept_phase state).
Qed.

(** The step taken once every concept is done. *)
Lemma continue_teaching_review env sid (w : World) state :
  live env sid w ->
  _teaching_states w !! sid = Some state ->
  total_concepts counting_chapter <= current_concept_index state ->
  continue_teaching env sid w
  = on_state sid
      (bind (if decide (lesson_phase state = LessonPhase.CHAPTER_REVIEW)
             then ret tt
             else modify (fun state =>
                            set_review_question_index
                              (set_lesson_phase state
                                 LessonPhase.CHAPTER_REVIEW) 0))
         (fun _ => _do_chapter_review env counting_chapter))
      (touched env sid w).
Proof.
  intros Hlive Hstate Hdone.
  destruct (get_session_live _ _ _ Hlive) as [session Hsession].
  unfold continue_teaching. cbn [continue_teaching_rec].
  unfold continue_teaching_body.
  rewrite (bind_ok _ _ _ _ _ Hsession).
  erewrite bind_ok; [| by rewrite get_state_run; simpl; rewrite Hstate].
  erewrite bind_ok; [| apply get_chapter_or_counting_run].
  by rewrite (proj2 (Nat.leb_le _ _) Hdone).
Qed.


(** ** From [start_lesson] to the first teaching step *)

Lemma start_lesson_run env g subj les (w : World) ai_text :
  is_chapter_available g subj les = true ->
  generate_response env (build_welcome_prompt (chapter_title counting_chapter))
  = Some ai_text ->
  let sid := uuid4 env in
  let state0 := default TeachingState_new (_teaching_states w !! sid) in
  let state :=
    set_concept_phase
      (set_current_concept_index
         (set_lesson_phase (set_lesson_phase state0 LessonPhase.WELCOME)
            LessonPhase.TEACHING) 0)
      ConceptPhase.INTRODUCTION in
  let session :=
    update_activity (now env)
      (set_total_steps (total_concepts counting_chapter * 6)
         (Session_new sid (now env) g subj les)) in
  exists w1,
    start_lesson env g subj les w
    = (w1, Ok (session,
               respond state counting_chapter
                 (fst (_process_response env ai_text None)) "welcome"
                 (snd (_process_response env ai_text None)) false)) /\
    _sessions w1 !! sid = Some session /\
    _teaching_states w1 !! sid = Some state.
Proof.
  intros Havailable Hai sid state0 state session.
  unfold start_lesson. rewrite Havailable. cbn [negb].
  unfold create_session, update_session, bind, modify, ret. simpl.
  rewrite get_chapter_or_counting_run, get_state_run. simpl.
  fold sid.
  destruct (_process_response env ai_text None) as [clean_text image_url] eqn:Hp.
  destruct (_teaching_states w !! sid) as [st|] eqn:Hstate;
    unfold ai; rewrite Hai; unfold ret; rewrite Hp, get_state_run; simpl;
    repeat (progress (rewrite ?Hstate, ?lookup_insert_eq; simpl)).
  - eexists. split; [reflexivity |]. simpl. by rewrite !lookup_insert_eq.
  - eexists. split; [reflexivity |]. simpl. by rewrite !lookup_insert_eq.
Qed.

(** C3, as the code has it.  [StartLesson(2, "Math", "counting")]
    succeeds whenever the welcome is phrased; its response is of type
    "welcome", but the progress snapshot it carries is taken after the
    state has moved on and shows lesson phase TEACHING, concept 1,
    concept phase INTRODUCTION.  The first [ContinueTeaching] after it
    (before the session times out, with the introduction phrased) renders
    the introduction of the first concept, leaves lesson phase TEACHING
    and concept index 0, and sets and returns concept phase
    EXPLANATION. *)
Theorem start_then_continue env1 env2 (w : World) welcome_text intro_text concept :
  concepts counting_chapter !! 0 = Some concept ->
  generate_response env1 (build_welcome_prompt (chapter_title counting_chapter))
  = Some welcome_text ->
  generate_response env2 (build_concept_introduction_prompt (concept_name concept))
  = Some intro_text ->
  (now env2 - now env1 <= SESSION_TIMEOUT_SECONDS)%Z ->
  exists w1 session r1 w2 r2 state,
    start_lesson env1 2 "Math" "counting" w = (w1, Ok (session, r1)) /\
    response_type r1 = "welcome" /\
    shown_lesson_phase r1 = Some (LessonPhase.value LessonPhase.TEACHING) /\
    shown_concept r1 = Some 1 /\
    shown_concept_phase r1 = Some (ConceptPhase.value ConceptPhase.INTRODUCTION) /\
    continue_teaching env2 (session_id session) w1 = (w2, Ok r2) /\
    response_type r2 = "concept_introduction" /\
    shown_lesson_phase r2 = Some (LessonPhase.value LessonPhase.TEACHING) /\
    shown_concept r2 = Some 1 /\
    shown_concept_phase r2 = Some (ConceptPhase.value ConceptPhase.EXPLANATION) /\
    _teaching_states w2 !! session_id session = Some state /\
    lesson_phase state = LessonPhase.TEACHING /\
    current_concept_index state = 0 /\
    concept_phase state = ConceptPhase.EXPLANATION.
Proof.
  intros Hconcept Hwelcome Hintro Hclock.
  destruct (start_lesson_run env1 2 "Math" "counting" w welcome_text eq_refl Hwelcome)
    as (w1 & Hstart & Hsession & Hstate).
  set (session := update_activity _ _) in *.
  set (state := set_concept_phase _ _) in *.
  assert (Hlive : live env2 (uuid4 env1) w1).
  { exists session. split; [done |]. unfold is_expired. simpl.
    apply Z.ltb_ge. lia. }
  pose proof (continue_teaching_concept env2 (uuid4 env1) w1 state concept
                Hlive Hstate Hconcept) as Hcontinue.
  rewrite on_state_run in Hcontinue. simpl _teaching_states in Hcontinue.
  rewrite Hstate in Hcontinue. simpl in Hcontinue.
  unfold _do_introduction, bind, ai in Hcontinue. rewrite Hintro in Hcontinue.
  unfold ret, modify, get in Hcontinue. simpl in Hcontinue.
  destruct (_process_response env2 intro_text None) as [clean_text image_url].
  simpl in Hcontinue.
  eexists w1, session, _, _, _, _.
  split; [exact Hstart |].
  do 4 (split; [reflexivity |]).
  split; [apply Hcontinue; discriminate |].
  do 4 (split; [reflexivity |]).
  split; [simpl; apply lookup_insert_eq |].
  done.
Qed.

(** ** Asking again *)

Lemma continue_teaching_not_live env sid (w : World) :
  ~ live env sid w ->
  exists e, continue_teaching env sid w = (fst (get_session env sid w), Raise e).
Proof.
  intros Hdead. unfold continue_teaching. cbn [continue_teaching_rec].
  unfold continue_teaching_body, bind at 1. rewrite get_session_run.
  destruct (_sessions w !! sid) as [session|] eqn:Hsession; [| by eexists].
  destruct (is_expired _ _ _) eqn:Hexpired; [by eexists |].
  destruct Hdead. by exists session.
Qed.

Lemma live_dec env sid (w : World) : live env sid w \/ ~ live env sid w.
Proof.
  unfold live. destruct (_sessions w !! sid) as [session|] eqn:Hsession.
  - destruct (is_expired SESSION_TIMEOUT_SECONDS (now env) session) eqn:Hexpired.
    + right. intros (session' & [= <-] & ?). congruence.
    + left. eauto.
  - right. by intros (session' & [=] & _).
Qed.


Lemma on_state_unchanged {A} sid (m : SE TeachingState A) (w : World) state :
  _teaching_states w !! sid = Some state ->
  fst (m state) = state ->
  _teaching_states (fst (on_state sid m w)) = _teaching_states w.
Proof.
  intros Hstate Hm. rewrite on_state_run, Hstate. simpl. rewrite Hm.
  by apply insert_id.
Qed.

(** [handle_silence] reads the teaching state and never writes it. *)
Lemma handle_silence_reads_only env sid (w : World) state :
  _teaching_states w !! sid = Some state ->
  _teaching_states (fst (handle_silence env sid w)) = _teaching_states w.
Proof.
  intros Hstate. unfold handle_silence, bind at 1.
  pose proof (get_session_teaching_states env sid w) as Hsame.
  destruct (get_session env sid w) as [w1 [session|e]]; simpl in Hsame; [| done].
  unfold bind at 1. rewrite get_state_run, Hsame, Hstate.
  unfold bind at 1. rewrite get_chapter_or_counting_run.
  rewrite <- Hsame in Hstate |- *.
  apply (on_state_unchanged sid _ w1 state Hstate). run_steps.
Qed.

(** *** Sessions do not write each other's teaching state *)

Lemma confined_ret {A} sid (a : A) : confined sid (ret a).
Proof. by intros w k _. Qed.

Lemma confined_raise {A} sid (e : Exn) : confined sid (@raise World A e).
Proof. by intros w k _. Qed.

Lemma confined_bind {A B} sid (m : SE World A) (k : A -> SE World B) :
  confined sid m -> (forall a, confined sid (k a)) -> confined sid (bind m k).
Proof.
  intros Hm Hk w j Hj. unfold bind. specialize (Hm w j Hj).
  destruct (m w) as [w' [a|e]]; simpl in *; [| done].
  by rewrite Hk.
Qed.

Lemma confined_sessions sid (f : gmap string Session -> gmap string Session) :
  confined sid (modify (set_sessions f)).
Proof. by intros w k _. Qed.

Lemma confined_get_session sid env sid' : confined sid (get_session env sid').
Proof. intros w k _. by rewrite get_session_teaching_states. Qed.

Lemma confined_get_state sid : confined sid (_get_state sid).
Proof.
  intros w k Hk. rewrite get_state_run.
  destruct (_teaching_states w !! sid); [done |]. simpl.
  by rewrite lookup_insert_ne.
Qed.

Lemma confined_get_chapter sid les :
  confined sid (@get_chapter_or_counting World les).
Proof. intros w k _. by rewrite get_chapter_or_counting_run. Qed.

Lemma confined_ai sid env messages : confined sid (@ai World env messages).
Proof. intros w k _. unfold ai. by destruct (generate_response _ _). Qed.

Lemma confined_on_state {A} sid (m : SE TeachingState A) :
  confined sid (on_state sid m).
Proof. intros w k Hk. rewrite on_state_run. simpl. by rewrite lookup_insert_ne. Qed.

Lemma confined_continue_teaching_rec depth env sid :
  confined sid (continue_teaching_rec depth env sid).
Proof.
  induction depth as [|depth IH]; [apply confined_raise |].
  cbn [continue_teaching_rec]. unfold continue_teaching_body.
  apply confined_bind; [apply confined_get_session | intros session].
  apply confined_bind; [apply confined_get_state | intros state].
  apply confined_bind; [apply confined_get_chapter | intros chapter].
  destruct (_ <=? _); [apply confined_on_state |].
  destruct (_ !! _) as [concept|]; [| apply confined_raise].
  destruct (concept_phase state); try apply confined_on_state.
  apply confined_bind; [apply confined_on_state | done].
Qed.

Lemma confined_process_response env sid transcript :
  confined sid (process_response env sid transcript).
Proof.
  unfold process_response.
  apply confined_bind; [apply confined_get_session | intros session].
  apply confined_bind; [apply confined_get_state | intros state].
  apply confined_bind; [apply confined_get_chapter | intros chapter].
  destruct (_evaluate_answer _ _).
  - apply confined_bind; [apply confined_on_state | intros _].
    unfold _handle_correct_answer.
    apply confined_bind; [apply confined_on_state | intros praise_text].
    apply confined_bind; [apply confined_on_state | intros _].
    apply confined_bind; [apply confined_continue_teaching_rec | intros next].
    apply confined_ret.
  - apply confined_bind; [apply confined_on_state | intros _].
    apply confined_on_state.
Qed.

Lemma confined_handle_silence env sid : confined sid (handle_silence env sid).
Proof.
  unfold handle_silence.
  apply confined_bind; [apply confined_get_session | intros session].
  apply confined_bind; [apply confined_get_state | intros state].
  apply confined_bind; [apply confined_get_chapter | intros chapter].
  apply confined_on_state.
Qed.

Lemma confined_start_lesson env g subj les :
  confined (uuid4 env) (start_lesson env g subj les).
Proof.
  intros w k Hk. unfold start_lesson. destruct (negb _); [done |].
  unfold create_session. unfold bind at 1. unfold bind at 1. simpl.
  set (w1 := set_sessions _ w).
  change (_teaching_states w !! k) with (_teaching_states w1 !! k).
  match goal with
  | |- _teaching_states (fst (?m w1)) !! k = _ =>
      assert (Hrest : confined (uuid4 env) m); [| by apply Hrest]
  end.
  apply confined_bind; [apply confined_get_chapter | intros chapter].
  apply confined_bind; [apply confined_get_state | intros _].
  apply confined_bind; [apply confined_on_state | intros _].
  apply confined_bind; [apply confined_ai | intros ai_text].
  destruct (_process_response _ _ _) as [clean_text image_url].
  apply confined_bind; [apply confined_on_state | intros _].
  apply confined_bind; [| intros session'].
  { unfold update_session.
    apply confined_bind; [apply confined_sessions | intros _].
    apply confined_ret. }
  apply confined_bind; [apply confined_get_state | intros state].
  apply confined_ret.
Qed.

Lemma confined_end_lesson sid : confined sid (end_lesson sid).
Proof.
  intros w k Hk. unfold end_lesson, delete_session, bind, get, modify, ret.
  rewrite get_state_run.
  repeat case_match; simplify_eq; simpl;
    rewrite ?lookup_delete_ne, ?lookup_insert_ne by done; done.
Qed.






(** ** When the phrasing collaborator fails *)

(** A step that renders at once has not touched the state when it
    raises. *)
Lemma concept_step_fails_clean env concept state e :
  match concept_phase state with
  | ConceptPhase.GUIDED_PRACTICE =>
      guided_question_index state < length (guided_questions concept)
  | ConceptPhase.INDEPENDENT_PRACTICE =>
      independent_question_index state < length (independent_questions concept)
  | ConceptPhase.COMPLETED => False
  | _ => True
  end ->
  snd (concept_step env concept (concept_phase state) state) = Raise e ->
  fst (concept_step env concept (concept_phase state) state) = state.
Proof.
  intros Hready. unfold concept_step.
  destruct (concept_phase state); try done.
  - run_steps.
  - run_steps.
  - run_steps.
  - apply Nat.leb_gt in Hready as Hleb. unfold _do_guided_practice, bind, get.
    simpl. rewrite Hleb. run_steps.
  - apply Nat.leb_gt in Hready as Hleb. unfold _do_independent_practice, bind, get.
    simpl. rewrite Hleb. run_steps.
  - run_steps.
Qed.

Lemma chapter_review_fails_clean env state e :
  review_question_index state < length (review_questions counting_chapter) ->
  snd (_do_chapter_review env counting_chapter state) = Raise e ->
  fst (_do_chapter_review env counting_chapter state) = state.
Proof.
  intros Hready. apply Nat.leb_gt in Hready as Hleb.
  unfold _do_chapter_review, bind, get. simpl. rewrite Hleb. run_steps.
Qed.

Lemma continue_teaching_fails_clean env sid (w : World) state e :
  _teaching_states w !! sid = Some state ->
  renders_directly state ->
  snd (continue_teaching env sid w) = Raise e ->
  _teaching_states (fst (continue_teaching env sid w)) = _teaching_states w.
Proof.
  intros Hstate Hready.
  destruct (live_dec env sid w) as [Hlive | Hdead].
  2:{ destruct (continue_teaching_not_live _ _ _ Hdead) as [e' ->]. simpl.
      intros _. apply get_session_teaching_states. }
  unfold renders_directly in Hready.
  destruct (decide _) as [Hdone | Hopen].
  - destruct Hready as [Hphase Hleft].
    rewrite (continue_teaching_review env sid w state Hlive Hstate Hdone).
    rewrite decide_True by done.
    change (bind (ret tt) (fun _ => _do_chapter_review env counting_chapter))
      with (_do_chapter_review env counting_chapter).
    rewrite on_state_run. simpl _teaching_states. rewrite Hstate. simpl.
    intros Hraise. rewrite (chapter_review_fails_clean env state e Hleft Hraise).
    by apply insert_id.
  - destruct (concepts counting_chapter !! current_concept_index state)
      as [concept|] eqn:Hconcept; [| done].
    rewrite (continue_teaching_concept env sid w state concept Hlive Hstate Hconcept).
    2:{ intros Hphase. by rewrite Hphase in Hready. }
    rewrite on_state_run. simpl _teaching_states. rewrite Hstate. simpl.
    intros Hraise. rewrite (concept_step_fails_clean env concept state e Hready Hraise).
    by apply insert_id.
Qed.

(** A [SubmitAnswer] that fails in the phrasing collaborator had got
    past the session lookup. *)
Lemma process_response_ai_failure env sid transcript (w : World) :
  snd (process_response env sid transcript w) = Raise AIServiceError ->
  reaches_evaluation env (SubmitAnswer sid transcript) sid w = true.
Proof.
  unfold process_response, reaches_evaluation, bind at 1.
  rewrite bool_decide_eq_true_2 by done.
  rewrite get_session_run.
  destruct (_sessions w !! sid) as [session|]; [| done].
  by destruct (is_expired _ _ _).
Qed.

(** C7, as the code has it.  Take a session with a teaching state.
    - A [ContinueTeaching] at a step that is rendered at once leaves
      every teaching state as it was whenever it raises, so the request
      can be sent again.
    - [NotifySilence] never changes a teaching state.
    - A [SubmitAnswer] that fails in the phrasing collaborator has
      already counted the answer: the counters of the session have grown
      by one. *)
Theorem render_failure_effects env sid (w : World) state :
  _teaching_states w !! sid = Some state ->
  (renders_directly state ->
   forall e,
     snd (continue_teaching env sid w) = Raise e ->
     _teaching_states (fst (continue_teaching env sid w)) = _teaching_states w) /\
  _teaching_states (fst (handle_silence env sid w)) = _teaching_states w /\
  (forall transcript,
     snd (process_response env sid transcript w) = Raise AIServiceError ->
     answered (fst (process_response env sid transcript w)) sid
     = answered w sid + 1).
Proof.
  intros Hstate. split; [| split].
  - intros Hready e. by apply (continue_teaching_fails_clean env sid w state).
  - by apply (handle_silence_reads_only env sid w state).
  - intros transcript Hraise. rewrite graded_process_response.
    by rewrite (process_response_ai_failure _ _ _ _ Hraise).
Qed.

(** ** After the celebration *)

(** A session that has completed its lesson is sent back into the
    chapter review by the next [ContinueTeaching], whether or not the
    review question can be phrased. *)
Lemma continue_after_completed env sid (w : World) state :
  live env sid w ->
  _teaching_states w !! sid = Some state ->
  total_concepts counting_chapter <= current_concept_index state ->
  lesson_phase state = LessonPhase.COMPLETED ->
  review_questions counting_chapter <> [] ->
  lesson_phase <$> _teaching_states (fst (continue_teaching env sid w)) !! sid
  = Some LessonPhase.CHAPTER_REVIEW.
Proof.
  intros Hlive Hstate Hdone Hphase Hreview.
  rewrite (continue_teaching_review env sid w state Hlive Hstate Hdone).
  rewrite decide_False by (rewrite Hphase; discriminate).
  rewrite on_state_run. simpl _teaching_states. rewrite Hstate. simpl.
  rewrite lookup_insert_eq. simpl. f_equal.
  unfold _do_chapter_review, bind, modify, get. simpl.
  destruct (review_questions counting_chapter) as [|question questions]; [done |].
  simpl. unfold ai. by destruct (generate_response env _); run_steps.
Qed.

(** * Further properties of the service *)

(** ** The session lookup *)

Lemma bind_raise_run {S A B} (m : SE S A) (k : A -> SE S B) (s s' : S) (e : Exn) :
  m s = (s', Raise e) -> bind m k s = (s', Raise e).
Proof. unfold bind. by intros ->. Qed.

(** What a request that looks its session up does when the lookup
    raises: nothing more. *)
Lemma lookup_raises env r (w : World) e :
  looks_up r = true ->
  snd (get_session env (target env r) w) = Raise e ->
  serve env r w = fst (get_session env (target env r) w) /\
  failure env r w = Some e.
Proof.
  intros Hr Hraise.
  destruct (get_session env (target env r) w) as [w' res] eqn:Hlookup.
  simpl in Hraise. subst res.
  destruct r as [g subj les|sid|sid transcript|sid|sid]; try done;
    simpl in *.
  - unfold continue_teaching. cbn [continue_teaching_rec].
    unfold continue_teaching_body.
    by rewrite (bind_raise_run _ _ _ _ _ Hlookup).
  - unfold process_response. by rewrite (bind_raise_run _ _ _ _ _ Hlookup).
  - unfold handle_silence. by rewrite (bind_raise_run _ _ _ _ _ Hlookup).
Qed.

Lemma unknown_session_gone env r (w : World) :
  looks_up r = true ->
  _sessions w !! target env r = None ->
  failure env r w = Some SessionNotFoundError.
Proof.
  intros Hr Hunknown.
  apply (lookup_raises env r w SessionNotFoundError Hr).
  by rewrite get_session_run, Hunknown.
Qed.

(** X1.  A request for a session the store does not know
    ([ContinueTeaching], [SubmitAnswer] or [NotifySilence]) raises
    [SessionNotFoundError] and changes nothing: no session entry, no
    teaching state is created or written. *)
Theorem unknown_session_rejected env r (w : World) :
  looks_up r = true ->
  _sessions w !! target env r = None ->
  serve env r w = w /\ failure env r w = Some SessionNotFoundError.
Proof.
  intros Hr Hunknown.
  destruct (lookup_raises env r w SessionNotFoundError Hr) as [Hserve Hfail].
  - by rewrite get_session_run, Hunknown.
  - split; [| done]. rewrite Hserve. by rewrite get_session_run, Hunknown.
Qed.

(** X2.  A request for a session that has timed out raises
    [SessionExpiredError] and removes the session entry, but leaves
    every teaching state in place, the one of the expired session
    included; the next request for that session is answered with
    [SessionNotFoundError]. *)
Theorem expired_session_rejected env env' r r' (w : World) session :
  looks_up r = true ->
  looks_up r' = true ->
  target env' r' = target env r ->
  _sessions w !! target env r = Some session ->
  is_expired SESSION_TIMEOUT_SECONDS (now env) session = true ->
  failure env r w = Some SessionExpiredError /\
  _sessions (serve env r w) = delete (target env r) (_sessions w) /\
  _teaching_states (serve env r w) = _teaching_states w /\
  failure env' r' (serve env r w) = Some SessionNotFoundError.
Proof.
  intros Hr Hr' Htarget Hsession Hexpired.
  assert (Hlookup : get_session env (target env r) w
                    = (set_sessions (delete (target env r)) w,
                       Raise SessionExpiredError)).
  { by rewrite get_session_run, Hsession, Hexpired. }
  destruct (lookup_raises env r w SessionExpiredError Hr) as [Hserve Hfail].
  { by rewrite Hlookup. }
  rewrite Hserve, Hlookup. simpl. repeat split; try done.
  apply unknown_session_gone; [done |].
  simpl. rewrite Htarget. apply lookup_delete_eq.
Qed.

(** ** The session store under the service *)

Lemma sconfined_ret {A} sid (a : A) : sconfined sid (ret a).
Proof. by intros w k _. Qed.


Lemma sconfined_bind {A B} sid (m : SE World A) (k : A -> SE World B) :
  sconfined sid m -> (forall a, sconfined sid (k a)) -> sconfined sid (bind m k).
Proof.
  intros Hm Hk w j Hj. unfold bind. specialize (Hm w j Hj).
  destruct (m w) as [w' [a|e]]; simpl in *; [| done].
  by rewrite Hk.
Qed.


Lemma sconfined_get_state sid sid' : sconfined sid (_get_state sid').
Proof.
  intros w k _. rewrite get_state_run. by destruct (_teaching_states w !! sid').
Qed.

Lemma sconfined_get_chapter sid les :
  sconfined sid (@get_chapter_or_counting World les).
Proof. intros w k _. by rewrite get_chapter_or_counting_run. Qed.

Lemma sconfined_ai sid env messages : sconfined sid (@ai World env messages).
Proof. intros w k _. unfold ai. by destruct (generate_response _ _). Qed.

Lemma sconfined_on_state {A} sid sid' (m : SE TeachingState A) :
  sconfined sid (on_state sid' m).
Proof. intros w k _. by rewrite on_state_run. Qed.




Lemma sconfined_start_lesson env g subj les :
  sconfined (uuid4 env) (start_lesson env g subj les).
Proof.
  intros w k Hk. unfold start_lesson. destruct (negb _); [done |].
  unfold create_session. unfold bind at 1. unfold bind at 1. simpl.
  set (w1 := set_sessions _ w).
  assert (Hw1 : _sessions w1 !! k = _sessions w !! k).
  { unfold w1. simpl. by rewrite lookup_insert_ne. }
  rewrite <- Hw1.
  match goal with
  | |- _sessions (fst (?m w1)) !! k = _ =>
      assert (Hrest : sconfined (uuid4 env) m); [| by apply Hrest]
  end.
  apply sconfined_bind; [apply sconfined_get_chapter | intros chapter].
  apply sconfined_bind; [apply sconfined_get_state | intros _].
  apply sconfined_bind; [apply sconfined_on_state | intros _].
  apply sconfined_bind; [apply sconfined_ai | intros ai_text].
  destruct (_process_response _ _ _) as [clean_text image_url].
  apply sconfined_bind; [apply sconfined_on_state | intros _].
  apply sconfined_bind; [| intros session'].
  { unfold update_session. apply sconfined_bind; [| intros _; apply sconfined_ret].
    intros w' k' Hk'. simpl. by rewrite lookup_insert_ne. }
  apply sconfined_bind; [apply sconfined_get_state | intros state].
  apply sconfined_ret.
Qed.


(** [end_lesson] leaves the world without the session, for any world. *)
Lemma end_lesson_forgets sid (w : World) :
  fst (end_lesson sid w) = forget sid w /\
  result_value (snd (end_lesson sid w))
  = Some (summary_of (state_at w sid), farewell (summary_of (state_at w sid))).
Proof.
  destruct w as [sessions states].
  unfold end_lesson, delete_session, bind. rewrite get_state_run.
  unfold forget, state_at, get, modify, ret. simpl.
  destruct (states !! sid) as [state|] eqn:Hstate; simpl.
  - rewrite Hstate. simpl.
    destruct (sessions !! sid) eqn:Hsession; simpl; [done |].
    by rewrite (delete_id sessions).
  - rewrite lookup_insert_eq. simpl.
    destruct (sessions !! sid) eqn:Hsession; unfold set_teaching_states;
      simpl; rewrite delete_insert_eq; [done |].
    by rewrite (delete_id sessions).
Qed.


(** X4.  Starting a lesson under an unused identifier and ending it
    restores the world exactly, whether the welcome could be phrased or
    not: nothing of the session is left in either dictionary. *)
Theorem start_then_end_restores env g subj les (w : World) :
  _sessions w !! uuid4 env = None ->
  _teaching_states w !! uuid4 env = None ->
  serve env (EndLesson (uuid4 env)) (serve env (StartLesson g subj les) w) = w.
Proof.
  intros Hsession Hstate. cbn [serve].
  set (w1 := fst (start_lesson env g subj les w)).
  destruct (end_lesson_forgets (uuid4 env) w1) as [-> _].
  destruct w as [sessions states]. unfold forget. simpl in *. f_equal.
  - apply map_eq. intros k. destruct (decide (k = uuid4 env)) as [->|Hk].
    + by rewrite lookup_delete_eq.
    + rewrite lookup_delete_ne by done.
      by apply (sconfined_start_lesson env g subj les
                  {| _sessions := sessions; _teaching_states := states |}).
  - apply map_eq. intros k. destruct (decide (k = uuid4 env)) as [->|Hk].
    + by rewrite lookup_delete_eq.
    + rewrite lookup_delete_ne by done.
      by apply (confined_start_lesson env g subj les
                  {| _sessions := sessions; _teaching_states := states |}).
Qed.

(** X5.  [start_lesson] creates before it renders: when the welcome
    cannot be phrased it raises [AIServiceError], and the session it
    created and a teaching state in lesson phase WELCOME stay behind
    under an identifier the caller was never told. *)
Theorem start_lesson_render_failure env g subj les (w : World) :
  is_chapter_available g subj les = true ->
  generate_response env (build_welcome_prompt (chapter_title counting_chapter))
  = None ->
  snd (start_lesson env g subj les w) = Raise AIServiceError /\
  _sessions (fst (start_lesson env g subj les w)) !! uuid4 env
  = Some (Session_new (uuid4 env) (now env) g subj les) /\
  _teaching_states (fst (start_lesson env g subj les w)) !! uuid4 env
  = Some (set_lesson_phase (state_at w (uuid4 env)) LessonPhase.WELCOME).
Proof.
  intros Havailable Hai. unfold start_lesson. rewrite Havailable. cbn [negb].
  unfold create_session, bind, modify, ret. simpl.
  rewrite get_chapter_or_counting_run, get_state_run. simpl.
  unfold state_at.
  destruct (_teaching_states w !! uuid4 env) as [state|] eqn:Hstate;
    unfold ai; rewrite Hai; simpl;
    repeat (progress (rewrite ?Hstate, ?lookup_insert_eq; simpl)); done.
Qed.

(** ** Activity keeps a session alive *)

Lemma update_activity_same clock session :
  last_activity session = clock -> update_activity clock session = session.
Proof. destruct session. simpl. by intros ->. Qed.

Lemma get_session_refreshed env sid (w : World) session :
  (0 <= SESSION_TIMEOUT_SECONDS)%Z ->
  _sessions w !! sid = Some session ->
  last_activity session = now env ->
  get_session env sid w = (w, Ok session).
Proof.
  intros Htimeout Hsession Hstamp. rewrite get_session_run, Hsession.
  unfold is_expired. rewrite Hstamp, Z.sub_diag.
  rewrite (proj2 (Z.ltb_ge _ _) Htimeout).
  rewrite (update_activity_same _ _ Hstamp). f_equal.
  destruct w as [sessions states]. unfold set_sessions. simpl in *.
  by rewrite insert_id.
Qed.

Section Settled.
Context (env : Env) (sid : string).
Hypothesis timeout_nonneg : (0 <= SESSION_TIMEOUT_SECONDS)%Z.

Lemma settled_ret {A} (a : A) : settled env sid (ret a).
Proof. by intros w _. Qed.

Lemma settled_raise {A} (e : Exn) : settled env sid (@raise World A e).
Proof. by intros w _. Qed.

Lemma settled_bind {A B} (m : SE World A) (k : A -> SE World B) :
  settled env sid m -> (forall a, settled env sid (k a)) ->
  settled env sid (bind m k).
Proof.
  intros Hm Hk w Hw. unfold bind. specialize (Hm w Hw).
  destruct (m w) as [w' [a|e]]; simpl in *; [| done].
  rewrite Hk; [done |]. unfold refreshed. by rewrite Hm.
Qed.

Lemma settled_get_session : settled env sid (get_session env sid).
Proof.
  intros w (session & Hsession & Hstamp).
  by rewrite (get_session_refreshed env sid w session).
Qed.

Lemma settled_get_state sid' : settled env sid (_get_state sid').
Proof.
  intros w _. rewrite get_state_run. by destruct (_teaching_states w !! sid').
Qed.

Lemma settled_get_chapter les :
  settled env sid (@get_chapter_or_counting World les).
Proof. intros w _. by rewrite get_chapter_or_counting_run. Qed.

Lemma settled_on_state {A} sid' (m : SE TeachingState A) :
  settled env sid (on_state sid' m).
Proof. intros w _. by rewrite on_state_run. Qed.

Lemma settled_continue_teaching_rec depth :
  settled env sid (continue_teaching_rec depth env sid).
Proof.
  induction depth as [|depth IH]; [apply settled_raise |].
  cbn [continue_teaching_rec]. unfold continue_teaching_body.
  apply settled_bind; [apply settled_get_session | intros session].
  apply settled_bind; [apply settled_get_state | intros state].
  apply settled_bind; [apply settled_get_chapter | intros chapter].
  destruct (_ <=? _); [apply settled_on_state |].
  destruct (_ !! _) as [concept|]; [| apply settled_raise].
  destruct (concept_phase state); try apply settled_on_state.
  apply settled_bind; [apply settled_on_state | done].
Qed.

Lemma settled_process_response transcript :
  settled env sid (process_response env sid transcript).
Proof.
  unfold process_response.
  apply settled_bind; [apply settled_get_session | intros session].
  apply settled_bind; [apply settled_get_state | intros state].
  apply settled_bind; [apply settled_get_chapter | intros chapter].
  destruct (_evaluate_answer _ _).
  - apply settled_bind; [apply settled_on_state | intros _].
    unfold _handle_correct_answer.
    apply settled_bind; [apply settled_on_state | intros praise_text].
    apply settled_bind; [apply settled_on_state | intros _].
    apply settled_bind; [apply settled_continue_teaching_rec | intros next].
    apply settled_ret.
  - apply settled_bind; [apply settled_on_state | intros _].
    apply settled_on_state.
Qed.

Lemma settled_handle_silence : settled env sid (handle_silence env sid).
Proof.
  unfold handle_silence.
  apply settled_bind; [apply settled_get_session | intros session].
  apply settled_bind; [apply settled_get_state | intros state].
  apply settled_bind; [apply settled_get_chapter | intros chapter].
  apply settled_on_state.
Qed.

End Settled.

(** Looking the session up a second time in the same request changes
    nothing, so a request may as well start from the refreshed world. *)
Lemma serve_from_refreshed env r (w w1 : World) session :
  looks_up r = true ->
  get_session env (target env r) w = (w1, Ok session) ->
  get_session env (target env r) w1 = (w1, Ok session) ->
  serve env r w = serve env r w1.
Proof.
  intros Hr Hfirst Hagain.
  destruct r as [g subj les|sid|sid transcript|sid|sid]; try done; simpl in *.
  - unfold continue_teaching. cbn [continue_teaching_rec].
    unfold continue_teaching_body.
    by rewrite (bind_ok _ _ _ _ _ Hfirst), (bind_ok _ _ _ _ _ Hagain).
  - unfold process_response.
    by rewrite (bind_ok _ _ _ _ _ Hfirst), (bind_ok _ _ _ _ _ Hagain).
  - unfold handle_silence.
    by rewrite (bind_ok _ _ _ _ _ Hfirst), (bind_ok _ _ _ _ _ Hagain).
Qed.

(** What a request that finds its session leaves in the session store:
    the same entries, with the activity stamp of its session set to the
    time of the request. *)
Lemma sessions_after_request env r (w : World) session :
  (0 <= SESSION_TIMEOUT_SECONDS)%Z ->
  looks_up r = true ->
  _sessions w !! target env r = Some session ->
  is_expired SESSION_TIMEOUT_SECONDS (now env) session = false ->
  _sessions (serve env r w)
  = <[target env r := update_activity (now env) session]> (_sessions w).
Proof.
  intros Htimeout Hr Hsession Hfresh.
  set (sid := target env r) in *.
  set (w1 := set_sessions <[sid := update_activity (now env) session]> w).
  assert (Hfirst : get_session env sid w
                   = (w1, Ok (update_activity (now env) session))).
  { by rewrite get_session_run, Hsession, Hfresh. }
  assert (Hstored : _sessions w1 !! sid = Some (update_activity (now env) session)).
  { unfold w1. simpl. apply lookup_insert_eq. }
  assert (Hagain : get_session env sid w1
                   = (w1, Ok (update_activity (now env) session))).
  { by apply get_session_refreshed. }
  rewrite (serve_from_refreshed env r w w1 _ Hr Hfirst Hagain).
  assert (Hrefreshed : refreshed env sid w1) by (by eexists).
  change (_sessions w1) with (<[sid := update_activity (now env) session]> (_sessions w))
    in Hstored |- *.
  change (<[sid := update_activity (now env) session]> (_sessions w))
    with (_sessions w1).
  destruct r as [g subj les|sid'|sid' transcript|sid'|sid']; try done;
    simpl in *.
  - by apply (settled_continue_teaching_rec env sid' Htimeout).
  - by apply (settled_process_response env sid' Htimeout).
  - by apply (settled_handle_silence env sid' Htimeout).
Qed.

(** X6.  Expiry slides with activity.  With a non-negative timeout, a
    request that finds its session alive, whatever it then does and
    however it ends, leaves the session alive for every later request
    that comes within the timeout, counted from this request. *)
Theorem activity_keeps_session_alive env env' r (w : World) :
  (0 <= SESSION_TIMEOUT_SECONDS)%Z ->
  looks_up r = true ->
  live env (target env r) w ->
  (now env' - now env <= SESSION_TIMEOUT_SECONDS)%Z ->
  live env' (target env r) (serve env r w).
Proof.
  intros Htimeout Hr (session & Hsession & Hfresh) Hsoon.
  exists (update_activity (now env) session).
  rewrite (sessions_after_request env r w session) by done.
  split; [apply lookup_insert_eq |].
  unfold is_expired. simpl. apply Z.ltb_ge. lia.
Qed.

(** ** The exceptions a request can end with *)



















(** ** What a response shows *)

Lemma ensures_bind {A B} sid (Q : TeachingState -> B -> Prop)
    (m : SE World A) (k : A -> SE World B) :
  (forall a, ensures sid Q (k a)) -> ensures sid Q (bind m k).
Proof.
  intros Hk w w' b. unfold bind.
  destruct (m w) as [w1 [a|e]]; [apply Hk | done].
Qed.

Lemma ensures_raise {A} sid (Q : TeachingState -> A -> Prop) e :
  ensures sid Q (raise e).
Proof. by intros w w' a. Qed.

Lemma ensures_on_state {A} sid (Q : TeachingState -> A -> Prop)
    (m : SE TeachingState A) :
  ensuresT Q m -> ensures sid Q (on_state sid m).
Proof.
  intros Hm w w' a. rewrite on_state_run. intros [= <- Ha].
  unfold state_at. simpl. rewrite lookup_insert_eq. simpl.
  apply (Hm (default TeachingState_new (_teaching_states w !! sid))).
  by destruct (m _) as [state' r]; simpl in *; subst.
Qed.

Lemma ensures_then {A B} sid (Q : TeachingState -> A -> Prop)
    (Q' : TeachingState -> B -> Prop) (m : SE World A) (f : A -> B) :
  ensures sid Q m -> (forall state a, Q state a -> Q' state (f a)) ->
  ensures sid Q' (bind m (fun a => ret (f a))).
Proof.
  intros Hm Hf w w' b. unfold bind, ret.
  specialize (Hm w). destruct (m w) as [w1 [a|e]]; [| done].
  intros [= <- <-]. by apply Hf, (Hm w1).
Qed.

Lemma get_state_reads sid (w w' : World) state :
  _get_state sid w = (w', Ok state) -> state = state_at w' sid.
Proof.
  rewrite get_state_run. unfold state_at.
  destruct (_teaching_states w !! sid) as [state0|] eqn:Hstate;
    intros [= <- <-]; simpl.
  - by rewrite Hstate.
  - by rewrite lookup_insert_eq.
Qed.

(** The steps of the service, for a property [Q] of a response and the
    teaching state it is returned with. *)
Section Ensured.
Context (Q : TeachingState -> LearnoResponse -> Prop).
Hypothesis Q_steps :
  forall env,
    (forall concept, ensuresT Q (_do_introduction env concept counting_chapter)) /\
    (forall concept, ensuresT Q (_do_explanation env concept counting_chapter)) /\
    (forall concept, ensuresT Q (_do_visual_example env concept counting_chapter)) /\
    (forall concept, ensuresT Q (_do_mastery_check env concept counting_chapter)) /\
    (forall concept,
       ensuresT Q (_do_independent_practice env concept counting_chapter)) /\
    (forall concept, ensuresT Q (_do_guided_practice env concept counting_chapter)) /\
    (forall enter : SE TeachingState unit,
       ensuresT Q (bind enter (fun _ => _do_chapter_review env counting_chapter))) /\
    (forall transcript,
       ensuresT Q (_handle_wrong_answer env counting_chapter transcript)).
Hypothesis Q_praised :
  forall state praise_text r, Q state r -> Q state (praised praise_text r).
Hypothesis Q_rendered :
  forall env state ai_text rtype,
    Q state
      (respond state counting_chapter (fst (_process_response env ai_text None))
         rtype (snd (_process_response env ai_text None)) false).

Lemma ensured_continue_teaching_rec depth env sid :
  ensures sid Q (continue_teaching_rec depth env sid).
Proof.
  induction depth as [|depth IH]; [apply ensures_raise |].
  cbn [continue_teaching_rec]. unfold continue_teaching_body.
  destruct (Q_steps env) as (Hi & He & Hv & Hm & Hp & Hg & Hr & _).
  apply ensures_bind. intros session.
  apply ensures_bind. intros state.
  intros w w' r. unfold bind at 1. rewrite get_chapter_or_counting_run.
  revert w w' r.
  change (ensures sid Q
    (if total_concepts counting_chapter <=? current_concept_index state
     then on_state sid
            (bind (if decide (lesson_phase state = LessonPhase.CHAPTER_REVIEW)
                   then ret tt
                   else modify (fun state =>
                                  set_review_question_index
                                    (set_lesson_phase state
                                       LessonPhase.CHAPTER_REVIEW) 0))
               (fun _ => _do_chapter_review env counting_chapter))
     else match concepts counting_chapter !! current_concept_index state with
          | None => raise IndexError
          | Some concept =>
              match concept_phase state with
              | ConceptPhase.INTRODUCTION =>
                  on_state sid (_do_introduction env concept counting_chapter)
              | ConceptPhase.EXPLANATION =>
                  on_state sid (_do_explanation env concept counting_chapter)
              | ConceptPhase.VISUAL_EXAMPLE =>
                  on_state sid (_do_visual_example env concept counting_chapter)
              | ConceptPhase.GUIDED_PRACTICE =>
                  on_state sid (_do_guided_practice env concept counting_chapter)
              | ConceptPhase.INDEPENDENT_PRACTICE =>
                  on_state sid (_do_independent_practice env concept counting_chapter)
              | ConceptPhase.CONCEPT_CHECK =>
                  on_state sid (_do_mastery_check env concept counting_chapter)
              | ConceptPhase.COMPLETED =>
                  bind (on_state sid
                          (modify (fun state =>
                                     reset_attempts
                                       (set_concept_phase
                                          (set_current_concept_index state
                                             (current_concept_index state + 1))
                                          ConceptPhase.INTRODUCTION))))
                    (fun _ => continue_teaching_rec depth env sid)
              end
          end)).
  destruct (_ <=? _); [apply ensures_on_state, Hr |].
  destruct (concepts counting_chapter !! current_concept_index state)
    as [concept|]; [| apply ensures_raise].
  destruct (concept_phase state); try (apply ensures_on_state; done).
  by apply ensures_bind.
Qed.

Lemma ensured_process_response env sid transcript :
  ensures sid Q (process_response env sid transcript).
Proof.
  destruct (Q_steps env) as (_ & _ & _ & _ & _ & _ & _ & Hw).
  unfold process_response.
  apply ensures_bind. intros session.
  apply ensures_bind. intros state.
  intros w w' r. unfold bind at 1. rewrite get_chapter_or_counting_run.
  revert w w' r.
  change (ensures sid Q
    (if _evaluate_answer transcript state
     then bind (on_state sid (modify record_correct))
            (fun _ => _handle_correct_answer env sid counting_chapter)
     else bind (on_state sid (modify record_wrong))
            (fun _ => on_state sid
                        (_handle_wrong_answer env counting_chapter transcript)))).
  destruct (_evaluate_answer _ _).
  - apply ensures_bind. intros _. unfold _handle_correct_answer.
    apply ensures_bind. intros praise_text. apply ensures_bind. intros _.
    apply (ensures_then sid Q); [apply ensured_continue_teaching_rec |].
    intros st next. apply Q_praised.
  - apply ensures_bind. intros _. apply ensures_on_state, Hw.
Qed.

Lemma ensured_handle_silence env sid :
  ensures sid Q (handle_silence env sid).
Proof.
  unfold handle_silence.
  apply ensures_bind. intros session.
  apply ensures_bind. intros state.
  intros w w' r. unfold bind at 1. rewrite get_chapter_or_counting_run.
  revert w w' r. apply ensures_on_state.
  intros st st' r. unfold bind, get, ai, ret. simpl.
  destruct (generate_response env _) as [ai_text|]; [| done].
  pose proof (Q_rendered env st ai_text "silence_hint") as HQ.
  destruct (_process_response _ _ _). by intros [= <- <-].
Qed.

Lemma ensured_start_lesson env g subj les (w w' : World) session r :
  start_lesson env g subj les w = (w', Ok (session, r)) ->
  Q (state_at w' (uuid4 env)) r.
Proof.
  unfold start_lesson. destruct (negb _); [done |].
  unfold create_session, update_session, bind at 1 2, modify at 1. simpl.
  unfold bind at 1. rewrite get_chapter_or_counting_run.
  unfold bind at 1. destruct (_get_state _ _) as [w1 [state0|e]]; [| done].
  unfold bind at 1. rewrite on_state_run. simpl.
  unfold bind at 1, ai. destruct (generate_response env _) as [ai_text|]; [| done].
  unfold ret at 1.
  pose proof (fun st => Q_rendered env st ai_text "welcome") as HQ.
  destruct (_process_response _ _ _) as [clean_text image_url].
  unfold bind at 1. rewrite on_state_run. simpl.
  unfold bind at 1 2, modify at 1, ret at 1. simpl.
  unfold bind. destruct (_get_state _ _) as [w2 [state|e]] eqn:Hstate; [| done].
  apply get_state_reads in Hstate. intros [= <- <- <-]. subst state. apply HQ.
Qed.

Lemma ensured_reply env r (w : World) resp :
  reply env r w = Some resp ->
  Q (state_at (serve env r w) (target env r)) resp.
Proof.
  assert (Hvalue : forall {A} (x : World * Result A) a,
             result_value (snd x) = Some a -> x = (fst x, Ok a)).
  { intros A [w' [a'|e]] a; simpl; [by intros [= ->] | done]. }
  destruct r as [g subj les|sid|sid transcript|sid|sid]; simpl; try done.
  - destruct (start_lesson env g subj les w) as [w' [[session r]|e]] eqn:Hrun;
      simpl; [| done].
    intros [= <-]. by apply (ensured_start_lesson env g subj les w w' session).
  - intros Hreply%Hvalue. by apply (ensured_continue_teaching_rec 2 env sid w).
  - intros Hreply%Hvalue. by apply (ensured_process_response env sid transcript w).
  - intros Hreply%Hvalue. by apply (ensured_handle_silence env sid w).
Qed.

End Ensured.

(** The part of it that [end_lesson] reads. *)
Lemma reply_progress env r (w : World) resp :
  reply env r w = Some resp ->
  progress_info resp
  = Some (_get_progress_info (state_at (serve env r w) (target env r))
            counting_chapter) /\
  (is_lesson_complete resp = true ->
   lesson_phase (state_at (serve env r w) (target env r))
   = LessonPhase.COMPLETED).
Proof.
  apply (ensured_reply
           (fun state resp =>
              progress_info resp = Some (_get_progress_info state counting_chapter) /\
              (is_lesson_complete resp = true ->
               lesson_phase state = LessonPhase.COMPLETED))).
  - intros env'. repeat apply conj;
      intros ? state state' r'; run_steps; intros [= <- <-]; by split.
  - by intros state praise_text r' [Hinfo Hcomplete].
  - intros env' state ai_text rtype. by split.
Qed.

(** X8.  Whatever a request returns shows the teaching state as the
    request leaves it: the progress snapshot of every response is the one
    of the state stored for the session after the request, and a response
    flags the lesson as complete only when it is the celebration and that
    state is in lesson phase COMPLETED. *)
Theorem reply_shows_stored_state env r (w : World) resp :
  reply env r w = Some resp ->
  current_snapshot (state_at (serve env r w) (target env r)) resp.
Proof.
  apply ensured_reply.
  - intros env'. repeat apply conj;
      intros ? state state' r'; run_steps; intros [= <- <-]; by split.
  - by intros state praise_text r' [Hinfo Hcomplete].
  - intros env' state ai_text rtype. by split.
Qed.

(** What [_process_response] returns as the url of an image is a
    url: not the empty string. *)
Lemma process_response_url env ai_text force_image_prompt :
  snd (_process_response env ai_text force_image_prompt) <> Some "".
Proof.
  unfold _process_response.
  destruct (PyStr.truthy (extract_image_request ai_text)).
  - simpl. destruct (fst (generate_image_sync env _)) as [[|c url]|]; done.
  - destruct (PyStr.truthy force_image_prompt); [| done].
    simpl. destruct (fst (generate_image_sync env _)) as [[|c url]|]; done.
Qed.

(** X26.  No response but the visual example carries an empty image
    url.  Whatever the language model and the image model do, the image
    url of a response of any other type is absent or a non-empty
    string; the visual example passes on what the image model returned
    as it is. *)
Theorem image_url_is_never_empty env r (w : World) resp :
  reply env r w = Some resp ->
  response_type resp <> "visual_example" ->
  image_url resp <> Some "".
Proof.
  intros Hreply.
  apply (ensured_reply
           (fun _ resp =>
              response_type resp <> "visual_example" -> image_url resp <> Some "")
           ) with (env := env) (r := r) (w := w); [| | | done].
  - intros env'. repeat apply conj;
      intros ? state state' r'; run_steps; intros [= <- <-]; simpl;
      intros Htype; try done;
      repeat match goal with
        | H : _process_response ?e ?t ?f = (_, ?u) |- ?u <> Some "" =>
            let Hurl := fresh "Hurl" in
            pose proof (process_response_url e t f) as Hurl;
            rewrite H in Hurl; exact Hurl
        end.
    all: try (match goal with
              | H : PyStr.truthy ?u = true |- ?u <> Some "" =>
                  let Heq := fresh "Heq" in
                  intros Heq; rewrite Heq in H; discriminate H
              end).
    all: try (match goal with
              | H : _process_response ?e ?t ?f = (_, ?u) |- _ =>
                  let Hurl := fresh "Hurl" in
                  pose proof (process_response_url e t f) as Hurl;
                  rewrite H in Hurl; simpl in Hurl
              end; done).
  - intros state praise_text r'. simpl. tauto.
  - intros env' state ai_text rtype _. simpl. apply process_response_url.
Qed.


(** ** Wrong answers *)

Lemma touched_teaching_states env sid (w : World) :
  _teaching_states (touched env sid w) = _teaching_states w.
Proof. reflexivity. Qed.

Lemma evaluate_position transcript state state' :
  position state = position state' ->
  _evaluate_answer transcript state = _evaluate_answer transcript state'.
Proof.
  unfold position, _evaluate_answer. intros [= _ _ _ _ _ _ Hexpected Hacceptable _].
  by rewrite Hexpected, Hacceptable.
Qed.

Lemma position_record_wrong state : position (record_wrong state) = position state.
Proof. unfold record_wrong. by case_match. Qed.

Lemma process_response_wrong env sid transcript (w : World) state :
  live env sid w ->
  _teaching_states w !! sid = Some state ->
  _evaluate_answer transcript state = false ->
  process_response env sid transcript w
  = on_state sid (_handle_wrong_answer env counting_chapter transcript)
      (set_teaching_states <[sid := record_wrong state]> (touched env sid w)).
Proof.
  intros Hlive Hstate Hwrong.
  destruct (get_session_live _ _ _ Hlive) as [session Hsession].
  unfold process_response.
  rewrite (bind_ok _ _ _ _ _ Hsession).
  erewrite bind_ok; [| by rewrite get_state_run; simpl; rewrite Hstate].
  erewrite bind_ok; [| apply get_chapter_or_counting_run].
  rewrite Hwrong. unfold bind at 1. rewrite on_state_run. simpl.
  by rewrite Hstate.
Qed.

Lemma record_wrong_fields state :
  current_expected_answer (record_wrong state) = current_expected_answer state /\
  current_hint (record_wrong state) = current_hint state /\
  current_attempts (record_wrong state) = current_attempts state + 1 /\
  consecutive_wrong (record_wrong state) = consecutive_wrong state + 1 /\
  total_wrong (record_wrong state) = total_wrong state + 1 /\
  total_correct (record_wrong state) = total_correct state /\
  needs_extra_help (record_wrong state)
  = needs_extra_help state || (3 <=? consecutive_wrong state + 1).
Proof.
  unfold record_wrong. set (help := 3 <=? _).
  assert (Hhelp : help = (3 <=? consecutive_wrong state + 1)) by reflexivity.
  clearbody help. subst help.
  destruct (3 <=? consecutive_wrong state + 1); simpl;
    rewrite ?orb_true_r, ?orb_false_r; by repeat split.
Qed.

Lemma wrong_answer_stored env sid transcript (w : World) state :
  live env sid w ->
  _teaching_states w !! sid = Some state ->
  _evaluate_answer transcript state = false ->
  _teaching_states (serve env (SubmitAnswer sid transcript) w)
  = <[sid := record_wrong state]> (_teaching_states w).
Proof.
  intros Hlive Hstate Hwrong. cbn [serve].
  rewrite (process_response_wrong env sid transcript w state) by done.
  rewrite on_state_run. simpl. rewrite lookup_insert_eq. simpl.
  rewrite insert_insert_eq. f_equal.
  unfold _handle_wrong_answer, bind, get, ai, ret. simpl.
  destruct (generate_response env _); [| done].
  by destruct (_process_response _ _ _).
Qed.

(** X9.  A wrong answer, end to end.  For a live session whose teaching
    state grades the transcript as wrong, the request stores exactly
    [record_wrong] of that state, whether or not the hint is then
    phrased: the counters move and the position in the lesson, with the
    pending question, stays.  The hint is asked for with the number of
    attempts that includes this answer and with the extra-help flag as
    [record_wrong] has just set it; the response, when the hint is
    phrased, is of type "hint". *)
Theorem wrong_answer_effect env sid transcript (w : World) state :
  live env sid w ->
  _teaching_states w !! sid = Some state ->
  _evaluate_answer transcript state = false ->
  _teaching_states (serve env (SubmitAnswer sid transcript) w)
  = <[sid := record_wrong state]> (_teaching_states w) /\
  position (record_wrong state) = position state /\
  reply env (SubmitAnswer sid transcript) w
  = (fun ai_text =>
       respond (record_wrong state) counting_chapter
         (fst (_process_response env ai_text None)) "hint"
         (snd (_process_response env ai_text None)) false)
    <$> generate_response env
          (build_hint_prompt transcript
             (default "" (current_expected_answer state))
             (current_hint state) (current_attempts state + 1)
             (needs_extra_help state || (3 <=? consecutive_wrong state + 1))
             false).
Proof.
  intros Hlive Hstate Hwrong.
  split; [by apply wrong_answer_stored |].
  split; [apply position_record_wrong |]. cbn [reply].
  rewrite (process_response_wrong env sid transcript w state) by done.
  rewrite on_state_run. simpl. rewrite lookup_insert_eq. simpl.
  unfold _handle_wrong_answer, bind, get, ai, ret. simpl.
  destruct (record_wrong_fields state) as (-> & -> & -> & _ & _ & _ & ->).
  destruct (generate_response env _); [| done]. simpl.
  by destruct (_process_response _ _ _).
Qed.

(** X10.  Wrong answers in a row.  Let the requests of a trace reach
    a session no more than the timeout apart, each an answer that the
    pending question grades as wrong.  Then, whatever the collaborators
    do, the session stays where it is in the lesson, its attempts, its
    consecutive wrong answers and its total of wrong answers have each
    grown by the length of the trace, and the extra-help flag is set
    if it was set before or if the run of consecutive wrong answers has
    reached three. *)
Theorem wrong_answers_in_a_row trace sid (w : World) session state :
  (0 <= SESSION_TIMEOUT_SECONDS)%Z ->
  _sessions w !! sid = Some session ->
  _teaching_states w !! sid = Some state ->
  paced (last_activity session) trace ->
  Forall (wrong_answer sid state) trace ->
  exists state',
    _teaching_states (serve_all trace w) !! sid = Some state' /\
    position state' = position state /\
    current_attempts state' = current_attempts state + length trace /\
    consecutive_wrong state' = consecutive_wrong state + length trace /\
    total_wrong state' = total_wrong state + length trace /\
    total_correct state' = total_correct state /\
    needs_extra_help state'
    = needs_extra_help state
      || (0 <? length trace) && (3 <=? consecutive_wrong state + length trace).
Proof.
  intros Htimeout. revert w session state.
  induction trace as [|[env r] trace IH]; intros w session state Hsession Hstate Hpaced Hwrong.
  { exists state. simpl. rewrite !Nat.add_0_r, orb_false_r. by repeat split. }
  apply Forall_cons in Hwrong as [(transcript & Hr & Hgrade) Hwrong].
  simpl in Hr. subst r. destruct Hpaced as [Hsoon Hpaced].
  assert (Hfresh : is_expired SESSION_TIMEOUT_SECONDS (now env) session = false).
  { unfold is_expired. apply Z.ltb_ge. lia. }
  assert (Hlive : live env sid w) by (by exists session).
  pose proof (wrong_answer_stored env sid transcript w state Hlive Hstate Hgrade)
    as Hstates.
  pose proof (position_record_wrong state) as Hposition.
  pose proof (sessions_after_request env (SubmitAnswer sid transcript) w session
                Htimeout eq_refl Hsession Hfresh) as Hsessions.
  cbn [target] in Hsessions.
  cbn [serve_all].
  destruct (IH (serve env (SubmitAnswer sid transcript) w)
              (update_activity (now env) session) (record_wrong state))
    as (state' & Hstate' & Hposition' & Hattempts & Hrun & Htotal & Hcorrect & Hhelp).
  - rewrite Hsessions. apply lookup_insert_eq.
  - rewrite Hstates. apply lookup_insert_eq.
  - exact Hpaced.
  - eapply Forall_impl; [exact Hwrong |].
    intros er (t & Her & Ht). exists t. split; [done |].
    by rewrite (evaluate_position t _ state Hposition).
  - exists state'. split; [exact Hstate' |].
    split; [by rewrite Hposition' |].
    destruct (record_wrong_fields state) as (_ & _ & Ha & Hc & Ht & Htc & Hh).
    rewrite Hattempts, Hrun, Htotal, Hcorrect, Hhelp, Ha, Hc, Ht, Htc, Hh.
    cbn [length].
    split; [lia |]. split; [lia |]. split; [lia |]. split; [done |].
    apply eq_true_iff_eq.
    rewrite !orb_true_iff, !andb_true_iff, !Nat.leb_le, !Nat.ltb_lt.
    destruct (needs_extra_help state); [by split; left; try left |].
    split.
    + intros [[? | ?] | [? ?]]; [done | right; lia | right; lia].
    + intros [? | [_ ?]]; [done |].
      destruct (length trace); [left; right; lia | right; lia].
Qed.

(** ** One request, step by step *)

Section Steps.
Hypothesis timeout_nonneg : (0 <= SESSION_TIMEOUT_SECONDS)%Z.

Lemma world_eq (w w' : World) :
  _sessions w = _sessions w' -> _teaching_states w = _teaching_states w' -> w = w'.
Proof. destruct w, w'. simpl. by intros -> ->. Qed.

(** [_get_state] returns the state a request finds and makes sure it is
    stored. *)
Lemma get_state_at sid (w : World) :
  _get_state sid w
  = (set_teaching_states <[sid := state_at w sid]> w, Ok (state_at w sid)).
Proof.
  rewrite get_state_run. unfold state_at.
  destruct (_teaching_states w !! sid) as [state|] eqn:Hstate; simpl; [| done].
  f_equal. apply world_eq; simpl; [done |]. by rewrite insert_id.
Qed.

Lemma get_state_stored sid (w : World) state :
  _get_state sid (set_teaching_states <[sid := state]> w)
  = (set_teaching_states <[sid := state]> w, Ok state).
Proof. rewrite get_state_run. simpl. by rewrite lookup_insert_eq. Qed.

Lemma on_state_stored {A} sid (m : SE TeachingState A) (w : World) state :
  on_state sid m (set_teaching_states <[sid := state]> w)
  = (set_teaching_states <[sid := fst (m state)]> w, snd (m state)).
Proof.
  rewrite on_state_run. simpl. rewrite lookup_insert_eq. simpl. f_equal.
  apply world_eq; simpl; [done |]. by rewrite insert_insert_eq.
Qed.

Lemma get_session_touched env sid (w : World) :
  live env sid w ->
  exists session,
    get_session env sid (touched env sid w) = (touched env sid w, Ok session).
Proof.
  intros (session & Hsession & Hfresh).
  exists (update_activity (now env) session).
  apply get_session_refreshed; [done | | done].
  unfold touched. simpl. by rewrite lookup_alter_eq, Hsession.
Qed.

Lemma get_session_stored env sid (w : World) session sid' state :
  get_session env sid w = (w, Ok session) ->
  get_session env sid (set_teaching_states <[sid' := state]> w)
  = (set_teaching_states <[sid' := state]> w, Ok session).
Proof.
  rewrite !get_session_run. simpl.
  destruct (_sessions w !! sid) as [session0|]; [| done].
  destruct (is_expired _ _ _); [done |].
  intros [= Hw <-]. f_equal. apply world_eq; simpl; [| done].
  by rewrite <- Hw at 2.
Qed.

(** The step taken for a state that is not at the close of a concept. *)
Lemma continue_teaching_body_open self env sid (w : World) session state :
  get_session env sid w = (w, Ok session) ->
  closing state = false ->
  continue_teaching_body self env sid (set_teaching_states <[sid := state]> w)
  = (set_teaching_states <[sid := fst (teaching_step env state state)]> w,
     snd (teaching_step env state state)).
Proof.
  intros Hsession Hopen. unfold continue_teaching_body.
  rewrite (bind_ok _ _ _ _ _ (get_session_stored env sid w session sid state Hsession)).
  rewrite (bind_ok _ _ _ _ _ (get_state_stored sid w state)).
  rewrite (bind_ok _ _ _ _ _ (get_chapter_or_counting_run _ _)).
  unfold teaching_step, review_step, closing in *.
  destruct (total_concepts counting_chapter <=? current_concept_index state) eqn:Hle.
  { apply on_state_stored. }
  apply Nat.leb_gt in Hle as Hlt. apply Nat.ltb_lt in Hlt. rewrite Hlt in Hopen.
  simpl in Hopen. apply bool_decide_eq_false in Hopen.
  destruct (concepts counting_chapter !! current_concept_index state)
    as [concept|]; [| done].
  unfold concept_step.
  destruct (concept_phase state); try apply on_state_stored. done.
Qed.

Lemma closing_next_concept state : closing (next_concept state) = false.
Proof. unfold closing. simpl. by rewrite andb_false_r. Qed.

(** [continue_teaching] for a live session: the session is refreshed, a
    concept at its close is left for the next one, and one step is taken
    on the teaching state. *)
Lemma continue_teaching_run env sid (w : World) :
  live env sid w ->
  continue_teaching env sid w
  = (set_teaching_states
       <[sid := fst (teaching_step env (after_closing (state_at w sid))
                       (after_closing (state_at w sid)))]>
       (touched env sid w),
     snd (teaching_step env (after_closing (state_at w sid))
            (after_closing (state_at w sid)))).
Proof.
  intros Hlive.
  destruct (get_session_live _ _ _ Hlive) as [session Hsession].
  destruct (get_session_touched _ _ _ Hlive) as [session' Htouched].
  set (state := state_at w sid).
  assert (Hfirst : forall self,
    continue_teaching_body self env sid w
    = continue_teaching_body self env sid
        (set_teaching_states <[sid := state]> (touched env sid w))).
  { intros self. unfold continue_teaching_body.
    rewrite (bind_ok _ _ _ _ _ Hsession).
    rewrite (bind_ok _ _ _ _ _
               (get_session_stored env sid _ session' sid state Htouched)).
    rewrite (bind_ok _ _ _ _ _ (get_state_at sid (touched env sid w))).
    rewrite (bind_ok _ _ _ _ _ (get_state_stored sid (touched env sid w) state)).
    by rewrite !(bind_ok _ _ _ _ _ (get_chapter_or_counting_run _ _)). }
  unfold continue_teaching. cbn [continue_teaching_rec]. rewrite Hfirst.
  unfold after_closing. destruct (closing state) eqn:Hclosing.
  2:{ by apply (continue_teaching_body_open _ env sid _ session'). }
  unfold continue_teaching_body at 1.
  rewrite (bind_ok _ _ _ _ _
             (get_session_stored env sid _ session' sid state Htouched)).
  rewrite (bind_ok _ _ _ _ _ (get_state_stored sid (touched env sid w) state)).
  rewrite (bind_ok _ _ _ _ _ (get_chapter_or_counting_run _ _)).
  unfold closing in Hclosing. apply andb_true_iff in Hclosing as [Hlt Hphase].
  apply bool_decide_eq_true in Hphase.
  apply Nat.ltb_lt in Hlt as Hlt'.
  rewrite (proj2 (Nat.leb_gt _ _) Hlt').
  destruct (concepts counting_chapter !! current_concept_index state)
    as [concept|] eqn:Hconcept.
  2:{ apply lookup_ge_None in Hconcept. unfold total_concepts in Hlt'. lia. }
  rewrite Hphase.
  rewrite (bind_ok _ _ _ _ _
             (on_state_stored sid (modify next_concept) (touched env sid w) state)).
  cbn [continue_teaching_rec fst modify].
  apply (continue_teaching_body_open _ env sid _ session'); [done |].
  apply closing_next_concept.
Qed.


Lemma live_touched env sid (w : World) :
  live env sid w -> live env sid (touched env sid w).
Proof.
  intros (session & Hsession & Hfresh).
  exists (update_activity (now env) session). split.
  - unfold touched. simpl. by rewrite lookup_alter_eq, Hsession.
  - unfold is_expired. simpl. rewrite Z.sub_diag. by apply Z.ltb_ge.
Qed.

Lemma touched_touched env sid (w : World) :
  touched env sid (touched env sid w) = touched env sid w.
Proof.
  apply world_eq; simpl; [| done].
  apply map_eq. intros k. destruct (decide (k = sid)) as [->|Hne].
  - rewrite !lookup_alter_eq. by destruct (_sessions w !! sid).
  - by rewrite !lookup_alter_ne.
Qed.

(** Refreshing the session first makes no difference to the request. *)
Lemma continue_teaching_touched env sid (w : World) :
  live env sid w ->
  continue_teaching env sid (touched env sid w) = continue_teaching env sid w.
Proof.
  intros Hlive.
  rewrite (continue_teaching_run env sid (touched env sid w))
    by (by apply live_touched).
  rewrite (continue_teaching_run env sid w) by done.
  by rewrite touched_touched.
Qed.

(** [_handle_correct_answer] on the stored state: the praise is phrased
    first, then the state advances and the next step is taken. *)
Lemma handle_correct_answer_run env sid (w : World) state :
  _handle_correct_answer env sid counting_chapter
    (set_teaching_states <[sid := state]> w)
  = match generate_response env
            (build_encouragement_prompt true (praise_phrases state)) with
    | None => (set_teaching_states <[sid := state]> w, Raise AIServiceError)
    | Some ai_text =>
        bind (continue_teaching env sid)
          (fun next_response =>
             ret (praised (fst (_process_response env ai_text None))
                    next_response))
          (set_teaching_states <[sid := _advance_after_correct state]> w)
    end.
Proof.
  unfold _handle_correct_answer.
  match goal with
  | |- context [on_state sid ?m] =>
      lazymatch m with
      | modify _ => fail
      | _ => set (praise := m)
      end
  end.
  assert (Hpraise :
    praise state
    = (state,
       match generate_response env
               (build_encouragement_prompt true (praise_phrases state)) with
       | Some ai_text => Ok (fst (_process_response env ai_text None))
       | None => Raise AIServiceError
       end)).
  { unfold praise, praise_phrases, bind, get, ai, ret, raise. simpl.
    by destruct (generate_response env _). }
  unfold bind at 1. rewrite on_state_stored, Hpraise. cbn [fst snd].
  destruct (generate_response env _) as [ai_text|]; [| done].
  rewrite (bind_ok _ _ _ _ _
             (on_state_stored sid (modify _advance_after_correct) w state)).
  reflexivity.
Qed.

(** [process_response] for a live session. *)
Lemma process_response_run env sid transcript (w : World) :
  live env sid w ->
  process_response env sid transcript w
  = if _evaluate_answer transcript (state_at w sid) then
      match generate_response env
              (build_encouragement_prompt true
                 (praise_phrases (record_correct (state_at w sid)))) with
      | None =>
          (set_teaching_states <[sid := record_correct (state_at w sid)]>
             (touched env sid w),
           Raise AIServiceError)
      | Some ai_text =>
          bind (continue_teaching env sid)
            (fun next_response =>
               ret (praised (fst (_process_response env ai_text None))
                      next_response))
            (set_teaching_states
               <[sid := _advance_after_correct (record_correct (state_at w sid))]>
               w)
      end
    else
      (set_teaching_states <[sid := record_wrong (state_at w sid)]>
         (touched env sid w),
       snd (_handle_wrong_answer env counting_chapter transcript
              (record_wrong (state_at w sid)))).
Proof.
  intros Hlive.
  destruct (get_session_live _ _ _ Hlive) as [session Hsession].
  set (state := state_at w sid).
  unfold process_response.
  rewrite (bind_ok _ _ _ _ _ Hsession).
  rewrite (bind_ok _ _ _ _ _ (get_state_at sid (touched env sid w))).
  rewrite (bind_ok _ _ _ _ _ (get_chapter_or_counting_run _ _)).
  change (state_at (touched env sid w) sid) with state.
  destruct (_evaluate_answer transcript state).
  - rewrite (bind_ok _ _ _ _ _
               (on_state_stored sid (modify record_correct) (touched env sid w) state)).
    cbn [fst modify]. rewrite handle_correct_answer_run.
    destruct (generate_response env _) as [ai_text|]; [| done].
    assert (Hlive' : live env sid
              (set_teaching_states
                 <[sid := _advance_after_correct (record_correct state)]> w)).
    { destruct Hlive as (s & ? & ?). by exists s. }
    unfold bind.
    by rewrite <- (continue_teaching_touched env sid _ Hlive').
  - rewrite (bind_ok _ _ _ _ _
               (on_state_stored sid (modify record_wrong) (touched env sid w) state)).
    cbn [fst modify]. rewrite on_state_stored. f_equal. f_equal. f_equal.
    unfold _handle_wrong_answer, bind, get, ai, ret. simpl.
    destruct (generate_response env _); [| done].
    by destruct (_process_response _ _ _).
Qed.


Lemma not_live_raises env sid (w : World) :
  ~ live env sid w -> exists e, snd (get_session env sid w) = Raise e.
Proof.
  intros Hdead. rewrite get_session_run.
  destruct (_sessions w !! sid) as [session|] eqn:Hsession; [| by eexists].
  destruct (is_expired _ _ _) eqn:Hexpired; [by eexists |].
  destruct Hdead. by exists session.
Qed.

(** A request that does not get past the session lookup leaves every
    teaching state alone. *)
Lemma not_live_state_at env r (w : World) sid :
  looks_up r = true -> ~ live env (target env r) w ->
  state_at (serve env r w) sid = state_at w sid.
Proof.
  intros Hr Hdead. destruct (not_live_raises _ _ _ Hdead) as [e He].
  destruct (lookup_raises env r w e Hr He) as [-> _].
  unfold state_at. by rewrite get_session_teaching_states.
Qed.

Lemma handle_silence_run env sid (w : World) :
  live env sid w ->
  fst (handle_silence env sid w)
  = set_teaching_states <[sid := state_at w sid]> (touched env sid w).
Proof.
  intros Hlive.
  destruct (get_session_live _ _ _ Hlive) as [session Hsession].
  unfold handle_silence.
  rewrite (bind_ok _ _ _ _ _ Hsession).
  rewrite (bind_ok _ _ _ _ _ (get_state_at sid (touched env sid w))).
  rewrite (bind_ok _ _ _ _ _ (get_chapter_or_counting_run _ _)).
  rewrite on_state_stored. cbn [fst]. f_equal. f_equal.
  unfold bind, get, ai, ret. simpl.
  destruct (generate_response env _); [| done].
  by destruct (_process_response _ _ _).
Qed.

Lemma state_at_stored sid sid' state (w : World) :
  state_at (set_teaching_states <[sid := state]> w) sid'
  = if decide (sid = sid') then state else state_at w sid'.
Proof.
  unfold state_at. simpl. destruct (decide (sid = sid')) as [->|Hne].
  - by rewrite lookup_insert_eq.
  - by rewrite lookup_insert_ne.
Qed.

Lemma closing_after_closing state : closing (after_closing state) = false.
Proof.
  unfold after_closing. destruct (closing state) eqn:Hclosing; [| done].
  apply closing_next_concept.
Qed.

(** The teaching state [continue_teaching] leaves for a live session. *)
Lemma continue_teaching_state_at env sid (w : World) :
  live env sid w ->
  state_at (fst (continue_teaching env sid w)) sid
  = fst (teaching_step env (after_closing (state_at w sid))
           (after_closing (state_at w sid))).
Proof.
  intros Hlive. rewrite continue_teaching_run by done. cbn [fst].
  rewrite state_at_stored. by rewrite decide_True.
Qed.

Section Evolution.
Context (R : relation TeachingState) `{!PreOrder R}.
Hypothesis R_respected : respected R.

Lemma evolves_continue_teaching env sid (w : World) :
  live env sid w ->
  R (state_at w sid) (state_at (fst (continue_teaching env sid w)) sid).
Proof.
  intros Hlive. destruct R_respected as (Hclose & Hstep & _).
  rewrite continue_teaching_state_at by done.
  transitivity (after_closing (state_at w sid)); [apply Hclose |].
  apply Hstep, closing_after_closing.
Qed.

Lemma evolves_process_response env sid transcript (w : World) :
  live env sid w ->
  R (state_at w sid) (state_at (fst (process_response env sid transcript w)) sid).
Proof.
  intros Hlive. destruct R_respected as (Hclose & Hstep & Hcorrect & Hwrong & Hadvance).
  rewrite process_response_run by done.
  destruct (_evaluate_answer _ _).
  - transitivity (record_correct (state_at w sid)); [apply Hcorrect |].
    destruct (generate_response env _) as [ai_text|].
    2:{ cbn [fst]. rewrite state_at_stored, decide_True by done. reflexivity. }
    set (w1 := set_teaching_states _ w).
    assert (Hlive1 : live env sid w1).
    { destruct Hlive as (s & ? & ?). by exists s. }
    pose proof (evolves_continue_teaching env sid w1 Hlive1) as Hnext.
    unfold w1 at 1 in Hnext. rewrite state_at_stored, decide_True in Hnext by done.
    transitivity (_advance_after_correct (record_correct (state_at w sid)));
      [apply Hadvance |].
    unfold bind. by destruct (continue_teaching env sid w1) as [w2 [next|e]].
  - cbn [fst]. rewrite state_at_stored, decide_True by done. apply Hwrong.
Qed.

(** Across a request that neither opens nor ends the session, the
    teaching state of the session moves along [R]. *)
Lemma evolves_serve env r sid (w : World) :
  continues sid (env, r) ->
  R (state_at w sid) (state_at (serve env r w) sid).
Proof.
  intros Hcontinues.
  destruct (decide (target env r = sid)) as [Htarget | Hother].
  2:{ assert (Hsame : state_at (serve env r w) sid = state_at w sid).
      { unfold state_at. f_equal.
        destruct r as [g subj les|sid'|sid' transcript|sid'|sid']; simpl in *.
        - by apply confined_start_lesson.
        - by apply confined_continue_teaching_rec.
        - by apply confined_process_response.
        - by apply confined_handle_silence.
        - by apply confined_end_lesson. }
      rewrite Hsame. reflexivity. }
  destruct Hcontinues as [Hr | Hne]; [| done]. simpl in Hr.
  destruct (live_dec env (target env r) w) as [Hlive | Hdead].
  2:{ rewrite (not_live_state_at env r w sid Hr Hdead). reflexivity. }
  destruct r as [g subj les|sid'|sid' transcript|sid'|sid']; try done;
    simpl in *; subst sid'.
  - by apply evolves_continue_teaching.
  - by apply evolves_process_response.
  - rewrite handle_silence_run by done.
    rewrite state_at_stored, decide_True by done. reflexivity.
Qed.

Lemma evolves_serve_all trace sid (w : World) :
  Forall (continues sid) trace ->
  R (state_at w sid) (state_at (serve_all trace w) sid).
Proof.
  revert w. induction trace as [|[env r] trace IH]; intros w Htrace.
  { reflexivity. }
  apply Forall_cons in Htrace as [Hr Htrace]. cbn [serve_all].
  transitivity (state_at (serve env r w) sid); [by apply evolves_serve |].
  by apply IH.
Qed.

End Evolution.


(** *** The lesson never goes back *)

#[local] Instance not_behind_preorder : PreOrder not_behind.
Proof.
  split.
  - intros state. right. by split.
  - intros a b c [Hab | [Hab Hab']] [Hbc | [Hbc Hbc']]; unfold not_behind; lia.
Qed.

Ltac step_cases :=
  unfold teaching_step, review_step, concept_step, enter_review;
  repeat case_match; run_steps.

Lemma not_behind_respected : respected not_behind.
Proof.
  repeat apply conj.
  - intros state. unfold after_closing, closing. case_match; [| reflexivity].
    left. simpl. lia.
  - intros env state _. step_cases;
      try reflexivity; right; simpl; split; try done;
      repeat match goal with H : concept_phase _ = _ |- _ => rewrite H end;
      simpl; lia.
  - intros state. by right.
  - intros state. unfold record_wrong. case_match; by right.
  - intros state. unfold _advance_after_correct. simpl.
    repeat case_match; right; simpl; split; try done;
      repeat match goal with H : concept_phase _ = _ |- _ => rewrite H end;
      simpl; lia.
Qed.

(** X13.  The lesson never goes back.  Over any trace of requests that
    neither open nor end a session, served under any circumstances with
    a non-negative timeout, the teaching state of that session only
    moves forward: to a later concept, or within the concept to a later
    phase. *)
Theorem lesson_never_goes_back trace sid (w : World) :
  Forall (continues sid) trace ->
  not_behind (state_at w sid) (state_at (serve_all trace w) sid).
Proof. apply evolves_serve_all; [apply _ | apply not_behind_respected]. Qed.

(** *** Invariants of the teaching state *)

Lemma start_lesson_state_at env g subj les (w : World) :
  let state := state_at w (uuid4 env) in
  let state' := state_at (fst (start_lesson env g subj les w)) (uuid4 env) in
  state' = state \/
  state' = set_lesson_phase state LessonPhase.WELCOME \/
  state' = opened state.
Proof.
  intros state state'. subst state'.
  destruct (is_chapter_available g subj les) eqn:Havailable.
  2:{ left. unfold start_lesson. by rewrite Havailable. }
  destruct (generate_response env
              (build_welcome_prompt (chapter_title counting_chapter)))
    as [ai_text|] eqn:Hai.
  - right. right.
    destruct (start_lesson_run env g subj les w ai_text Havailable Hai)
      as (w1 & -> & _ & Hstate).
    unfold state_at at 1. cbn [fst]. by rewrite Hstate.
  - right. left. unfold start_lesson. rewrite Havailable. cbn [negb].
    unfold create_session, bind, modify, ret. simpl.
    rewrite get_chapter_or_counting_run, get_state_run. simpl.
    subst state. unfold state_at.
    destruct (_teaching_states w !! uuid4 env) as [state|] eqn:Hstate;
      unfold ai; rewrite Hai; simpl;
      repeat (progress (rewrite ?Hstate, ?lookup_insert_eq; simpl)); done.
Qed.

Lemma end_lesson_state_at sid (w : World) :
  state_at (fst (end_lesson sid w)) sid = TeachingState_new.
Proof.
  destruct (end_lesson_forgets sid w) as [-> _].
  unfold state_at, forget. simpl. by rewrite lookup_delete_eq.
Qed.

Section Invariant.
Context (I : TeachingState -> Prop).
Hypothesis I_new : I TeachingState_new.
Hypothesis I_respected : respected (fun state state' => I state -> I state').
Hypothesis I_welcome :
  forall state, I state -> I (set_lesson_phase state LessonPhase.WELCOME).
Hypothesis I_opened : forall state, I state -> I (opened state).

#[local] Instance invariant_preorder :
  PreOrder (fun state state' : TeachingState => I state -> I state').
Proof. split; [by intros state | intros a b c Hab Hbc Ha; by apply Hbc, Hab]. Qed.

Lemma invariant_serve env r (w : World) :
  (forall sid, I (state_at w sid)) ->
  forall sid, I (state_at (serve env r w) sid).
Proof.
  intros Hw sid.
  destruct (looks_up r) eqn:Hr.
  { apply (evolves_serve _ I_respected env r sid w); [by left | apply Hw]. }
  destruct (decide (target env r = sid)) as [Htarget | Hother].
  2:{ apply (evolves_serve _ I_respected env r sid w); [by right | apply Hw]. }
  destruct r as [g subj les|sid'|sid' transcript|sid'|sid']; try done;
    simpl in *; subst sid.
  - destruct (start_lesson_state_at env g subj les w) as [-> | [-> | ->]];
      [apply Hw | apply I_welcome, Hw | apply I_opened, Hw].
  - by rewrite end_lesson_state_at.
Qed.

Lemma invariant_serve_all trace (w : World) :
  (forall sid, I (state_at w sid)) ->
  forall sid, I (state_at (serve_all trace w) sid).
Proof.
  revert w. induction trace as [|[env r] trace IH]; intros w Hw; [done |].
  cbn [serve_all]. apply IH. by apply invariant_serve.
Qed.

End Invariant.

Lemma cursor_in_range_respected :
  respected (fun state state' => cursor_in_range state -> cursor_in_range state').
Proof.
  unfold cursor_in_range. repeat apply conj.
  - intros state. unfold after_closing, closing. case_match; [| done].
    intros _. simpl. apply andb_true_iff in H as [Hlt%Nat.ltb_lt _]. lia.
  - intros env state _. step_cases.
  - done.
  - intros state. unfold record_wrong. by case_match.
  - intros state. unfold _advance_after_correct. simpl. by repeat case_match.
Qed.

(** X14.  The concept cursor stays in range.  From a world in which no
    teaching state has its concept index beyond the number of concepts
    of the chapter (the empty world is one), no trace of requests,
    served under any circumstances with a non-negative timeout, leads to
    one that has. *)
Theorem concept_index_in_range trace (w : World) :
  (forall sid, cursor_in_range (state_at w sid)) ->
  forall sid, cursor_in_range (state_at (serve_all trace w) sid).
Proof.
  apply invariant_serve_all.
  - unfold cursor_in_range. simpl. lia.
  - apply cursor_in_range_respected.
  - done.
  - intros state _. unfold cursor_in_range. simpl. lia.
Qed.

Lemma attempts_in_step_respected :
  respected (fun state state' => attempts_in_step state -> attempts_in_step state').
Proof.
  unfold attempts_in_step. repeat apply conj.
  - intros state. unfold after_closing, closing. case_match; [| done].
    simpl. lia.
  - intros env state _. step_cases.
  - intros state. simpl. lia.
  - intros state. unfold record_wrong. case_match; simpl; lia.
  - intros state. unfold _advance_after_correct. simpl.
    repeat case_match; simpl; lia.
Qed.

(** X15.  The counters of wrong answers stay in step.  From a world in
    which every teaching state has no more consecutive wrong answers
    than attempts at its question, and no more attempts than wrong
    answers in all (the empty world is one), every trace of requests,
    served under any circumstances with a non-negative timeout, leads to
    such a world. *)
Theorem attempts_stay_in_step trace (w : World) :
  (forall sid, attempts_in_step (state_at w sid)) ->
  forall sid, attempts_in_step (state_at (serve_all trace w) sid).
Proof.
  apply invariant_serve_all.
  - unfold attempts_in_step. simpl. lia.
  - apply attempts_in_step_respected.
  - done.
  - done.
Qed.

(** *** Correct answers *)

Lemma live_stored env sid sid' state (w : World) :
  live env sid w -> live env sid (set_teaching_states <[sid' := state]> w).
Proof. intros (session & ? & ?). by exists session. Qed.

Lemma live_later env env' sid (w : World) :
  live env sid w ->
  (now env' - now env <= SESSION_TIMEOUT_SECONDS)%Z ->
  live env' sid (touched env sid w).
Proof.
  intros (session & Hsession & _) Hsoon.
  exists (update_activity (now env) session). split.
  - unfold touched. simpl. by rewrite lookup_alter_eq, Hsession.
  - unfold is_expired. simpl. apply Z.ltb_ge. lia.
Qed.

(** X11.  A correct answer is an advance followed by a
    [ContinueTeaching].  With a non-negative timeout, for a live session
    whose teaching state grades
    the transcript as correct, once the praise is phrased, the request
    leaves the world exactly as [ContinueTeaching] leaves the world in
    which the answer has been counted and the state advanced; it fails
    exactly when that [ContinueTeaching] fails, with the same exception,
    and otherwise returns its response with the praise and an empty line
    in front of the text. *)
Theorem correct_answer_then_continue env sid transcript (w : World) ai_text :
  live env sid w ->
  _evaluate_answer transcript (state_at w sid) = true ->
  generate_response env
    (build_encouragement_prompt true (praise_phrases (state_at w sid)))
  = Some ai_text ->
  let w' :=
    set_teaching_states
      <[sid := _advance_after_correct (record_correct (state_at w sid))]> w in
  serve env (SubmitAnswer sid transcript) w = serve env (ContinueTeaching sid) w' /\
  reply env (SubmitAnswer sid transcript) w
  = praised (fst (_process_response env ai_text None))
    <$> reply env (ContinueTeaching sid) w' /\
  failure env (SubmitAnswer sid transcript) w
  = failure env (ContinueTeaching sid) w'.
Proof.
  intros Hlive Hcorrect Hpraise w'. cbn [serve reply failure].
  rewrite process_response_run by done. rewrite Hcorrect.
  change (praise_phrases (record_correct (state_at w sid)))
    with (praise_phrases (state_at w sid)).
  rewrite Hpraise. fold w'. unfold bind, ret.
  by destruct (continue_teaching env sid w') as [w2 [next|e]].
Qed.

(** X12.  When the praise cannot be phrased, a correct answer has been
    counted and nothing else has happened: the request raises
    [AIServiceError], the stored state is [record_correct] of the state
    it found, and the position in the lesson, with the pending question,
    is the same, so that the same answer sent again is graded correct
    again. *)
Theorem praise_failure_keeps_question env sid transcript (w : World) :
  live env sid w ->
  _evaluate_answer transcript (state_at w sid) = true ->
  generate_response env
    (build_encouragement_prompt true (praise_phrases (state_at w sid)))
  = None ->
  let w' := serve env (SubmitAnswer sid transcript) w in
  failure env (SubmitAnswer sid transcript) w = Some AIServiceError /\
  state_at w' sid = record_correct (state_at w sid) /\
  total_correct (state_at w' sid) = total_correct (state_at w sid) + 1 /\
  position (state_at w' sid) = position (state_at w sid) /\
  _evaluate_answer transcript (state_at w' sid) = true.
Proof.
  intros Hlive Hcorrect Hpraise w'. subst w'. cbn [serve failure].
  rewrite process_response_run by done. rewrite Hcorrect.
  change (praise_phrases (record_correct (state_at w sid)))
    with (praise_phrases (state_at w sid)).
  rewrite Hpraise. cbn [fst snd].
  rewrite state_at_stored, decide_True by done.
  split; [done |]. split; [done |]. split; [done |]. split; [done |].
  rewrite <- Hcorrect. by apply evaluate_position.
Qed.

(** *** Steps that move before they render *)

(** X16.  Practice that has run out moves on before anything is
    rendered.  Let a live session be in guided practice with no guided
    question left.  A [ContinueTeaching] then leaves it, whether the
    rendering succeeds or not, in independent practice at its first
    question if the concept has independent questions, and at the
    mastery check if it has none; a response, if there is one, is of the
    type of that step. *)
Theorem exhausted_guided_practice_moves_on env sid (w : World) concept :
  live env sid w ->
  let state := state_at w sid in
  concepts counting_chapter !! current_concept_index state = Some concept ->
  concept_phase state = ConceptPhase.GUIDED_PRACTICE ->
  length (guided_questions concept) <= guided_question_index state ->
  let state' := state_at (serve env (ContinueTeaching sid) w) sid in
  current_concept_index state' = current_concept_index state /\
  match independent_questions concept with
  | [] =>
      concept_phase state' = ConceptPhase.CONCEPT_CHECK /\
      forall r,
        reply env (ContinueTeaching sid) w = Some r ->
        response_type r = "mastery_check" /\
        current_expected_answer state' = Some (mastery_answer concept)
  | question :: _ =>
      concept_phase state' = ConceptPhase.INDEPENDENT_PRACTICE /\
      independent_question_index state' = 0 /\
      forall r,
        reply env (ContinueTeaching sid) w = Some r ->
        response_type r = "independent_practice" /\
        expects state' question
  end.
Proof.
  intros Hlive state Hconcept Hphase Hout state'. subst state'.
  cbn [serve reply]. rewrite continue_teaching_run by done. cbn [fst snd].
  rewrite state_at_stored, decide_True by done. fold state.
  assert (Hopen : after_closing state = state).
  { unfold after_closing, closing. rewrite Hphase.
    by rewrite bool_decide_eq_false_2, andb_false_r. }
  rewrite Hopen.
  assert (Hstep :
    teaching_step env state state
    = _do_independent_practice env concept counting_chapter
        (set_independent_question_index
           (set_concept_phase state ConceptPhase.INDEPENDENT_PRACTICE) 0)).
  { unfold teaching_step. apply lookup_lt_Some in Hconcept as Hlt.
    unfold total_concepts.
    rewrite (proj2 (Nat.leb_gt _ _) Hlt), Hconcept, Hphase.
    unfold concept_step, _do_guided_practice, bind at 1, get at 1.
    by rewrite (proj2 (Nat.leb_le _ _) Hout). }
  rewrite Hstep. clear Hstep.
  destruct (_do_independent_practice _ _ _ _) as [state' r] eqn:Hrun.
  cbn [fst snd]. revert Hrun.
  unfold _do_independent_practice, bind at 1, get at 1.
  cbn [independent_question_index set_independent_question_index].
  destruct (independent_questions concept) as [|question rest].
  - cbn [length Nat.leb].
    unfold _do_mastery_check, bind, ai, get, modify, ret, raise.
    destruct (generate_response env _) as [ai_text|].
    + destruct (_process_response _ _ _). intros [= <- <-].
      split; [done |]. split; [done |]. by intros r [= <-].
    + intros [= <- <-]. by repeat split.
  - cbn [length Nat.leb lookup list_lookup].
    unfold bind, ai, get, modify, ret, raise.
    destruct (generate_response env _) as [ai_text|].
    + destruct (_process_response _ _ _). intros [= <- <-].
      split; [done |]. split; [done |]. split; [done |]. by intros r [= <-].
    + intros [= <- <-]. by repeat split.
Qed.

(** X17.  A celebration that cannot be phrased restarts the review.
    Let a live session have finished every concept and every review
    question of a chapter that has review questions.  If the
    celebration cannot be phrased, [ContinueTeaching] raises
    [AIServiceError] and leaves the session in lesson phase CELEBRATION;
    the next [ContinueTeaching] (within the timeout) does not try the
    celebration again: it puts the session back into CHAPTER_REVIEW with
    the review cursor on the first question, and what it returns, if
    anything, is that review question. *)
Theorem celebration_failure_restarts_review env env' sid (w : World) :
  live env sid w ->
  (now env' - now env <= SESSION_TIMEOUT_SECONDS)%Z ->
  let state := state_at w sid in
  total_concepts counting_chapter <= current_concept_index state ->
  lesson_phase state = LessonPhase.CHAPTER_REVIEW ->
  length (review_questions counting_chapter) <= review_question_index state ->
  review_questions counting_chapter <> [] ->
  generate_response env
    (build_celebration_prompt (total_correct state)
       (total_correct state + total_wrong state))
  = None ->
  let w1 := serve env (ContinueTeaching sid) w in
  let w2 := serve env' (ContinueTeaching sid) w1 in
  failure env (ContinueTeaching sid) w = Some AIServiceError /\
  state_at w1 sid = set_lesson_phase state LessonPhase.CELEBRATION /\
  lesson_phase (state_at w2 sid) = LessonPhase.CHAPTER_REVIEW /\
  review_question_index (state_at w2 sid) = 0 /\
  forall r,
    reply env' (ContinueTeaching sid) w1 = Some r ->
    response_type r = "chapter_review" /\ is_lesson_complete r = false.
Proof.
  intros Hlive Hsoon state Hdone Hreview Hout Hquestions Hai w1 w2.
  assert (Hfirst :
    continue_teaching env sid w
    = (set_teaching_states
         <[sid := set_lesson_phase state LessonPhase.CELEBRATION]>
         (touched env sid w),
       Raise AIServiceError)).
  { rewrite continue_teaching_run by done. fold state.
    assert (Hopen : after_closing state = state).
    { unfold after_closing, closing.
      by rewrite (proj2 (Nat.ltb_ge _ _) Hdone). }
    rewrite Hopen.
    assert (Hstep :
      teaching_step env state state
      = (set_lesson_phase state LessonPhase.CELEBRATION, Raise AIServiceError)).
    { unfold teaching_step, review_step.
      rewrite (proj2 (Nat.leb_le _ _) Hdone), decide_True by done.
      unfold _do_chapter_review, bind at 1, ret at 1, bind at 1, get at 1.
      rewrite (proj2 (Nat.leb_le _ _) Hout).
      unfold _do_celebration, bind, modify, get, ai. cbn [fst snd].
      change (total_correct (set_lesson_phase state LessonPhase.CELEBRATION))
        with (total_correct state).
      change (total_wrong (set_lesson_phase state LessonPhase.CELEBRATION))
        with (total_wrong state).
      by rewrite Hai. }
    by rewrite Hstep. }
  subst w1 w2. cbn [serve failure reply]. rewrite Hfirst. cbn [fst snd].
  split; [done |].
  rewrite state_at_stored, decide_True by done. split; [done |].
  set (state1 := set_lesson_phase state LessonPhase.CELEBRATION).
  rewrite continue_teaching_run
    by (by apply live_stored, (live_later env env')).
  rewrite !state_at_stored, !decide_True by done. cbn [fst snd].
  assert (Hopen : after_closing state1 = state1).
  { unfold after_closing, closing. simpl.
    by rewrite (proj2 (Nat.ltb_ge _ _) Hdone). }
  rewrite Hopen.
  destruct (teaching_step env' state1 state1) as [state2 r2] eqn:Hrun.
  cbn [fst snd]. revert Hrun.
  unfold teaching_step, review_step.
  change (current_concept_index state1) with (current_concept_index state).
  rewrite (proj2 (Nat.leb_le _ _) Hdone), decide_False by done.
  unfold _do_chapter_review, bind at 1, modify at 1, bind at 1, get at 1.
  cbn [enter_review review_question_index set_review_question_index].
  destruct (review_questions counting_chapter) as [|question rest]; [done |].
  cbn [length Nat.leb lookup list_lookup].
  unfold bind, ai, get, modify, ret, raise.
  destruct (generate_response env' _) as [ai_text|].
  - destruct (_process_response _ _ _). intros [= <- <-].
    rewrite !state_at_stored, !decide_True by done.
    split; [done |]. split; [done |]. by intros r [= <-].
  - intros [= <- <-]. rewrite !state_at_stored, !decide_True by done.
    by repeat split.
Qed.

(** *** The expectation is never cleared *)

Lemma expectation_respected :
  respected (fun state state' =>
               is_Some (current_expected_answer state) ->
               is_Some (current_expected_answer state')).
Proof.
  repeat apply conj.
  - intros state. unfold after_closing. by case_match.
  - intros env state _. step_cases.
  - done.
  - intros state. unfold record_wrong. by case_match.
  - intros state. unfold _advance_after_correct. simpl. by repeat case_match.
Qed.

(** X24.  An expectation is never cleared.  A teaching state that holds
    an expected answer holds one ever after, also when the lesson has
    moved on to a step that asks nothing: over any trace of requests
    that neither open nor end the session, served under any
    circumstances with a non-negative timeout, the expected answer is
    kept or replaced, never removed.  So every later answer is graded
    against an expectation. *)
Theorem expectation_is_never_cleared trace sid (w : World) :
  Forall (continues sid) trace ->
  is_Some (current_expected_answer (state_at w sid)) ->
  is_Some (current_expected_answer (state_at (serve_all trace w) sid)).
Proof.
  apply (@evolves_serve_all _
           (invariant_preorder
              (fun state => is_Some (current_expected_answer state)))
           expectation_respected).
Qed.

(** *** From one concept to the next *)

(** X25.  A correct answer to the mastery check opens what comes
    next, in the same request.  With a non-negative timeout, let a live
    session in lesson phase TEACHING be at the mastery check of a
    concept, let the transcript be graded correct and the praise be
    phrased.  Then the answer is counted, the attempts are reset and the
    concept cursor moves on by one, whatever happens next.  If there is
    a next concept, its introduction is rendered: when that succeeds the
    session is left in phase EXPLANATION of that concept and the
    response is the praised introduction; when it fails the request
    raises [AIServiceError] and the session is left at the INTRODUCTION
    of that concept.  If the concept was the last one and the chapter
    has review questions, the session is left in the chapter review with
    the review cursor on the first question. *)
Theorem mastery_answer_opens_next env sid transcript (w : World) ai_text :
  live env sid w ->
  let state := state_at w sid in
  lesson_phase state = LessonPhase.TEACHING ->
  concept_phase state = ConceptPhase.CONCEPT_CHECK ->
  current_concept_index state < total_concepts counting_chapter ->
  _evaluate_answer transcript state = true ->
  generate_response env
    (build_encouragement_prompt true (praise_phrases state))
  = Some ai_text ->
  let state' := state_at (serve env (SubmitAnswer sid transcript) w) sid in
  current_concept_index state' = current_concept_index state + 1 /\
  total_correct state' = total_correct state + 1 /\
  current_attempts state' = 0 /\
  consecutive_wrong state' = 0 /\
  match concepts counting_chapter !! (current_concept_index state + 1) with
  | Some concept' =>
      match generate_response env
              (build_concept_introduction_prompt (concept_name concept')) with
      | Some intro_text =>
          concept_phase state' = ConceptPhase.EXPLANATION /\
          reply env (SubmitAnswer sid transcript) w
          = Some (praised (fst (_process_response env ai_text None))
                    (respond state' counting_chapter
                       (fst (_process_response env intro_text None))
                       "concept_introduction"
                       (snd (_process_response env intro_text None)) false))
      | None =>
          concept_phase state' = ConceptPhase.INTRODUCTION /\
          failure env (SubmitAnswer sid transcript) w = Some AIServiceError
      end
  | None =>
      review_questions counting_chapter <> [] ->
      lesson_phase state' = LessonPhase.CHAPTER_REVIEW /\
      review_question_index state' = 0 /\
      forall r,
        reply env (SubmitAnswer sid transcript) w = Some r ->
        response_type r = "chapter_review"
  end.
Proof.
  intros Hlive state Hlesson Hphase Hlt Hcorrect Hpraise state'. subst state'.
  cbn [serve reply failure].
  rewrite process_response_run by done. fold state. rewrite Hcorrect.
  change (praise_phrases (record_correct state)) with (praise_phrases state).
  rewrite Hpraise.
  assert (Hadvance :
    _advance_after_correct (record_correct state)
    = set_concept_phase (reset_attempts (record_correct state))
        ConceptPhase.COMPLETED).
  { unfold _advance_after_correct. simpl. by rewrite Hphase. }
  rewrite Hadvance. clear Hadvance.
  set (state1 := set_concept_phase (reset_attempts (record_correct state))
                   ConceptPhase.COMPLETED).
  unfold bind, ret.
  rewrite continue_teaching_run by (by apply live_stored).
  rewrite !state_at_stored, !decide_True by done.
  assert (Hclosing : after_closing state1 = next_concept state1).
  { unfold after_closing, closing. simpl.
    by rewrite (proj2 (Nat.ltb_lt _ _) Hlt). }
  rewrite Hclosing. set (state2 := next_concept state1).
  destruct (teaching_step env state2 state2) as [state3 r3] eqn:Hrun.
  cbn [fst snd].
  assert (Hresult :
    state_at
      (fst (match r3 with
            | Ok a =>
                (set_teaching_states <[sid := state3]>
                   (touched env sid (set_teaching_states <[sid := state1]> w)),
                 Ok (praised (fst (_process_response env ai_text None)) a))
            | Raise e =>
                (set_teaching_states <[sid := state3]>
                   (touched env sid (set_teaching_states <[sid := state1]> w)),
                 Raise e)
            end)) sid = state3).
  { destruct r3; cbn [fst]; by rewrite state_at_stored, decide_True. }
  rewrite Hresult. clear Hresult.
  revert Hrun. unfold teaching_step.
  change (current_concept_index state2) with (current_concept_index state + 1).
  change (concept_phase state2) with ConceptPhase.INTRODUCTION.
  destruct (concepts counting_chapter !! (current_concept_index state + 1))
    as [concept'|] eqn:Hnext.
  - apply lookup_lt_Some in Hnext as Hlt'. unfold total_concepts.
    rewrite (proj2 (Nat.leb_gt _ _) Hlt').
    unfold concept_step, _do_introduction, bind, ai, modify, get, ret, raise.
    destruct (generate_response env (build_concept_introduction_prompt _))
      as [intro_text|].
    + destruct (_process_response env intro_text None) as [clean_text image_url].
      cbv beta iota. by intros [= <- <-].
    + cbv beta iota. by intros [= <- <-].
  - apply lookup_ge_None in Hnext as Hge. unfold total_concepts.
    rewrite (proj2 (Nat.leb_le _ _) Hge).
    unfold review_step.
    change (lesson_phase state2) with (lesson_phase state).
    rewrite Hlesson, decide_False by done.
    unfold _do_chapter_review, bind at 1, modify at 1, bind at 1, get at 1.
    cbn [enter_review review_question_index set_review_question_index].
    destruct (review_questions counting_chapter) as [|question rest] eqn:Hreview.
    { cbn [length Nat.leb].
      unfold _do_celebration, bind, ai, get, modify, ret, raise.
      destruct (generate_response env (build_celebration_prompt _ _));
        [destruct (_process_response _ _ _) |];
        cbv beta iota zeta; intros [= <- <-]; by repeat split. }
    cbn [length Nat.leb lookup list_lookup].
    unfold bind, ai, get, modify, ret, raise.
    destruct (generate_response env (build_chapter_review_prompt _ _ _))
      as [review_text|].
    + destruct (_process_response env review_text None) as [clean_text image_url].
      cbv beta iota. intros [= <- <-]. simpl.
      repeat split; try done. by intros r [= <-].
    + cbv beta iota. intros [= <- <-]. by repeat split.
Qed.

(** X27.  Silence, end to end.  For a live session, [NotifySilence]
    leaves the teaching state of the session as the request found it
    (a session without one gets the initial state stored), whether the
    hint is phrased or not.  The hint is asked for as a silence hint
    for the expected answer of the pending question, with no attempts
    and no extra help, and with the stashed hint, or a general
    encouragement if none is stashed; the response is of type
    "silence_hint" and never flags the lesson as complete. *)
Theorem silence_hint_effect env sid (w : World) :
  live env sid w ->
  let state := state_at w sid in
  _teaching_states (serve env (NotifySilence sid) w)
  = <[sid := state]> (_teaching_states w) /\
  reply env (NotifySilence sid) w
  = (fun ai_text =>
       respond state counting_chapter
         (fst (_process_response env ai_text None)) "silence_hint"
         (snd (_process_response env ai_text None)) false)
    <$> generate_response env
          (build_hint_prompt "" (default "" (current_expected_answer state))
             (if PyStr.is_empty (current_hint state)
              then "Take your time! You can do it! 😊"
              else current_hint state)
             0 false true).
Proof.
  intros Hlive state. cbn [serve reply].
  split; [by rewrite handle_silence_run |].
  destruct (get_session_live _ _ _ Hlive) as [session Hsession].
  unfold handle_silence.
  rewrite (bind_ok _ _ _ _ _ Hsession).
  rewrite (bind_ok _ _ _ _ _ (get_state_at sid (touched env sid w))).
  rewrite (bind_ok _ _ _ _ _ (get_chapter_or_counting_run _ _)).
  rewrite on_state_stored. cbn [snd].
  change (state_at (touched env sid w) sid) with state.
  unfold bind, get, ai, ret. simpl.
  destruct (generate_response env _) as [ai_text|]; [| done].
  simpl. by destruct (_process_response env ai_text None).
Qed.

End Steps.

(** ** Case and surrounding blanks *)

Section Normalisation.
Import PyStr.

Lemma lower_char_idem (c : ascii) : lower_char (lower_char c) = lower_char c.
Proof. destruct c as [[] [] [] [] [] [] [] []]; reflexivity. Qed.




Lemma lower_idem (s : string) : lower (lower s) = lower s.
Proof.
  induction s as [|c s IH]; simpl; [done |]. by rewrite lower_char_idem, IH.
Qed.













End Normalisation.

(** ** The transcript validator *)

Section Validators.
Import PyStr.






End Validators.

(** ** The image cache *)

Section ImageCache.
Import ImageService.
Context (md5 : string -> string).

Lemma cache_get_None key (cache : Cache) :
  cache_get key cache = None <-> key ∉ map fst cache.
Proof.
  induction cache as [|[k url] cache IH]; simpl.
  - split; [intros _ ?%elem_of_nil; done | done].
  - rewrite not_elem_of_cons. destruct (String.eqb k key) eqn:Hk.
    + apply String.eqb_eq in Hk. split; [done | by intros [? _]].
    + apply String.eqb_neq in Hk. rewrite IH. split; [by split | by intros [_ ?]].
Qed.

Lemma cache_get_appended key url (cache : Cache) :
  cache_get key cache = None ->
  cache_get key (cache ++ [(key, url)]) = Some url.
Proof.
  induction cache as [|[k url'] cache IH]; simpl.
  - by rewrite String.eqb_refl.
  - destruct (String.eqb k key); [done | apply IH].
Qed.

Lemma well_kept_step description outcome (cache : Cache) :
  well_kept cache ->
  well_kept (fst (generate_image_sync md5 description outcome cache)).
Proof.
  intros [Hkeys Hbound]. unfold generate_image_sync.
  destruct (cache_get _ cache) as [url|] eqn:Hget; [done |].
  destruct outcome as [message|image_url]; [done |].
  apply cache_get_None in Hget.
  destruct (MAX_CACHE_SIZE <=? length cache) eqn:Hfull.
  - destruct cache as [|[k0 url0] rest]; [by vm_compute in Hfull |]. cbn [fst].
    simpl in Hkeys, Hget, Hbound. apply NoDup_cons in Hkeys as [_ Hrest].
    apply not_elem_of_cons in Hget as [_ Hget].
    split.
    + rewrite map_app. simpl. apply NoDup_app. split; [done |].
      split; [| apply NoDup_singleton].
      intros k Hk ->%list_elem_of_singleton. done.
    + rewrite length_app. simpl. lia.
  - apply Nat.leb_gt in Hfull. cbn [fst]. split.
    + rewrite map_app. simpl. apply NoDup_app. split; [done |].
      split; [| apply NoDup_singleton].
      intros k Hk ->%list_elem_of_singleton. done.
    + rewrite length_app. simpl. lia.
Qed.

(** X21.  The image cache stays a dictionary within its bound.  From
    a cache without a repeated key and with no more than
    [MAX_CACHE_SIZE] entries (the empty cache is one), any sequence of
    calls of [generate_image_sync], whatever the image model does in
    each, leaves such a cache. *)
Theorem image_cache_stays_bounded calls (cache : Cache) :
  well_kept cache -> well_kept (generate_images md5 calls cache).
Proof.
  revert cache. induction calls as [|[description outcome] calls IH];
    intros cache Hcache; [done |].
  cbn [generate_images]. by apply IH, well_kept_step.
Qed.

(** X22.  An image that has been generated is not generated again.
    When a description misses the cache and the image model returns a
    url, the call returns that url without an error, and right after it
    every call for a description with the same cache key (the same
    description, or one that differs from it in case only) returns the
    same url and leaves the cache as it is, whatever the image model
    would do. *)
Theorem generated_image_is_cached description url (cache : Cache) :
  cache_get (_get_cache_key md5 description) cache = None ->
  let result := generate_image_sync md5 description (returned url) cache in
  snd result = (url, None) /\
  _get_cache_key md5 (PyStr.lower description) = _get_cache_key md5 description /\
  forall description' outcome,
    _get_cache_key md5 description' = _get_cache_key md5 description ->
    generate_image_sync md5 description' outcome (fst result)
    = (fst result, (url, None)).
Proof.
  intros Hmiss result.
  assert (Hrun : exists cache',
    result = (cache' ++ [(_get_cache_key md5 description, url)], (url, None)) /\
    cache_get (_get_cache_key md5 description) cache' = None).
  { subst result. unfold generate_image_sync. rewrite Hmiss.
    destruct (MAX_CACHE_SIZE <=? length cache) eqn:Hfull; [| by exists cache].
    destruct cache as [|[k0 url0] rest]; [by vm_compute in Hfull |].
    exists rest. split; [done |].
    simpl in Hmiss. by destruct (String.eqb k0 _). }
  destruct Hrun as (cache' & -> & Hmiss'). cbn [fst snd].
  split; [done |]. split.
  - unfold _get_cache_key. by rewrite lower_idem.
  - intros description' outcome Hkey. unfold generate_image_sync. rewrite Hkey.
    by rewrite cache_get_appended.
Qed.

End ImageCache.

(** X23.  The summary of [end_lesson] agrees with the last response.
    When a request returns a response and the lesson is ended right
    after it, the summary reports the counters of the progress snapshot
    of that response and one concept less than the snapshot's current
    concept; it reports the lesson as complete exactly when the snapshot
    shows lesson phase "completed", and then, only then, the farewell is
    the one for a completed lesson. *)
Theorem summary_agrees_with_snapshot env r (w : World) resp :
  reply env r w = Some resp ->
  exists info summary message,
    progress_info resp = Some info /\
    snd (end_lesson (target env r) (serve env r w)) = Ok (summary, message) /\
    concepts_completed summary + 1 = pi_current_concept info /\
    sum_total_correct summary = pi_total_correct info /\
    sum_total_wrong summary = pi_total_wrong info /\
    (sum_is_complete summary = true <-> pi_lesson_phase info = "completed") /\
    (message = "You completed the whole lesson! 🎉" <->
     pi_lesson_phase info = "completed") /\
    (is_lesson_complete resp = true -> sum_is_complete summary = true).
Proof.
  intros Hreply.
  destruct (reply_progress env r w resp Hreply) as [Hinfo Hcomplete].
  set (state := state_at (serve env r w) (target env r)) in *.
  destruct (end_lesson_forgets (target env r) (serve env r w)) as [_ Hend].
  fold state in Hend.
  destruct (snd (end_lesson (target env r) (serve env r w)))
    as [[summary message]|e]; [| done].
  simpl in Hend. injection Hend as -> ->.
  exists (_get_progress_info state counting_chapter), (summary_of state),
    (farewell (summary_of state)).
  assert (Hphase : bool_decide (lesson_phase state = LessonPhase.COMPLETED) = true
                   <-> LessonPhase.value (lesson_phase state) = "completed").
  { rewrite bool_decide_eq_true. split; [by intros -> |].
    by destruct (lesson_phase state). }
  repeat apply conj; try done.
  - apply Hphase.
  - apply Hphase.
  - intros Hmessage. apply Hphase. unfold farewell in Hmessage. simpl in Hmessage.
    by destruct (bool_decide _).
  - intros Hshown%Hphase. unfold farewell. simpl. by rewrite Hshown.
  - intros Hflag. simpl. apply bool_decide_eq_true. by apply Hcomplete.
Qed.

End Service.

(** * The counting lesson, run *)

(** C2.  The counting lesson, followed to its celebration, leaves the
    session in lesson phase COMPLETED; one more [ContinueTeaching] moves
    it to CHAPTER_REVIEW (and asks the first review question again), so
    that ending the lesson then reports it as not complete. *)
Theorem completed_is_not_terminal :
  lesson_phase <$>
    _teaching_states (serve_all 1800 get_counting_chapter no_marker keep_text whole_lesson empty_world) !! "s1"
  = Some LessonPhase.COMPLETED /\
  lesson_phase <$>
    _teaching_states
      (serve 1800 get_counting_chapter no_marker keep_text (calm "s1") (ContinueTeaching "s1")
         (serve_all 1800 get_counting_chapter no_marker keep_text whole_lesson empty_world)) !! "s1"
  = Some LessonPhase.CHAPTER_REVIEW /\
  snd (end_lesson "s1"
         (serve 1800 get_counting_chapter no_marker keep_text (calm "s1") (ContinueTeaching "s1")
            (serve_all 1800 get_counting_chapter no_marker keep_text whole_lesson empty_world)))
  = Ok ({| concepts_completed := 5; sum_total_correct := 34;
           sum_total_wrong := 0; sum_is_complete := false |},
        "Great effort today! 🌟").
Proof. by vm_compute. Qed.

(** C3, as the claim states it, fails: the snapshot that
    [StartLesson(2, "Math", "counting")] returns does not show lesson
    phase WELCOME. *)
Lemma start_lesson_snapshot_is_not_welcome :
  exists w1 session r1,
    start_lesson get_counting_chapter no_marker keep_text
      (calm "s1") 2 "Math" "counting" empty_world
    = (w1, Ok (session, r1)) /\
    shown_lesson_phase r1 = Some (LessonPhase.value LessonPhase.TEACHING) /\
    shown_lesson_phase r1 <> Some (LessonPhase.value LessonPhase.WELCOME).
Proof.
  eexists _, _, _. split; [by vm_compute |]. split; [by vm_compute |].
  by vm_compute.
Qed.

Lemma start_then_continue_witness :
  exists w1 session r1 w2 r2 state,
    start_lesson get_counting_chapter no_marker keep_text
      (calm "s1") 2 "Math" "counting" empty_world
    = (w1, Ok (session, r1)) /\
    response_type r1 = "welcome" /\
    shown_lesson_phase r1 = Some (LessonPhase.value LessonPhase.TEACHING) /\
    shown_concept r1 = Some 1 /\
    shown_concept_phase r1 = Some (ConceptPhase.value ConceptPhase.INTRODUCTION) /\
    continue_teaching 1800 get_counting_chapter no_marker keep_text
      (calm "s1") (session_id session) w1
    = (w2, Ok r2) /\
    response_type r2 = "concept_introduction" /\
    shown_lesson_phase r2 = Some (LessonPhase.value LessonPhase.TEACHING) /\
    shown_concept r2 = Some 1 /\
    shown_concept_phase r2 = Some (ConceptPhase.value ConceptPhase.EXPLANATION) /\
    _teaching_states w2 !! session_id session = Some state /\
    lesson_phase state = LessonPhase.TEACHING /\
    current_concept_index state = 0 /\
    concept_phase state = ConceptPhase.EXPLANATION.
Proof.
  apply (start_then_continue 1800 get_counting_chapter no_marker keep_text
           (calm "s1") (calm "s1") empty_world "ok" "ok" concept_numbers_1_to_5).
  - reflexivity.
  - reflexivity.
  - reflexivity.
  - simpl. lia.
Defined.

(** C7, as the claim states it, fails: with the language model
    unreachable, a wrong answer to the pending guided question raises
    [AIServiceError] and has nevertheless been counted. *)
Lemma submit_answer_failure_is_counted :
  snd (process_response 1800 get_counting_chapter no_marker keep_text
         (offline "s1") "s1" "seven" guided_world)
  = Raise AIServiceError /\
  total_wrong <$> _teaching_states guided_world !! "s1" = Some 0 /\
  total_wrong <$>
    _teaching_states
      (fst (process_response 1800 get_counting_chapter no_marker keep_text
              (offline "s1") "s1" "seven" guided_world)) !! "s1"
  = Some 1 /\
  _teaching_states
    (fst (process_response 1800 get_counting_chapter no_marker keep_text
            (offline "s1") "s1" "seven" guided_world))
  <> _teaching_states guided_world.
Proof.
  split; [by vm_compute |]. split; [by vm_compute |].
  assert (Hafter :
    total_wrong <$>
      _teaching_states
        (fst (process_response 1800 get_counting_chapter no_marker keep_text
                (offline "s1") "s1" "seven" guided_world)) !! "s1"
    = Some 1) by (by vm_compute).
  split; [exact Hafter |].
  intros Hsame. rewrite Hsame in Hafter. by vm_compute in Hafter.
Qed.

Lemma render_failure_effects_witness :
  _teaching_states guided_world !! "s1" = Some guided_state /\
  (renders_directly get_counting_chapter guided_state ->
   forall e,
     snd (continue_teaching 1800 get_counting_chapter no_marker keep_text
            (offline "s1") "s1" guided_world) = Raise e ->
     _teaching_states
       (fst (continue_teaching 1800 get_counting_chapter no_marker keep_text
               (offline "s1") "s1" guided_world))
     = _teaching_states guided_world) /\
  _teaching_states
    (fst (handle_silence 1800 get_counting_chapter no_marker keep_text
            (offline "s1") "s1" guided_world))
  = _teaching_states guided_world /\
  (forall transcript,
     snd (process_response 1800 get_counting_chapter no_marker keep_text
            (offline "s1") "s1" transcript guided_world)
     = Raise AIServiceError ->
     answered
       (fst (process_response 1800 get_counting_chapter no_marker keep_text
               (offline "s1") "s1" transcript guided_world)) "s1"
     = answered guided_world "s1" + 1).
Proof.
  split; [reflexivity |].
  apply (render_failure_effects 1800 get_counting_chapter no_marker keep_text
           (offline "s1") "s1" guided_world guided_state).
  reflexivity.
Defined.

Lemma counters_count_evaluations_witness :
  _teaching_states empty_world !! "s1" = None /\
  answered
    (serve_all 1800 get_counting_chapter no_marker keep_text
       [go; go; go; go; say "2"; say "seven"; say "four";
        (calm "s1", SubmitAnswer "nobody" "4");
        (calm "s1", NotifySilence "s1")]
       (serve 1800 get_counting_chapter no_marker keep_text (calm "s1") (StartLesson 2 "Math" "counting") empty_world))
    "s1"
  = evaluated 1800 get_counting_chapter no_marker keep_text
      [go; go; go; go; say "2"; say "seven"; say "four";
       (calm "s1", SubmitAnswer "nobody" "4");
       (calm "s1", NotifySilence "s1")]
      "s1"
      (serve 1800 get_counting_chapter no_marker keep_text (calm "s1") (StartLesson 2 "Math" "counting") empty_world).
Proof.
  split; [reflexivity |].
  apply (counters_count_evaluations 1800 get_counting_chapter no_marker keep_text
           (calm "s1") 2 "Math" "counting" empty_world).
  - reflexivity.
  - repeat (constructor; [unfold keeps_session; simpl; discriminate |]).
    constructor.
Defined.


Lemma continue_teaching_terminates_witness :
  self_call_bound get_counting_chapter < 12 /\
  snd (continue_teaching_rec 1800 get_counting_chapter no_marker keep_text 12
         (calm "s1") "s1" guided_world)
  <> Raise RecursionError /\
  continue_teaching_rec 1800 get_counting_chapter no_marker keep_text 12
    (calm "s1") "s1" guided_world
  = continue_teaching 1800 get_counting_chapter no_marker keep_text
      (calm "s1") "s1" guided_world.
Proof.
  split; [vm_compute; lia |].
  apply (continue_teaching_terminates 1800 get_counting_chapter no_marker keep_text
           12 (calm "s1") "s1" guided_world).
  vm_compute. lia.
Defined.

Lemma start_lesson_unavailable_witness :
  is_chapter_available 2 "Science" "counting" = false /\
  start_lesson get_counting_chapter no_marker keep_text
    (calm "s1") 2 "Science" "counting" empty_world
  = (empty_world, Raise LessonNotAvailableError).
Proof.
  split; [reflexivity |].
  apply (start_lesson_unavailable get_counting_chapter no_marker keep_text
           (calm "s1") 2 "Science" "counting" empty_world).
  reflexivity.
Defined.


(** * Instances of the further properties *)

Lemma unknown_session_rejected_witness :
  serve 1800 get_counting_chapter no_marker keep_text
    (calm "s1") (ContinueTeaching "nobody") guided_world
  = guided_world /\
  failure 1800 get_counting_chapter no_marker keep_text
    (calm "s1") (ContinueTeaching "nobody") guided_world
  = Some SessionNotFoundError.
Proof.
  apply (unknown_session_rejected 1800 get_counting_chapter no_marker keep_text
           (calm "s1") (ContinueTeaching "nobody") guided_world).
  - reflexivity.
  - reflexivity.
Defined.

Lemma expired_session_rejected_witness :
  failure 1800 get_counting_chapter no_marker keep_text
    (later "s1") (ContinueTeaching "s1") guided_world
  = Some SessionExpiredError /\
  _sessions
    (serve 1800 get_counting_chapter no_marker keep_text
       (later "s1") (ContinueTeaching "s1") guided_world)
  = delete "s1" (_sessions guided_world) /\
  _teaching_states
    (serve 1800 get_counting_chapter no_marker keep_text
       (later "s1") (ContinueTeaching "s1") guided_world)
  = _teaching_states guided_world /\
  failure 1800 get_counting_chapter no_marker keep_text
    (later "s1") (SubmitAnswer "s1" "2")
    (serve 1800 get_counting_chapter no_marker keep_text
       (later "s1") (ContinueTeaching "s1") guided_world)
  = Some SessionNotFoundError.
Proof.
  apply (expired_session_rejected 1800 get_counting_chapter no_marker keep_text
           (later "s1") (later "s1") (ContinueTeaching "s1")
           (SubmitAnswer "s1" "2") guided_world
           (Session_new "s1" 0 2 "Math" "counting")).
  - reflexivity.
  - reflexivity.
  - reflexivity.
  - reflexivity.
  - reflexivity.
Defined.


Lemma start_then_end_restores_witness :
  serve 1800 get_counting_chapter no_marker keep_text
    (calm "s2") (EndLesson "s2")
    (serve 1800 get_counting_chapter no_marker keep_text
       (calm "s2") (StartLesson 2 "Math" "counting") guided_world)
  = guided_world.
Proof.
  apply (start_then_end_restores 1800 get_counting_chapter no_marker keep_text
           (calm "s2") 2 "Math" "counting" guided_world).
  - reflexivity.
  - reflexivity.
Defined.

Lemma start_lesson_render_failure_witness :
  snd (start_lesson get_counting_chapter no_marker keep_text
         (offline "s1") 2 "Math" "counting" empty_world)
  = Raise AIServiceError /\
  _sessions
    (fst (start_lesson get_counting_chapter no_marker keep_text
            (offline "s1") 2 "Math" "counting" empty_world)) !! "s1"
  = Some (Session_new "s1" 0 2 "Math" "counting") /\
  _teaching_states
    (fst (start_lesson get_counting_chapter no_marker keep_text
            (offline "s1") 2 "Math" "counting" empty_world)) !! "s1"
  = Some (set_lesson_phase (state_at empty_world "s1") LessonPhase.WELCOME).
Proof.
  apply (start_lesson_render_failure get_counting_chapter no_marker keep_text
           (offline "s1") 2 "Math" "counting" empty_world).
  - reflexivity.
  - reflexivity.
Defined.

Lemma activity_keeps_session_alive_witness :
  live 1800 (calm "s1") "s1"
    (serve 1800 get_counting_chapter no_marker keep_text
       (offline "s1") (ContinueTeaching "s1") guided_world).
Proof.
  apply (activity_keeps_session_alive 1800 get_counting_chapter no_marker
           keep_text (offline "s1") (calm "s1") (ContinueTeaching "s1")
           guided_world).
  - lia.
  - reflexivity.
  - exists (Session_new "s1" 0 2 "Math" "counting"). split; reflexivity.
  - simpl. lia.
Defined.


Lemma reply_shows_stored_state_witness :
  exists resp,
    reply 1800 get_counting_chapter no_marker keep_text
      (calm "s1") (SubmitAnswer "s1" "2") guided_world
    = Some resp /\
    current_snapshot get_counting_chapter
      (state_at
         (serve 1800 get_counting_chapter no_marker keep_text
            (calm "s1") (SubmitAnswer "s1" "2") guided_world)
         "s1")
      resp.
Proof.
  eexists. split; [reflexivity |].
  apply (reply_shows_stored_state 1800 get_counting_chapter no_marker keep_text
           (calm "s1") (SubmitAnswer "s1" "2") guided_world).
  reflexivity.
Defined.

Lemma wrong_answer_effect_witness :
  _teaching_states
    (serve 1800 get_counting_chapter no_marker keep_text
       (offline "s1") (SubmitAnswer "s1" "seven") guided_world)
  = <["s1" := record_wrong guided_state]> (_teaching_states guided_world) /\
  position (record_wrong guided_state) = position guided_state /\
  reply 1800 get_counting_chapter no_marker keep_text
    (offline "s1") (SubmitAnswer "s1" "seven") guided_world
  = (fun ai_text =>
       respond (record_wrong guided_state) get_counting_chapter
         (fst (_process_response no_marker keep_text (offline "s1") ai_text None))
         "hint"
         (snd (_process_response no_marker keep_text (offline "s1") ai_text None))
         false)
    <$> generate_response (offline "s1")
          (build_hint_prompt "seven"
             (default "" (current_expected_answer guided_state))
             (current_hint guided_state) (current_attempts guided_state + 1)
             (needs_extra_help guided_state
              || (3 <=? consecutive_wrong guided_state + 1))
             false).
Proof.
  apply (wrong_answer_effect 1800 get_counting_chapter no_marker keep_text
           (offline "s1") "s1" "seven" guided_world guided_state).
  - exists (Session_new "s1" 0 2 "Math" "counting"). split; reflexivity.
  - reflexivity.
  - reflexivity.
Defined.

Lemma wrong_answers_in_a_row_witness :
  exists state',
    _teaching_states
      (serve_all 1800 get_counting_chapter no_marker keep_text
         [say "seven"; (offline "s1", SubmitAnswer "s1" "nine"); say "eleven"]
         guided_world) !! "s1"
    = Some state' /\
    needs_extra_help state' = true.
Proof.
  destruct (wrong_answers_in_a_row 1800 get_counting_chapter no_marker keep_text
              [say "seven"; (offline "s1", SubmitAnswer "s1" "nine"); say "eleven"]
              "s1" guided_world (Session_new "s1" 0 2 "Math" "counting")
              guided_state)
    as (state' & Hstate' & _ & _ & _ & _ & _ & Hhelp).
  - lia.
  - reflexivity.
  - reflexivity.
  - simpl. lia.
  - repeat (constructor; [eexists; split; reflexivity |]). constructor.
  - exists state'. split; [exact Hstate' | exact Hhelp].
Defined.

Lemma correct_answer_then_continue_witness :
  serve 1800 get_counting_chapter no_marker keep_text
    (calm "s1") (SubmitAnswer "s1" "Two!") guided_world
  = serve 1800 get_counting_chapter no_marker keep_text
      (calm "s1") (ContinueTeaching "s1")
      (set_teaching_states
         <["s1" := _advance_after_correct
                     (record_correct (state_at guided_world "s1"))]>
         guided_world).
Proof.
  apply (correct_answer_then_continue 1800 get_counting_chapter no_marker
           keep_text ltac:(lia) (calm "s1") "s1" "Two!" guided_world "ok").
  - exists (Session_new "s1" 0 2 "Math" "counting"). split; reflexivity.
  - reflexivity.
  - reflexivity.
Defined.

Lemma praise_failure_keeps_question_witness :
  failure 1800 get_counting_chapter no_marker keep_text
    (offline "s1") (SubmitAnswer "s1" "2") guided_world
  = Some AIServiceError /\
  state_at
    (serve 1800 get_counting_chapter no_marker keep_text
       (offline "s1") (SubmitAnswer "s1" "2") guided_world) "s1"
  = record_correct (state_at guided_world "s1").
Proof.
  destruct (praise_failure_keeps_question 1800 get_counting_chapter no_marker
              keep_text ltac:(lia) (offline "s1") "s1" "2" guided_world)
    as (Hfailure & Hstate & _).
  - exists (Session_new "s1" 0 2 "Math" "counting"). split; reflexivity.
  - reflexivity.
  - reflexivity.
  - split; [exact Hfailure | exact Hstate].
Defined.

Lemma lesson_never_goes_back_witness :
  not_behind (state_at guided_world "s1")
    (state_at
       (serve_all 1800 get_counting_chapter no_marker keep_text
          [go; say "2"; (offline "s1", ContinueTeaching "s1"); say "seven";
           (calm "s1", NotifySilence "s1");
           (calm "s2", StartLesson 2 "Math" "counting");
           (calm "s2", EndLesson "s2")]
          guided_world)
       "s1").
Proof.
  apply (lesson_never_goes_back 1800 get_counting_chapter no_marker keep_text
           ltac:(lia)).
  repeat (constructor; [first [by left | right; simpl; discriminate] |]).
  constructor.
Defined.

Lemma concept_index_in_range_witness :
  cursor_in_range get_counting_chapter
    (state_at
       (serve_all 1800 get_counting_chapter no_marker keep_text
          whole_lesson empty_world)
       "s1").
Proof.
  apply (concept_index_in_range 1800 get_counting_chapter no_marker keep_text
           ltac:(lia) whole_lesson empty_world).
  intros sid. unfold cursor_in_range, state_at, empty_world. simpl.
  rewrite lookup_empty. simpl. lia.
Defined.

Lemma attempts_stay_in_step_witness :
  attempts_in_step
    (state_at
       (serve_all 1800 get_counting_chapter no_marker keep_text
          [say "seven"; say "2"; say "nine"; go] guided_world)
       "s1").
Proof.
  apply (attempts_stay_in_step 1800 get_counting_chapter no_marker keep_text
           ltac:(lia) [say "seven"; say "2"; say "nine"; go] guided_world).
  intros sid. unfold attempts_in_step, state_at. simpl.
  destruct (decide (sid = "s1")) as [->|Hne].
  - rewrite lookup_singleton_eq. simpl. lia.
  - rewrite lookup_singleton_ne by done. simpl. lia.
Defined.

Lemma exhausted_guided_practice_moves_on_witness :
  concept_phase
    (state_at
       (serve 1800 get_counting_chapter no_marker keep_text
          (offline "s1") (ContinueTeaching "s1") practised_world) "s1")
  = ConceptPhase.INDEPENDENT_PRACTICE /\
  independent_question_index
    (state_at
       (serve 1800 get_counting_chapter no_marker keep_text
          (offline "s1") (ContinueTeaching "s1") practised_world) "s1")
  = 0.
Proof.
  destruct (exhausted_guided_practice_moves_on 1800 get_counting_chapter
              no_marker keep_text ltac:(lia) (offline "s1") "s1"
              practised_world concept_numbers_1_to_5)
    as (_ & Hphase & Hindex & _).
  - exists (Session_new "s1" 0 2 "Math" "counting"). split; reflexivity.
  - reflexivity.
  - reflexivity.
  - vm_compute. lia.
  - split; [exact Hphase | exact Hindex].
Defined.

Lemma celebration_failure_restarts_review_witness :
  failure 1800 get_counting_chapter no_marker keep_text
    (offline "s1") (ContinueTeaching "s1") reviewed_world
  = Some AIServiceError /\
  review_question_index
    (state_at
       (serve 1800 get_counting_chapter no_marker keep_text
          (calm "s1") (ContinueTeaching "s1")
          (serve 1800 get_counting_chapter no_marker keep_text
             (offline "s1") (ContinueTeaching "s1") reviewed_world))
       "s1")
  = 0.
Proof.
  destruct (celebration_failure_restarts_review 1800 get_counting_chapter
              no_marker keep_text ltac:(lia) (offline "s1") (calm "s1") "s1"
              reviewed_world)
    as (Hfailure & _ & _ & Hindex & _).
  - exists (Session_new "s1" 0 2 "Math" "counting"). split; reflexivity.
  - simpl. lia.
  - vm_compute. lia.
  - reflexivity.
  - vm_compute. lia.
  - discriminate.
  - reflexivity.
  - split; [exact Hfailure | exact Hindex].
Defined.

Lemma image_cache_stays_bounded_witness :
  ImageService.well_kept
    (ImageService.generate_images (fun s => s)
       [("cat", ImageService.returned (Some "u1"));
        ("dog", ImageService.raised "no network");
        ("CAT", ImageService.returned (Some "u2"));
        ("owl", ImageService.returned None)]
       []).
Proof.
  apply (image_cache_stays_bounded (fun s => s)).
  split; [constructor | unfold ImageService.MAX_CACHE_SIZE; simpl; lia].
Defined.

Lemma generated_image_is_cached_witness :
  ImageService.generate_image_sync (fun s => s) "CAT"
    (ImageService.raised "no network")
    (fst (ImageService.generate_image_sync (fun s => s) "Cat"
            (ImageService.returned (Some "u1")) []))
  = (fst (ImageService.generate_image_sync (fun s => s) "Cat"
            (ImageService.returned (Some "u1")) []),
     (Some "u1", None)).
Proof.
  destruct (generated_image_is_cached (fun s => s) "Cat" (Some "u1") [])
    as (_ & _ & Hagain).
  - reflexivity.
  - apply Hagain. reflexivity.
Defined.

Lemma summary_agrees_with_snapshot_witness :
  exists resp info summary message,
    reply 1800 get_counting_chapter no_marker keep_text
      (calm "s1") (SubmitAnswer "s1" "2") guided_world
    = Some resp /\
    progress_info resp = Some info /\
    snd (end_lesson "s1"
           (serve 1800 get_counting_chapter no_marker keep_text
              (calm "s1") (SubmitAnswer "s1" "2") guided_world))
    = Ok (summary, message) /\
    sum_total_correct summary = pi_total_correct info.
Proof.
  eexists.
  destruct (summary_agrees_with_snapshot 1800 get_counting_chapter no_marker
              keep_text (calm "s1") (SubmitAnswer "s1" "2") guided_world _
              eq_refl)
    as (info & summary & message & Hinfo & Hend & _ & Hcorrect & _).
  exists info, summary, message.
  split; [reflexivity |]. split; [exact Hinfo |].
  split; [exact Hend | exact Hcorrect].
Defined.

Lemma expectation_is_never_cleared_witness :
  is_Some
    (current_expected_answer
       (state_at
          (serve_all 1800 get_counting_chapter no_marker keep_text
             [say "2"; say "4"; say "seven"; go] guided_world)
          "s1")).
Proof.
  apply (expectation_is_never_cleared 1800 get_counting_chapter no_marker
           keep_text ltac:(lia)).
  - repeat (constructor; [by left |]). constructor.
  - by eexists.
Defined.

Lemma mastery_answer_opens_next_witness :
  current_concept_index
    (state_at
       (serve 1800 get_counting_chapter no_marker keep_text
          (calm "s1") (SubmitAnswer "s1" "2")
          (set_teaching_states
             <["s1" := set_concept_phase guided_state ConceptPhase.CONCEPT_CHECK]>
             guided_world))
       "s1")
  = 1.
Proof.
  destruct (mastery_answer_opens_next 1800 get_counting_chapter no_marker
              keep_text ltac:(lia) (calm "s1") "s1" "2"
              (set_teaching_states
                 <["s1" := set_concept_phase guided_state
                             ConceptPhase.CONCEPT_CHECK]>
                 guided_world)
              "ok")
    as (Hindex & _).
  - exists (Session_new "s1" 0 2 "Math" "counting"). split; reflexivity.
  - reflexivity.
  - reflexivity.
  - vm_compute. lia.
  - reflexivity.
  - reflexivity.
  - exact Hindex.
Defined.

Lemma image_url_is_never_empty_witness :
  exists resp,
    reply 1800 get_counting_chapter no_marker keep_text
      (calm "s1") (ContinueTeaching "s1") guided_world
    = Some resp /\
    image_url resp <> Some "".
Proof.
  eexists. split; [reflexivity |].
  apply (image_url_is_never_empty 1800 get_counting_chapter no_marker keep_text
           (calm "s1") (ContinueTeaching "s1") guided_world).
  - reflexivity.
  - vm_compute. discriminate.
Defined.

Lemma silence_hint_effect_witness :
  _teaching_states
    (serve 1800 get_counting_chapter no_marker keep_text
       (calm "s1") (NotifySilence "s1") guided_world)
  = <["s1" := state_at guided_world "s1"]> (_teaching_states guided_world).
Proof.
  destruct (silence_hint_effect 1800 get_counting_chapter no_marker keep_text
              (calm "s1") "s1" guided_world)
    as [Hstates _].
  - exists (Session_new "s1" 0 2 "Math" "counting"). split; reflexivity.
  - exact Hstates.
Defined.
